(** * purecloudwallstats: the interval-polling and metric-reconciliation loop

    A shallow embedding of [main.go]: configuration validation
    ([loadAppConfig]), query construction ([queryQueueIntervalStats]), the
    per-key metric dispatch and database update
    ([queryAndWriteQueueStatsToDb]) and the ticker loop
    ([startGrabbingPureCloudStats]).

    Conventions.
    - [time.Time] is the number of nanoseconds since Go's zero time and
      [time.Duration] a number of nanoseconds, both as [Z].
    - [float64] statistics are Rocq's primitive binary64 floats: the program
      only copies them.  The [float32] poll frequency is the exact rational
      value of the decoded number (JSON numbers are finite), since the program
      converts it to an integer and compares it.
    - Go's [int] is the 64-bit integer; the counts are copied, never added.
    - What the program prints, sends and executes is recorded as a list of
      [Event]s; the provider and the database are functions of an [Env]. *)

From Stdlib Require Import ZArith QArith List String Bool Lia Permutation.
From Stdlib Require Import PrimFloat DecimalString.
Import ListNotations.

Local Open Scope string_scope.
Local Open Scope list_scope.
Local Open Scope Z_scope.

(** ** The [time] package, as far as the program uses it *)

Module time.

Definition Time := Z.
Definition Duration := Z.

Definition Nanosecond : Duration := 1.
Definition Second : Duration := 1000000000 * Nanosecond.
Definition Minute : Duration := 60 * Second.
Definition Hour : Duration := 60 * Minute.

(** [t.Truncate(d)]: [t] rounded down to a multiple of [d] since the zero
    time; [t] itself when [d <= 0]. *)
Definition Truncate (t : Time) (d : Duration) : Time :=
  if d <=? 0 then t else t - t mod d.

(** [t.Add(d)]. *)
Definition Add (t : Time) (d : Duration) : Time := t + d.

End time.

(** ** The response and query types of the [purecloud] package

    Package [github.com/szemin-ng/purecloud] is imported, not part of the
    sources: the records below have the fields [main.go] reads and writes. *)

Module purecloud.

(** Modelled from the spec: the declaration of the statistics of a metric is
    in the imported package; section 3 of the specification gives the count
    as an integer and the sum, max, ratio and current value as floating point
    numbers.  [int(metric.Stats.Count)] is then the count itself. *)
Record StatisticalSummary := {
  Count : Z;
  Sum : float;
  Max : float;
  Ratio : float;
  Current : float }.

Record MetricData := {
  Metric : string;
  Stats : StatisticalSummary }.

Record Group := {
  QueueID : string;
  MediaType : string }.

(** One data bucket of an aggregate result. *)
Record AggregateData := {
  Metrics : list MetricData }.

Record AggregateResult := {
  agg_Group : Group;
  agg_Data : list AggregateData }.

Record ObservationResult := {
  obs_Group : Group;
  obs_Data : list MetricData }.

Record AggregateQueryResponse := {
  agg_Results : list AggregateResult }.

Record ObservationQueryResponse := {
  obs_Results : list ObservationResult }.

Record AnalyticsQueryPredicate := {
  Dimension : string;
  Value : string }.

Record AnalyticsQueryClause := {
  clause_Type : string;
  Predicates : list AnalyticsQueryPredicate }.

Record AnalyticsQueryFilter := {
  filter_Type : string;
  Clauses : list AnalyticsQueryClause }.

Record AggregationQuery := {
  Interval : string;
  Granularity : string;
  GroupBy : list string;
  agg_Filter : AnalyticsQueryFilter }.

Record ObservationQuery := {
  obs_Filter : AnalyticsQueryFilter }.

End purecloud.

Import time purecloud.

(** ** Configuration *)

Record AppConfig := {
  PureCloudRegion : string;
  PureCloudClientID : string;
  PureCloudClientSecret : string;
  cfg_Granularity : string;
  PollFrequencySeconds : Q;
  Queues : list string;
  Agents : list string;
  OdbcDsn : string }.

(** The zero value of [AppConfig], the global [appConfig] before loading. *)
Definition zeroConfig : AppConfig :=
  {| PureCloudRegion := EmptyString; PureCloudClientID := EmptyString;
     PureCloudClientSecret := EmptyString; cfg_Granularity := EmptyString;
     PollFrequencySeconds := 0%Q; Queues := []; Agents := [];
     OdbcDsn := EmptyString |}.

Definition queueStatsTable : string := "QueueStats".

(** A Go map literal, an association list looked up by key. *)
Fixpoint lookup {A : Type} (key : string) (m : list (string * A)) : option A :=
  match m with
  | [] => None
  | (k, v) :: rest => if (key =? k)%string then Some v else lookup key rest
  end.

Definition supportedGranularity : list (string * Duration) :=
  [ ("PT30M", Minute * 30); ("PT60M", Hour * 1); ("PT1H", Hour * 1) ].

Definition supportedMediaType : list string := [ "voice"; "chat"; "email" ].

(** [supportedGranularity[g]]: indexing a Go map gives the zero value for an
    absent key. *)
Definition granularityDuration (g : string) : Duration :=
  match lookup g supportedGranularity with
  | Some d => d
  | None => 0
  end.

(** Lines 456-457: the interval of one tick, from [time.Now()]. *)
Definition currentInterval (cfg : AppConfig) (now : Time) : Time * Time :=
  let startInterval := Truncate now (granularityDuration (cfg_Granularity cfg)) in
  let endInterval := Add startInterval (granularityDuration (cfg_Granularity cfg)) in
  (startInterval, endInterval).

(** ** The local variables of the update loop

    Lines 229-234 declare 22 [int] and 28 [float64] variables inside the loop
    body, so that each (queue, media type) pair starts from zero.  They are
    modelled as a store indexed by the variable's name. *)

Inductive IntVar :=
| oInteracting | oWaiting | nError | nOffered | nOutboundAbandoned
| nOutboundAttempted | nOutboundConnected | nTransferred | nOverSLA
| nAbandon | nAcd | nAcw | nAgentResponseTime | nAnswered | nHandle | nHeld
| nHeldComplete | nIvr | nTalk | nTalkComplete | nUserResponseTime | nWait.

Inductive FloatVar :=
| tAbandon | mtAbandon | tAcd | mtAcd | tAcw | mtAcw
| tAgentResponseTime | mtAgentResponseTime | tAnswered | mtAnswered
| tHandle | mtHandle | tHeld | mtHeld | tHeldComplete | mtHeldComplete
| tIvr | mtIvr | tTalk | mtTalk | tTalkComplete | mtTalkComplete
| tUserResponseTime | mtUserResponseTime | tWait | mtWait
| oServiceLevel | oServiceTarget.

Definition IntVar_eq_dec (a b : IntVar) : {a = b} + {a <> b}.
Proof. decide equality. Defined.

Definition FloatVar_eq_dec (a b : FloatVar) : {a = b} + {a <> b}.
Proof. decide equality. Defined.

Definition allIntVars : list IntVar :=
  [ oInteracting; oWaiting; nError; nOffered; nOutboundAbandoned;
    nOutboundAttempted; nOutboundConnected; nTransferred; nOverSLA;
    nAbandon; nAcd; nAcw; nAgentResponseTime; nAnswered; nHandle; nHeld;
    nHeldComplete; nIvr; nTalk; nTalkComplete; nUserResponseTime; nWait ].

Definition allFloatVars : list FloatVar :=
  [ tAbandon; mtAbandon; tAcd; mtAcd; tAcw; mtAcw;
    tAgentResponseTime; mtAgentResponseTime; tAnswered; mtAnswered;
    tHandle; mtHandle; tHeld; mtHeld; tHeldComplete; mtHeldComplete;
    tIvr; mtIvr; tTalk; mtTalk; tTalkComplete; mtTalkComplete;
    tUserResponseTime; mtUserResponseTime; tWait; mtWait;
    oServiceLevel; oServiceTarget ].

Record Locals := {
  ints : IntVar -> Z;
  floats : FloatVar -> float }.

(** Go initialises every declared variable to the zero value of its type. *)
Definition zeroLocals : Locals :=
  {| ints := fun _ => 0; floats := fun _ => 0%float |}.

Definition setInt (v : IntVar) (x : Z) (l : Locals) : Locals :=
  {| ints := fun v' => if IntVar_eq_dec v' v then x else ints l v';
     floats := floats l |}.

Definition setFloat (v : FloatVar) (x : float) (l : Locals) : Locals :=
  {| ints := ints l;
     floats := fun v' => if FloatVar_eq_dec v' v then x else floats l v' |}.

(** The values of all variables, in declaration order of [allIntVars] and
    [allFloatVars]: what the UPDATE statement is formatted from. *)
Definition values (l : Locals) : list Z * list float :=
  (map (ints l) allIntVars, map (floats l) allFloatVars).

(** ** Results of code that may panic *)

Inductive Res (A : Type) :=
| Ok (a : A)
| Panic (msg : string).

Arguments Ok {A} a.
Arguments Panic {A} msg.

Definition bind {A B : Type} (r : Res A) (k : A -> Res B) : Res B :=
  match r with
  | Ok a => k a
  | Panic msg => Panic msg
  end.

(** ** Metric dispatch: the two [switch] statements *)

(** Lines 242-317: one metric of the aggregate response. *)
Definition aggMetric (metric : MetricData) (l : Locals) : Res Locals :=
  let name := Metric metric in
  let stats := Stats metric in
  if (name =? "nError")%string then Ok (setInt nError (Count stats) l)
  else if (name =? "nOffered")%string then Ok (setInt nOffered (Count stats) l)
  else if (name =? "nOutboundAbandoned")%string then
    Ok (setInt nOutboundAbandoned (Count stats) l)
  else if (name =? "nOutboundAttempted")%string then
    Ok (setInt nOutboundAttempted (Count stats) l)
  else if (name =? "nOutboundConnected")%string then
    Ok (setInt nOutboundConnected (Count stats) l)
  else if (name =? "nTransferred")%string then
    Ok (setInt nTransferred (Count stats) l)
  else if (name =? "nOverSla")%string then Ok (setInt nOverSLA (Count stats) l)
  else if (name =? "oInteracting")%string then Ok l
  else if (name =? "oServiceLevel")%string then
    Ok (setFloat oServiceLevel (Ratio stats) l)
  else if (name =? "oServiceTarget")%string then
    Ok (setFloat oServiceTarget (Current stats) l)
  else if (name =? "oWaiting")%string then Ok l
  else if (name =? "tAbandon")%string then
    Ok (setInt nAbandon (Count stats)
         (setFloat mtAbandon (Max stats) (setFloat tAbandon (Sum stats) l)))
  else if (name =? "tAcd")%string then
    Ok (setInt nAcd (Count stats)
         (setFloat mtAcd (Max stats) (setFloat tAcd (Sum stats) l)))
  else if (name =? "tAcw")%string then
    Ok (setInt nAcw (Count stats)
         (setFloat mtAcw (Max stats) (setFloat tAcw (Sum stats) l)))
  else if (name =? "tAgentResponseTime")%string then
    Ok (setInt nAgentResponseTime (Count stats)
         (setFloat mtAgentResponseTime (Max stats)
           (setFloat tAgentResponseTime (Sum stats) l)))
  else if (name =? "tAnswered")%string then
    Ok (setInt nAnswered (Count stats)
         (setFloat mtAnswered (Max stats) (setFloat tAnswered (Sum stats) l)))
  else if (name =? "tHandle")%string then
    Ok (setInt nHandle (Count stats)
         (setFloat mtHandle (Max stats) (setFloat tHandle (Sum stats) l)))
  else if (name =? "tHeld")%string then
    Ok (setInt nHeld (Count stats)
         (setFloat mtHeld (Max stats) (setFloat tHeld (Sum stats) l)))
  else if (name =? "tHeldComplete")%string then
    Ok (setInt nHeldComplete (Count stats)
         (setFloat mtHeldComplete (Max stats)
           (setFloat tHeldComplete (Sum stats) l)))
  else if (name =? "tIvr")%string then
    Ok (setInt nIvr (Count stats)
         (setFloat mtIvr (Max stats) (setFloat tIvr (Sum stats) l)))
  else if (name =? "tTalk")%string then
    Ok (setInt nTalk (Count stats)
         (setFloat mtTalk (Max stats) (setFloat tTalk (Sum stats) l)))
  else if (name =? "tTalkComplete")%string then
    Ok (setInt nTalkComplete (Count stats)
         (setFloat mtTalkComplete (Max stats)
           (setFloat tTalkComplete (Sum stats) l)))
  else if (name =? "tUserResponseTime")%string then
    Ok (setInt nUserResponseTime (Count stats)
         (setFloat mtUserResponseTime (Max stats)
           (setFloat tUserResponseTime (Sum stats) l)))
  else if (name =? "tWait")%string then
    Ok (setInt nWait (Count stats)
         (setFloat mtWait (Max stats) (setFloat tWait (Sum stats) l)))
  else Panic ("Unrecognized metric " ++ name)%string.

(** Lines 330-337: one metric of the observation response. *)
Definition obsMetric (metric : MetricData) (l : Locals) : Res Locals :=
  let name := Metric metric in
  let stats := Stats metric in
  if (name =? "oInteracting")%string then
    Ok (setInt oInteracting (Count stats) l)
  else if (name =? "oWaiting")%string then Ok (setInt oWaiting (Count stats) l)
  else Panic ("Unrecognized metric " ++ name)%string.

(** [for _, metric := range metrics { switch ... }] *)
Fixpoint forMetrics (dispatch : MetricData -> Locals -> Res Locals)
    (metrics : list MetricData) (l : Locals) : Res Locals :=
  match metrics with
  | [] => Ok l
  | metric :: rest => bind (dispatch metric l) (forMetrics dispatch rest)
  end.

(** Lines 240-319: [for _, data := range result.Data]. *)
Fixpoint forData (data : list AggregateData) (l : Locals) : Res Locals :=
  match data with
  | [] => Ok l
  | d :: rest => bind (forMetrics aggMetric (Metrics d) l) (forData rest)
  end.

Definition groupIs (g : Group) (queueID mediaType : string) : bool :=
  (QueueID g =? queueID)%string && (MediaType g =? mediaType)%string.

(** Lines 237-323: the scan of the aggregate results, left at the first
    result of the pair by [break]. *)
Fixpoint scanAggResults (results : list AggregateResult)
    (queueID mediaType : string) (l : Locals) : Res Locals :=
  match results with
  | [] => Ok l
  | result :: rest =>
      if groupIs (agg_Group result) queueID mediaType
      then forData (agg_Data result) l
      else scanAggResults rest queueID mediaType l
  end.

(** Lines 326-342: the scan of the observation results. *)
Fixpoint scanObsResults (results : list ObservationResult)
    (queueID mediaType : string) (l : Locals) : Res Locals :=
  match results with
  | [] => Ok l
  | result :: rest =>
      if groupIs (obs_Group result) queueID mediaType
      then forMetrics obsMetric (obs_Data result) l
      else scanObsResults rest queueID mediaType l
  end.

(** Lines 229-342: the variables of one (queue, media type) pair after both
    scans, or the panic of the first unrecognized metric met. *)
Definition reconcileKey (aggResp : AggregateQueryResponse)
    (obsResp : ObservationQueryResponse) (queueID mediaType : string)
    : Res Locals :=
  bind (scanAggResults (agg_Results aggResp) queueID mediaType zeroLocals)
       (scanObsResults (obs_Results obsResp) queueID mediaType).

(** ** What the program does to the outside world *)

(** The statements passed to [db.Exec].  The SQL text is a function of the
    fields below; [UpdateRow] stands for the UPDATE of lines 346-359, formatted
    from all 50 variables and the key. *)
Inductive SqlStmt :=
| DropTable (table : string)
| CreateTable (table : string)
| InsertRow (table queueID queueName mediaType : string)
| UpdateRow (table : string) (l : Locals) (queueID mediaType : string).

(** The lines written to standard output by [fmt.Printf] and [fmt.Println]. *)
Inductive Output :=
| OutError (err : string)
| OutQuerying (startInterval : string)
| OutStats (queueID mediaType : string) (l : Locals)
| OutTickError (t : string) (err : string)
| OutTicker (tick : Duration)
| OutMapped (n : nat)
| OutText (s : string).

Inductive Event :=
| Printed (o : Output)
| AggregateQuerySent (q : AggregationQuery)
| ObservationQuerySent (q : ObservationQuery)
| DbExec (stmt : SqlStmt)
| TickerStarted (tick : Duration).

(** What surrounds one poll cycle: the formatting of a time with
    [timeFormat], the provider's answer to each query, and the outcome of
    [db.Exec] on a statement, given the statements executed before it in the
    cycle ([None]: no error). *)
Record Env := {
  Format : Time -> string;
  QueryConversationAggregates :
    AggregationQuery -> AggregateQueryResponse + string;
  QueryQueueObservations :
    ObservationQuery -> ObservationQueryResponse + string;
  Exec : list SqlStmt -> SqlStmt -> option string }.

(** How a Go function ends: it returns its [err] result, or it panics. *)
Inductive Exit :=
| Returned (err : option string)
| Panicked (msg : string).

(** ** Query building *)

(** Lines 409-417: [for _, v := range values { Predicates = append(Predicates,
    predicate) }], from the empty slice. *)
Definition appendPredicates (dimension : string) (values : list string)
    : list AnalyticsQueryPredicate :=
  fold_left
    (fun predicates v => predicates ++ [ {| Dimension := dimension; Value := v |} ])
    values [].

(** Lines 398-421: the aggregate query, with both clauses appended. *)
Definition aggQuery (cfg : AppConfig) (env : Env)
    (startInterval endInterval : Time) : AggregationQuery :=
  let mediaTypeClause :=
    {| clause_Type := "or";
       Predicates := appendPredicates "mediaType" supportedMediaType |} in
  let queueIDClause :=
    {| clause_Type := "or";
       Predicates := appendPredicates "queueId" (Queues cfg) |} in
  {| Interval :=
       (Format env startInterval ++ "/" ++ Format env endInterval)%string;
     Granularity := cfg_Granularity cfg;
     GroupBy := [ "queueId" ];
     agg_Filter :=
       {| filter_Type := "and";
          Clauses := ([] ++ [ mediaTypeClause ]) ++ [ queueIDClause ] |} |}.

(** Lines 430-431: the observation query reuses the filter. *)
Definition obsQuery (q : AggregationQuery) : ObservationQuery :=
  {| obs_Filter := agg_Filter q |}.

(** Lines 369-440. *)
Definition queryQueueIntervalStats (cfg : AppConfig) (env : Env)
    (startInterval endInterval : Time)
    : list Event * (AggregateQueryResponse * ObservationQueryResponse + string) :=
  let q := aggQuery cfg env startInterval endInterval in
  match QueryConversationAggregates env q with
  | inr err => ([ AggregateQuerySent q; Printed (OutError err) ], inr err)
  | inl aggResp =>
      match QueryQueueObservations env (obsQuery q) with
      | inr err =>
          ([ AggregateQuerySent q; ObservationQuerySent (obsQuery q);
             Printed (OutError err) ], inr err)
      | inl obsResp =>
          ([ AggregateQuerySent q; ObservationQuerySent (obsQuery q) ],
           inl (aggResp, obsResp))
      end
  end.

(** ** The update loop *)

(** How a loop body ends: the loop goes on (with the statements executed so
    far in this cycle), or the enclosing function is left. *)
Inductive Flow :=
| Next (done : list SqlStmt)
| Leave (x : Exit).

(** [for _, x := range xs { body }], where the body may return or panic. *)
Fixpoint forRange {A : Type}
    (body : A -> list SqlStmt -> list Event * Flow)
    (xs : list A) (done : list SqlStmt) : list Event * Flow :=
  match xs with
  | [] => ([], Next done)
  | x :: rest =>
      match body x done with
      | (tr, Next done') =>
          let (tr', f) := forRange body rest done' in (tr ++ tr', f)
      | (tr, Leave x) => (tr, Leave x)
      end
  end.

(** Lines 228-362, the body of the inner loop: dispatch the metrics of the
    pair, print the summary line, run the UPDATE; a failed UPDATE is printed
    and returned. *)
Definition updateKey (env : Env) (aggResp : AggregateQueryResponse)
    (obsResp : ObservationQueryResponse) (queueID mediaType : string)
    (done : list SqlStmt) : list Event * Flow :=
  match reconcileKey aggResp obsResp queueID mediaType with
  | Panic msg => ([], Leave (Panicked msg))
  | Ok l =>
      let stmt := UpdateRow queueStatsTable l queueID mediaType in
      match Exec env done stmt with
      | Some err =>
          ([ Printed (OutStats queueID mediaType l); DbExec stmt;
             Printed (OutError err) ],
           Leave (Returned (Some err)))
      | None =>
          ([ Printed (OutStats queueID mediaType l); DbExec stmt ],
           Next (done ++ [ stmt ]))
      end
  end.

(** Lines 213-366. *)
Definition queryAndWriteQueueStatsToDb (cfg : AppConfig) (env : Env)
    (startInterval endInterval : Time) : list Event * Exit :=
  let (trq, r) := queryQueueIntervalStats cfg env startInterval endInterval in
  let hd := Printed (OutQuerying (Format env startInterval)) :: trq in
  match r with
  | inr err => (hd ++ [ Printed (OutError err) ], Returned (Some err))
  | inl (aggResp, obsResp) =>
      match
        forRange
          (fun queueID =>
             forRange (updateKey env aggResp obsResp queueID) supportedMediaType)
          (Queues cfg) []
      with
      | (tr, Next _) => (hd ++ tr, Returned None)
      | (tr, Leave x) => (hd ++ tr, x)
      end
  end.

(** ** The ticker loop *)

(** One tick of [statTicker.C]: the time [t] it carries, the value of
    [time.Now()] when it is handled, and the world during its cycle. *)
Record Tick := {
  t : Time;
  Now : Time;
  tickEnv : Env }.

(** Lines 450-463, the goroutine over the ticks received before the ticker
    is stopped.  The program calls [recover] nowhere, so a panic in the
    goroutine ends the process: [Some msg], and no later tick is handled. *)
Fixpoint pollLoop (cfg : AppConfig) (ticks : list Tick)
    : list Event * option string :=
  match ticks with
  | [] => ([], None)
  | tk :: rest =>
      let (startInterval, endInterval) := currentInterval cfg (Now tk) in
      match
        queryAndWriteQueueStatsToDb cfg (tickEnv tk) startInterval endInterval
      with
      | (tr, Panicked msg) => (tr, Some msg)
      | (tr, Returned (Some err)) =>
          let (tr', p) := pollLoop cfg rest in
          (tr ++ Printed (OutTickError (Format (tickEnv tk) (t tk)) err) :: tr', p)
      | (tr, Returned None) =>
          let (tr', p) := pollLoop cfg rest in (tr ++ tr', p)
      end
  end.

(** ** Start-up *)

(** [int(x)] for a [float32] [x]: the fraction is discarded (truncation
    towards zero).  For a value outside the range of [int] the Go
    specification leaves the result to the implementation; amd64 gives the
    least [int64], which is what is modelled. *)
Definition int_of_float32 (x : Q) : Z :=
  let n := Z.quot (Qnum x) (Zpos (Qden x)) in
  if (- 2 ^ 63 <=? n) && (n <? 2 ^ 63) then n else - 2 ^ 63.

(** Lines 139-149 of [loadAppConfig]: the two validations. *)
Definition validate (cfg : AppConfig) : option string :=
  match lookup (cfg_Granularity cfg) supportedGranularity with
  | None => Some "Invalid granularity. Use PT30M, PT60M or PT1H"
  | Some _ =>
      if (int_of_float32 (PollFrequencySeconds cfg) <=? 0)
         || (60 <? int_of_float32 (PollFrequencySeconds cfg))
      then Some "Invalid frequency. Keep it within 60 seconds"
      else None
  end.

(** What surrounds start-up: the command line, the file system, the JSON
    decoder (the decoded value of [appConfig] and the decoder's error), the
    database driver, the login and the queue listing. *)
Record Startup := {
  os_Args : list string;
  ReadFile : string -> string + string;
  Decode : string -> AppConfig * option string;
  sql_Open : string -> option string;
  db_Ping : option string;
  LoginWithClientCredentials : string -> string -> string -> option string;
  GetListOfQueues : list (string * string) + string;
  startupExec : SqlStmt -> option string }.

(** Lines 113-152: the new value of the global [appConfig] and the error. *)
Definition loadAppConfig (st : Startup) (configFile : string)
    : AppConfig * option string :=
  let f :=
    if (configFile =? EmptyString)%string then
      match os_Args st with
      | _ :: f :: _ => inl f
      | _ => inr "Usage: %s configfile"
      end
    else inl configFile in
  match f with
  | inr err => (zeroConfig, Some err)
  | inl f =>
      match ReadFile st f with
      | inr err => (zeroConfig, Some err)
      | inl b =>
          match Decode st b with
          | (cfg, Some err) => (cfg, Some err)
          | (cfg, None) => (cfg, validate cfg)
          end
      end
  end.

(** Lines 155-163. *)
Definition loginToPureCloud (st : Startup) (cfg : AppConfig)
    : list Event * option string :=
  match
    LoginWithClientCredentials st (PureCloudRegion cfg) (PureCloudClientID cfg)
      (PureCloudClientSecret cfg)
  with
  | Some err =>
      ([ Printed (OutText "Logging into PureCloud..."); Printed (OutError err) ],
       Some err)
  | None =>
      ([ Printed (OutText "Logging into PureCloud...");
         Printed (OutText "Successfully logged in.") ], None)
  end.

(** Lines 91-109: the map of queue IDs to names; a later entity of the same
    ID replaces an earlier one, so the map is read from the last entity. *)
Definition getPureCloudQueues (st : Startup)
    : list Event * (list (string * string) + string) :=
  match GetListOfQueues st with
  | inr err =>
      ([ Printed (OutText "Retrieving list of configured queues...");
         Printed (OutError err) ], inr err)
  | inl entities =>
      ([ Printed (OutText "Retrieving list of configured queues...");
         Printed (OutMapped (List.length (nodup string_dec (map fst entities)))) ],
       inl (rev entities))
  end.

(** [for ... { if _, err = db.Exec(INSERT ...); err != nil { return } }] *)
Fixpoint insertRows (st : Startup) (queueNames : list (string * string))
    (keys : list (string * string)) : list Event * option string :=
  match keys with
  | [] => ([], None)
  | (queueID, mediaType) :: rest =>
      let name :=
        match lookup queueID queueNames with Some n => n | None => EmptyString end in
      let stmt := InsertRow queueStatsTable queueID name mediaType in
      match startupExec st stmt with
      | Some err => ([ DbExec stmt ], Some err)
      | None =>
          let (tr, r) := insertRows st queueNames rest in (DbExec stmt :: tr, r)
      end
  end.

(** The rows of the table: every configured queue with every supported media
    type, in the order of the two nested loops. *)
Definition trackedKeys (cfg : AppConfig) : list (string * string) :=
  flat_map (fun queueID => map (pair queueID) supportedMediaType) (Queues cfg).

(** Lines 166-210. *)
Definition prepareDbTables (st : Startup) (cfg : AppConfig)
    : list Event * option string :=
  match getPureCloudQueues st with
  | (tr, inr err) => (tr, Some err)
  | (tr, inl queueNames) =>
      let hd :=
        tr ++ [ DbExec (DropTable queueStatsTable);
                Printed (OutText "Creating QueueStats table");
                DbExec (CreateTable queueStatsTable) ] in
      match startupExec st (CreateTable queueStatsTable) with
      | Some err => (hd, Some err)
      | None =>
          let (tr', r) := insertRows st queueNames (trackedKeys cfg) in
          (hd ++ Printed (OutText "Prepopulating table data") :: tr', r)
      end
  end.

(** Lines 443-466: the ticker is created and the goroutine started. *)
Definition startGrabbingPureCloudStats (cfg : AppConfig) : list Event :=
  let tick := Second * int_of_float32 (PollFrequencySeconds cfg) in
  [ Printed (OutTicker tick); TickerStarted tick ].

(** How the process ends. *)
Inductive ProcState :=
| Exited
| Crashed (msg : string).

Definition configFile : string := EmptyString.

(** Lines 49-88: [main], with the ticks the goroutine receives before ENTER
    is pressed. *)
Definition main (st : Startup) (ticks : list Tick) : list Event * ProcState :=
  match loadAppConfig st configFile with
  | (_, Some err) => ([ Printed (OutError err) ], Exited)
  | (cfg, None) =>
  match sql_Open st (OdbcDsn cfg) with
  | Some err => ([ Printed (OutError err) ], Exited)
  | None =>
  match db_Ping st with
  | Some err => ([ Printed (OutError err) ], Exited)
  | None =>
  match loginToPureCloud st cfg with
  | (tr1, Some err) => (tr1 ++ [ Printed (OutError err) ], Exited)
  | (tr1, None) =>
  match prepareDbTables st cfg with
  | (tr2, Some err) => (tr1 ++ tr2 ++ [ Printed (OutError err) ], Exited)
  | (tr2, None) =>
      let hd :=
        tr1 ++ tr2 ++ startGrabbingPureCloudStats cfg
            ++ [ Printed (OutText "Press ENTER to STOP") ] in
      match pollLoop cfg ticks with
      | (tr3, Some msg) => (hd ++ tr3, Crashed msg)
      | (tr3, None) => (hd ++ tr3 ++ [ Printed (OutText "Done") ], Exited)
      end
  end end end end end.

(** ** The metric schema registry of the specification

    Section 4.1 of the specification describes the dispatch as a table from
    metric names to handling rules: counters, duration triplets, gauges (of
    the ratio or of the current value) and ignored metrics.  The table below
    follows that description; [aggMetric_registry] and [obsMetric_registry]
    show that the two [switch] statements compute exactly what it
    prescribes. *)

Inductive Rule :=
| Counter (n : IntVar)
| Triplet (total max : FloatVar) (n : IntVar)
| RatioGauge (v : FloatVar)
| CurrentGauge (v : FloatVar)
| Ignored.

Definition aggRegistry : list (string * Rule) :=
  [ ("nError", Counter nError);
    ("nOffered", Counter nOffered);
    ("nOutboundAbandoned", Counter nOutboundAbandoned);
    ("nOutboundAttempted", Counter nOutboundAttempted);
    ("nOutboundConnected", Counter nOutboundConnected);
    ("nTransferred", Counter nTransferred);
    ("nOverSla", Counter nOverSLA);
    ("oInteracting", Ignored);
    ("oServiceLevel", RatioGauge oServiceLevel);
    ("oServiceTarget", CurrentGauge oServiceTarget);
    ("oWaiting", Ignored);
    ("tAbandon", Triplet tAbandon mtAbandon nAbandon);
    ("tAcd", Triplet tAcd mtAcd nAcd);
    ("tAcw", Triplet tAcw mtAcw nAcw);
    ("tAgentResponseTime",
     Triplet tAgentResponseTime mtAgentResponseTime nAgentResponseTime);
    ("tAnswered", Triplet tAnswered mtAnswered nAnswered);
    ("tHandle", Triplet tHandle mtHandle nHandle);
    ("tHeld", Triplet tHeld mtHeld nHeld);
    ("tHeldComplete", Triplet tHeldComplete mtHeldComplete nHeldComplete);
    ("tIvr", Triplet tIvr mtIvr nIvr);
    ("tTalk", Triplet tTalk mtTalk nTalk);
    ("tTalkComplete", Triplet tTalkComplete mtTalkComplete nTalkComplete);
    ("tUserResponseTime",
     Triplet tUserResponseTime mtUserResponseTime nUserResponseTime);
    ("tWait", Triplet tWait mtWait nWait) ].

Definition obsRegistry : list (string * Rule) :=
  [ ("oInteracting", Counter oInteracting); ("oWaiting", Counter oWaiting) ].

(** The variables a rule writes, with the statistic stored in each. *)
Definition intWrites (r : Rule) (s : StatisticalSummary) : list (IntVar * Z) :=
  match r with
  | Counter n => [ (n, Count s) ]
  | Triplet _ _ n => [ (n, Count s) ]
  | _ => []
  end.

Definition floatWrites (r : Rule) (s : StatisticalSummary)
    : list (FloatVar * float) :=
  match r with
  | Triplet total max _ => [ (total, Sum s); (max, Max s) ]
  | RatioGauge v => [ (v, Ratio s) ]
  | CurrentGauge v => [ (v, Current s) ]
  | _ => []
  end.

Definition applyRule (r : Rule) (s : StatisticalSummary) (l : Locals) : Locals :=
  fold_left (fun l w => setInt (fst w) (snd w) l) (intWrites r s)
    (fold_left (fun l w => setFloat (fst w) (snd w) l) (floatWrites r s) l).

Definition dispatchBy (registry : list (string * Rule)) (metric : MetricData)
    (l : Locals) : Res Locals :=
  match lookup (Metric metric) registry with
  | Some r => Ok (applyRule r (Stats metric) l)
  | None => Panic ("Unrecognized metric " ++ Metric metric)%string
  end.

(** The effect of a metric the registry knows. *)
Definition applyKnown (registry : list (string * Rule)) (l : Locals)
    (metric : MetricData) : Locals :=
  match lookup (Metric metric) registry with
  | Some r => applyRule r (Stats metric) l
  | None => l
  end.

(** A variable holds its initial value or a statistic written by the rule
    of one of the dispatched metrics. *)
Definition IntFrom (registry : list (string * Rule)) (ms : list MetricData)
    (v : IntVar) (x : Z) : Prop :=
  exists m r,
    In m ms /\ lookup (Metric m) registry = Some r /\
    In (v, x) (intWrites r (Stats m)).

Definition FloatFrom (registry : list (string * Rule)) (ms : list MetricData)
    (v : FloatVar) (x : float) : Prop :=
  exists m r,
    In m ms /\ lookup (Metric m) registry = Some r /\
    In (v, x) (floatWrites r (Stats m)).

(** The first grouping of a pair in each response, and the metrics the
    scans dispatch for the pair: every data bucket of that grouping, in
    order. *)
Definition firstAgg (aggResp : AggregateQueryResponse)
    (queueID mediaType : string) : option AggregateResult :=
  find (fun result => groupIs (agg_Group result) queueID mediaType)
       (agg_Results aggResp).

Definition firstObs (obsResp : ObservationQueryResponse)
    (queueID mediaType : string) : option ObservationResult :=
  find (fun result => groupIs (obs_Group result) queueID mediaType)
       (obs_Results obsResp).

Definition usedAggMetrics (aggResp : AggregateQueryResponse)
    (queueID mediaType : string) : list MetricData :=
  match firstAgg aggResp queueID mediaType with
  | Some result => List.concat (map Metrics (agg_Data result))
  | None => []
  end.

Definition usedObsMetrics (obsResp : ObservationQueryResponse)
    (queueID mediaType : string) : list MetricData :=
  match firstObs obsResp queueID mediaType with
  | Some result => obs_Data result
  | None => []
  end.

Definition known (registry : list (string * Rule)) (metric : MetricData) : Prop :=
  lookup (Metric metric) registry <> None.

(** Every metric dispatched for the pair is in the registry of its
    response. *)
Definition Recognized (aggResp : AggregateQueryResponse)
    (obsResp : ObservationQueryResponse) (key : string * string) : Prop :=
  Forall (known aggRegistry) (usedAggMetrics aggResp (fst key) (snd key)) /\
  Forall (known obsRegistry) (usedObsMetrics obsResp (fst key) (snd key)).

(** [m] is the first metric dispatched for the pair that is outside the
    switch of its response: the aggregate metrics of the pair come first, in
    response order across the data buckets, and the observation metrics
    after them; every metric dispatched before [m] is recognized. *)
Definition FirstUnrecognized (aggResp : AggregateQueryResponse)
    (obsResp : ObservationQueryResponse) (key : string * string)
    (m : MetricData) : Prop :=
  (exists earlier later,
     usedAggMetrics aggResp (fst key) (snd key) = earlier ++ m :: later /\
     Forall (known aggRegistry) earlier /\
     lookup (Metric m) aggRegistry = None) \/
  (Forall (known aggRegistry) (usedAggMetrics aggResp (fst key) (snd key)) /\
   exists earlier later,
     usedObsMetrics obsResp (fst key) (snd key) = earlier ++ m :: later /\
     Forall (known obsRegistry) earlier /\
     lookup (Metric m) obsRegistry = None).

(** The variables of a pair whose metrics are all recognized, and its UPDATE. *)
Definition rowOf (aggResp : AggregateQueryResponse)
    (obsResp : ObservationQueryResponse) (key : string * string) : Locals :=
  match reconcileKey aggResp obsResp (fst key) (snd key) with
  | Ok l => l
  | Panic _ => zeroLocals
  end.

Definition updateOf (aggResp : AggregateQueryResponse)
    (obsResp : ObservationQueryResponse) (key : string * string) : SqlStmt :=
  UpdateRow queueStatsTable (rowOf aggResp obsResp key) (fst key) (snd key).

(** The statements of a trace, and the keys of its UPDATEs. *)
Definition execsOf (tr : list Event) : list SqlStmt :=
  flat_map (fun ev => match ev with DbExec stmt => [ stmt ] | _ => [] end) tr.

Definition keyOf (stmt : SqlStmt) : option (string * string) :=
  match stmt with
  | UpdateRow _ _ queueID mediaType => Some (queueID, mediaType)
  | _ => None
  end.

(** The events of a pair whose UPDATE succeeds. *)
Definition updateEvents (aggResp : AggregateQueryResponse)
    (obsResp : ObservationQueryResponse) (key : string * string) : list Event :=
  [ Printed (OutStats (fst key) (snd key) (rowOf aggResp obsResp key));
    DbExec (updateOf aggResp obsResp key) ].

(** No UPDATE of the keys fails, each run after the ones before it. *)
Definition WritesSucceed (env : Env) (aggResp : AggregateQueryResponse)
    (obsResp : ObservationQueryResponse) (done : list SqlStmt)
    (keys : list (string * string)) : Prop :=
  forall before key after,
    keys = before ++ key :: after ->
    Exec env (done ++ map (updateOf aggResp obsResp) before)
         (updateOf aggResp obsResp key) = None.

(** The events up to the first UPDATE when both queries are answered. *)
Definition queryEvents (cfg : AppConfig) (env : Env)
    (startInterval endInterval : Time) : list Event :=
  let q := aggQuery cfg env startInterval endInterval in
  [ Printed (OutQuerying (Format env startInterval));
    AggregateQuerySent q; ObservationQuerySent (obsQuery q) ].

(** Both queries of the cycle are answered, with these responses. *)
Definition Answered (cfg : AppConfig) (env : Env)
    (startInterval endInterval : Time) (aggResp : AggregateQueryResponse)
    (obsResp : ObservationQueryResponse) : Prop :=
  let q := aggQuery cfg env startInterval endInterval in
  QueryConversationAggregates env q = inl aggResp /\
  QueryQueueObservations env (obsQuery q) = inl obsResp.

(** Whether [startGrabbingPureCloudStats] has been reached. *)
Definition loopStarted (tr : list Event) : bool :=
  existsb (fun ev => match ev with TickerStarted _ => true | _ => false end) tr.

(** A configuration with another granularity token, and a query with
    another granularity field. *)
Definition withGranularity (g : string) (cfg : AppConfig) : AppConfig :=
  {| PureCloudRegion := PureCloudRegion cfg;
     PureCloudClientID := PureCloudClientID cfg;
     PureCloudClientSecret := PureCloudClientSecret cfg;
     cfg_Granularity := g;
     PollFrequencySeconds := PollFrequencySeconds cfg;
     Queues := Queues cfg;
     Agents := Agents cfg;
     OdbcDsn := OdbcDsn cfg |}.

Definition setGranularity (g : string) (q : AggregationQuery) : AggregationQuery :=
  {| Interval := Interval q; Granularity := g; GroupBy := GroupBy q;
     agg_Filter := agg_Filter q |}.

(** [queueNames[queueID]] for the map built from the listed entities: the
    name of the last entity of that ID, the empty string without one. *)
Definition queueName (entities : list (string * string)) (queueID : string)
    : string :=
  match lookup queueID (rev entities) with
  | Some n => n
  | None => EmptyString
  end.

(** ** The columns of the table and of the UPDATE *)

Inductive SqlType :=
| VARCHAR (n : nat)
| SqlFloat
| SqlInt.

(** Lines 178-194: the columns of CREATE TABLE, in order. *)
Definition createColumns : list (string * SqlType) :=
  [
    ("QueueID", VARCHAR 50); ("QueueName", VARCHAR 100);
    ("MediaType", VARCHAR 10); ("oServiceTarget", SqlFloat);
    ("oServiceLevel", SqlFloat); ("oInteracting", SqlInt);
    ("oWaiting", SqlInt); ("nError", SqlInt); ("nOffered", SqlInt);
    ("nOutboundAbandoned", SqlInt); ("nOutboundAttempted", SqlInt);
    ("nOutboundConnected", SqlInt); ("nTransferred", SqlInt);
    ("nOverSla", SqlInt); ("tAbandon", SqlFloat); ("mtAbandon", SqlFloat);
    ("nAbandon", SqlInt); ("tAcd", SqlFloat); ("mtAcd", SqlFloat);
    ("nAcd", SqlInt); ("tAcw", SqlFloat); ("mtAcw", SqlFloat);
    ("nAcw", SqlInt); ("tAgentResponseTime", SqlFloat);
    ("mtAgentResponseTime", SqlFloat); ("nAgentResponseTime", SqlInt);
    ("tAnswered", SqlFloat); ("mtAnswered", SqlFloat); ("nAnswered", SqlInt);
    ("tHandle", SqlFloat); ("mtHandle", SqlFloat); ("nHandle", SqlInt);
    ("tHeld", SqlFloat); ("mtHeld", SqlFloat); ("nHeld", SqlInt);
    ("tHeldComplete", SqlFloat); ("mtHeldComplete", SqlFloat);
    ("nHeldComplete", SqlInt); ("tIvr", SqlFloat); ("mtIvr", SqlFloat);
    ("nIvr", SqlInt); ("tTalk", SqlFloat); ("mtTalk", SqlFloat);
    ("nTalk", SqlInt); ("tTalkComplete", SqlFloat);
    ("mtTalkComplete", SqlFloat); ("nTalkComplete", SqlInt);
    ("tWait", SqlFloat); ("mtWait", SqlFloat); ("nWait", SqlInt);
    ("tUserResponseTime", SqlFloat); ("mtUserResponseTime", SqlFloat);
    ("nUserResponseTime", SqlInt) ].

(** The columns of the INSERT of line 203 and of the WHERE of line 352. *)
Definition insertColumns : list string := [ "QueueID"; "QueueName"; "MediaType" ].
Definition whereColumns : list string := [ "QueueID"; "MediaType" ].

(** The two verbs of the format string: [%d] and [%f]. *)
Inductive Verb :=
| VerbD
| VerbF.

(** Lines 347-351: the assignments [column = verb] of the format string. *)
Definition updateFormat : list (string * Verb) :=
  [
    ("nError", VerbD); ("oServiceLevel", VerbF); ("oServiceTarget", VerbF);
    ("oInteracting", VerbD); ("oWaiting", VerbD); ("nOffered", VerbD);
    ("nOutboundAbandoned", VerbD); ("nOutboundAttempted", VerbD);
    ("nOutboundConnected", VerbD); ("nTransferred", VerbD);
    ("nOverSla", VerbD); ("tAbandon", VerbF); ("mtAbandon", VerbF);
    ("nAbandon", VerbD); ("tAcd", VerbF); ("mtAcd", VerbF); ("nAcd", VerbD);
    ("tAcw", VerbF); ("mtAcw", VerbF); ("nAcw", VerbD);
    ("tAgentResponseTime", VerbF); ("mtAgentResponseTime", VerbF);
    ("nAgentResponseTime", VerbD); ("tAnswered", VerbF); ("mtAnswered", VerbF);
    ("nAnswered", VerbD); ("tHandle", VerbF); ("mtHandle", VerbF);
    ("nHandle", VerbD); ("tHeld", VerbF); ("mtHeld", VerbF); ("nHeld", VerbD);
    ("tHeldComplete", VerbF); ("mtHeldComplete", VerbF);
    ("nHeldComplete", VerbD); ("tIvr", VerbF); ("mtIvr", VerbF);
    ("nIvr", VerbD); ("tTalk", VerbF); ("mtTalk", VerbF); ("nTalk", VerbD);
    ("tTalkComplete", VerbF); ("mtTalkComplete", VerbF);
    ("nTalkComplete", VerbD); ("tUserResponseTime", VerbF);
    ("mtUserResponseTime", VerbF); ("nUserResponseTime", VerbD);
    ("tWait", VerbF); ("mtWait", VerbF); ("nWait", VerbD) ].

Inductive Arg :=
| IntArg (v : IntVar)
| FloatArg (v : FloatVar).

(** Lines 354-358: the arguments of [fmt.Sprintf] between the table name
    and the key. *)
Definition updateArgs : list Arg :=
  [
    IntArg nError; FloatArg oServiceLevel; FloatArg oServiceTarget;
    IntArg oInteracting; IntArg oWaiting; IntArg nOffered;
    IntArg nOutboundAbandoned; IntArg nOutboundAttempted;
    IntArg nOutboundConnected; IntArg nTransferred; IntArg nOverSLA;
    FloatArg tAbandon; FloatArg mtAbandon; IntArg nAbandon; FloatArg tAcd;
    FloatArg mtAcd; IntArg nAcd; FloatArg tAcw; FloatArg mtAcw; IntArg nAcw;
    FloatArg tAgentResponseTime; FloatArg mtAgentResponseTime;
    IntArg nAgentResponseTime; FloatArg tAnswered; FloatArg mtAnswered;
    IntArg nAnswered; FloatArg tHandle; FloatArg mtHandle; IntArg nHandle;
    FloatArg tHeld; FloatArg mtHeld; IntArg nHeld; FloatArg tHeldComplete;
    FloatArg mtHeldComplete; IntArg nHeldComplete; FloatArg tIvr;
    FloatArg mtIvr; IntArg nIvr; FloatArg tTalk; FloatArg mtTalk; IntArg nTalk;
    FloatArg tTalkComplete; FloatArg mtTalkComplete; IntArg nTalkComplete;
    FloatArg tUserResponseTime; FloatArg mtUserResponseTime;
    IntArg nUserResponseTime; FloatArg tWait; FloatArg mtWait; IntArg nWait ].

Inductive SqlValue :=
| SqlIntValue (x : Z)
| SqlFloatValue (x : float).

Definition argValue (l : Locals) (a : Arg) : SqlValue :=
  match a with
  | IntArg v => SqlIntValue (ints l v)
  | FloatArg v => SqlFloatValue (floats l v)
  end.

Definition fits (verb : Verb) (x : SqlValue) : bool :=
  match verb, x with
  | VerbD, SqlIntValue _ => true
  | VerbF, SqlFloatValue _ => true
  | _, _ => false
  end.

(** [fmt.Sprintf] takes the arguments in order, one per verb: [None] stands
    for the text it writes in place of a number when an argument is missing
    or of a type the verb does not print. *)
Fixpoint sprintfSet (format : list (string * Verb)) (args : list SqlValue)
    : list (string * option SqlValue) :=
  match format with
  | [] => []
  | (column, verb) :: format' =>
      match args with
      | [] => (column, None) :: sprintfSet format' []
      | x :: args' =>
          (column, if fits verb x then Some x else None)
            :: sprintfSet format' args'
      end
  end.

(** The SET clause of the UPDATE of one pair. *)
Definition setClause (l : Locals) : list (string * option SqlValue) :=
  sprintfSet updateFormat (map (argValue l) updateArgs).

(** The naming of the columns after the metrics: a metric is stored under
    its own name, and a duration triplet also under the name with [m] in
    front (its max) and the name with [n] in place of its first letter (its
    count). *)
Definition expectedAssignments (name : string) (r : Rule)
    : list (string * Arg) :=
  match r with
  | Counter n => [ (name, IntArg n) ]
  | Triplet total max n =>
      [ (name, FloatArg total); (("m" ++ name)%string, FloatArg max);
        (("n" ++ substring 1 (String.length name) name)%string, IntArg n) ]
  | RatioGauge v => [ (name, FloatArg v) ]
  | CurrentGauge v => [ (name, FloatArg v) ]
  | Ignored => []
  end.

(** ** Counting and selecting events *)

Definition isAggregateQuery (ev : Event) : bool :=
  match ev with AggregateQuerySent _ => true | _ => false end.

Definition isQuery (ev : Event) : bool :=
  match ev with
  | AggregateQuerySent _ | ObservationQuerySent _ => true
  | _ => false
  end.

(** The event touches neither the provider nor the table: it is a line of
    output or the start of the ticker. *)
Definition isQuiet (ev : Event) : bool :=
  match ev with
  | Printed _ | TickerStarted _ => true
  | _ => false
  end.

(** A response cut down to the groupings of one pair. *)
Definition aggOnly (aggResp : AggregateQueryResponse) (queueID mediaType : string)
    : AggregateQueryResponse :=
  {| agg_Results :=
       filter (fun result => groupIs (agg_Group result) queueID mediaType)
              (agg_Results aggResp) |}.

Definition obsOnly (obsResp : ObservationQueryResponse) (queueID mediaType : string)
    : ObservationQueryResponse :=
  {| obs_Results :=
       filter (fun result => groupIs (obs_Group result) queueID mediaType)
              (obs_Results obsResp) |}.

(** The statistic the last of the metrics writes to a variable, if any
    writes it. *)
Definition lastInt (registry : list (string * Rule)) (ms : list MetricData)
    (v : IntVar) : option Z :=
  fold_left
    (fun acc m =>
       match lookup (Metric m) registry with
       | Some r =>
           match find (fun w => if IntVar_eq_dec (fst w) v then true else false)
                      (intWrites r (Stats m)) with
           | Some w => Some (snd w)
           | None => acc
           end
       | None => acc
       end) ms None.

Definition lastFloat (registry : list (string * Rule)) (ms : list MetricData)
    (v : FloatVar) : option float :=
  fold_left
    (fun acc m =>
       match lookup (Metric m) registry with
       | Some r =>
           match find (fun w => if FloatVar_eq_dec (fst w) v then true else false)
                      (floatWrites r (Stats m)) with
           | Some w => Some (snd w)
           | None => acc
           end
       | None => acc
       end) ms None.

(** A start-up that differs in the outcome of DROP TABLE only. *)
Definition withDropOutcome (outcome : option string) (st : Startup) : Startup :=
  {| os_Args := os_Args st;
     ReadFile := ReadFile st;
     Decode := Decode st;
     sql_Open := sql_Open st;
     db_Ping := db_Ping st;
     LoginWithClientCredentials := LoginWithClientCredentials st;
     GetListOfQueues := GetListOfQueues st;
     startupExec := fun stmt =>
       match stmt with
       | DropTable _ => outcome
       | _ => startupExec st stmt
       end |}.

(** An event of the update loop: a line of output or an UPDATE of the
    table. *)
Definition isUpdateEvent (ev : Event) : bool :=
  match ev with
  | Printed _ => true
  | DbExec (UpdateRow _ _ _ _) => true
  | _ => false
  end.

(** An event of start-up before the ticker: a line of output or a statement
    other than an UPDATE. *)
Definition isStartupEvent (ev : Event) : bool :=
  match ev with
  | Printed _ => true
  | DbExec (UpdateRow _ _ _ _) => false
  | DbExec _ => true
  | _ => false
  end.

(** The INSERT that seeds the row of a pair, named from the listed queues. *)
Definition insertOf (entities : list (string * string)) (key : string * string)
    : SqlStmt :=
  InsertRow queueStatsTable (fst key) (queueName entities (fst key)) (snd key).

(** The column type a verb writes a number for. *)
Definition verbType (verb : Verb) : SqlType :=
  match verb with
  | VerbD => SqlInt
  | VerbF => SqlFloat
  end.

Definition SqlType_eq_dec (a b : SqlType) : {a = b} + {a <> b}.
Proof. decide equality. apply Nat.eq_dec. Defined.

Definition Arg_eq_dec (a b : Arg) : {a = b} + {a <> b}.
Proof. decide equality; [apply IntVar_eq_dec|apply FloatVar_eq_dec]. Defined.

Definition column_eq_dec (a b : string * SqlType) : {a = b} + {a <> b}.
Proof. decide equality; [apply SqlType_eq_dec|apply string_dec]. Defined.

Definition assignment_eq_dec (a b : string * Arg) : {a = b} + {a <> b}.
Proof. decide equality; [apply Arg_eq_dec|apply string_dec]. Defined.

(** The assignments of the SET clause: each column with the variable whose
    value [fmt.Sprintf] writes for it. *)
Definition assignments : list (string * Arg) :=
  combine (map fst updateFormat) updateArgs.

(** The columns of the table after the three of the key and the name. *)
Definition statColumns : list (string * SqlType) := skipn 3 createColumns.

(** A list is included in another, decided by computation. *)
Definition inclb {A : Type} (dec : forall x y : A, {x = y} + {x <> y})
    (l1 l2 : list A) : bool :=
  forallb (fun x => if in_dec dec x l2 then true else false) l1.

(** ** Concrete inputs *)

Definition formatNanoseconds (x : Time) : string :=
  NilZero.string_of_int (Z.to_int x).

Definition countOnly (name : string) (count : Z) : MetricData :=
  {| Metric := name;
     Stats := {| Count := count; Sum := 0; Max := 0; Ratio := 0; Current := 0 |} |}.

Definition groupOf (queueID mediaType : string) : Group :=
  {| QueueID := queueID; MediaType := mediaType |}.

Definition aggOf (queueID mediaType : string) (buckets : list (list MetricData))
    : AggregateResult :=
  {| agg_Group := groupOf queueID mediaType;
     agg_Data := map (fun ms => {| Metrics := ms |}) buckets |}.

Definition obsOf (queueID mediaType : string) (ms : list MetricData)
    : ObservationResult :=
  {| obs_Group := groupOf queueID mediaType; obs_Data := ms |}.

Definition noAgg : AggregateQueryResponse := {| agg_Results := [] |}.
Definition noObs : ObservationQueryResponse := {| obs_Results := [] |}.

(** A provider that answers every query with the given responses and a
    database on which no statement fails. *)
Definition envOf (aggResp : AggregateQueryResponse)
    (obsResp : ObservationQueryResponse) : Env :=
  {| Format := formatNanoseconds;
     QueryConversationAggregates := fun _ => inl aggResp;
     QueryQueueObservations := fun _ => inl obsResp;
     Exec := fun _ _ => None |}.

Definition tickAt (now : Time) (env : Env) : Tick :=
  {| t := now; Now := now; tickEnv := env |}.

Definition configOf (granularity : string) (seconds : Q) (queues : list string)
    : AppConfig :=
  {| PureCloudRegion := "mypurecloud.com.au"; PureCloudClientID := "id";
     PureCloudClientSecret := "secret"; cfg_Granularity := granularity;
     PollFrequencySeconds := seconds; Queues := queues; Agents := [];
     OdbcDsn := "wallboard" |}.

Definition configQ1 : AppConfig := configOf "PT30M" 10 [ "Q1" ].

(** A start-up in which the file named on the command line decodes to the
    given configuration and every later step succeeds. *)
Definition startupOf (cfg : AppConfig) : Startup :=
  {| os_Args := [ "purecloud2odbc"; "config.json" ];
     ReadFile := fun _ => inl "{}";
     Decode := fun _ => (cfg, None);
     sql_Open := fun _ => None;
     db_Ping := None;
     LoginWithClientCredentials := fun _ _ _ => None;
     GetListOfQueues := inl [ ("Q1", "Sales") ];
     startupExec := fun _ => None |}.

(** An aggregate response whose grouping for (Q1, voice) carries a metric
    name outside the switch. *)
Definition unseenAgg : AggregateQueryResponse :=
  {| agg_Results := [ aggOf "Q1" "voice" [ [ countOnly "nBlindTransferred" 1 ] ] ] |}.

Definition offeredAgg : AggregateQueryResponse :=
  {| agg_Results := [ aggOf "Q1" "voice" [ [ countOnly "nOffered" 4 ] ] ] |}.

(** Two ticks ten seconds apart: the first cycle meets the unseen metric,
    the second would have been answered with recognized metrics only. *)
Definition unseenThenFine : list Tick :=
  [ tickAt (5000 * Second) (envOf unseenAgg noObs);
    tickAt (5010 * Second) (envOf offeredAgg noObs) ].

(** A database on which the UPDATE of every voice row fails. *)
Definition voiceFails (aggResp : AggregateQueryResponse)
    (obsResp : ObservationQueryResponse) : Env :=
  {| Format := formatNanoseconds;
     QueryConversationAggregates := fun _ => inl aggResp;
     QueryQueueObservations := fun _ => inl obsResp;
     Exec := fun _ stmt =>
       match keyOf stmt with
       | Some (_, mediaType) =>
           if (mediaType =? "voice")%string then Some "write failed" else None
       | None => None
       end |}.

(** An observation response that carries, for (Q1, chat), a metric name the
    aggregate switch knows and the observation switch does not. *)
Definition offeredObs : ObservationQueryResponse :=
  {| obs_Results := [ obsOf "Q1" "chat" [ countOnly "nOffered" 4 ] ] |}.

Definition waitingObs : ObservationQueryResponse :=
  {| obs_Results := [ obsOf "Q1" "voice" [ countOnly "oWaiting" 2 ] ] |}.

(** The scenario of the specification: one metric [tAnswered] with sum 300,
    max 120 and count 5 for (Q1, voice). *)
Definition answeredStats : StatisticalSummary :=
  {| Count := 5; Sum := 300; Max := 120; Ratio := 0; Current := 0 |}.

Definition answeredAgg : AggregateQueryResponse :=
  {| agg_Results :=
       [ aggOf "Q1" "voice" [ [ {| Metric := "tAnswered"; Stats := answeredStats |} ] ] ] |}.

(** A poll frequency of sixty and a half seconds. *)
Definition config60_5 : AppConfig := configOf "PT30M" (121 # 2) [ "Q1" ].

(** A grouping of two data buckets that both name [nOffered], and the same
    grouping cut down to its first bucket. *)
Definition twoBuckets : AggregateQueryResponse :=
  {| agg_Results :=
       [ aggOf "Q1" "voice" [ [ countOnly "nOffered" 1 ]; [ countOnly "nOffered" 2 ] ] ] |}.

Definition firstBucketOnly : AggregateQueryResponse :=
  {| agg_Results := [ aggOf "Q1" "voice" [ [ countOnly "nOffered" 1 ] ] ] |}.

(** Responses in which (Q1, voice) has two groupings. *)
Definition duplicateAgg : list AggregateResult :=
  [ aggOf "Q1" "chat" [ [ countOnly "nOffered" 9 ] ];
    aggOf "Q1" "voice" [ [ countOnly "nOffered" 1 ] ];
    aggOf "Q1" "voice" [ [ countOnly "nOffered" 2; countOnly "nUnknown" 3 ] ] ].

Definition duplicateObs : list ObservationResult :=
  [ obsOf "Q1" "voice" [ countOnly "oWaiting" 1 ];
    obsOf "Q1" "voice" [ countOnly "oWaiting" 2 ] ].

Definition configQ123 : AppConfig := configOf "PT30M" 10 [ "Q1"; "Q2"; "Q3" ].

Definition config60M : AppConfig := withGranularity "PT60M" configQ1.
Definition config1H : AppConfig := withGranularity "PT1H" configQ1.

(** A provider that knows the sixty-minute granularity by one spelling only. *)
Definition envPT60MOnly : Env :=
  {| Format := formatNanoseconds;
     QueryConversationAggregates := fun q =>
       if (Granularity q =? "PT60M")%string then inl noAgg
       else inr "unsupported granularity";
     QueryQueueObservations := fun _ => inl noObs;
     Exec := fun _ _ => None |}.

(** A provider that answers no aggregate query. *)
Definition providerDown : Env :=
  {| Format := formatNanoseconds;
     QueryConversationAggregates := fun _ => inr "503 Service Unavailable";
     QueryQueueObservations := fun _ => inl noObs;
     Exec := fun _ _ => None |}.

(** A start-up on which the INSERT of every chat row fails. *)
Definition chatInsertFails : Startup :=
  {| os_Args := [ "purecloud2odbc"; "config.json" ];
     ReadFile := fun _ => inl "{}";
     Decode := fun _ => (configQ1, None);
     sql_Open := fun _ => None;
     db_Ping := None;
     LoginWithClientCredentials := fun _ _ _ => None;
     GetListOfQueues := inl [ ("Q1", "Sales") ];
     startupExec := fun stmt =>
       match stmt with
       | InsertRow _ _ _ mediaType =>
           if (mediaType =? "chat")%string then Some "disk full" else None
       | _ => None
       end |}.

(** Responses in which (Q1, voice) is fine and (Q1, chat) has, after a
    recognized metric, two metric names outside the aggregate switch, in two
    data buckets, and one outside the observation switch. *)
Definition twoUnseenAgg : AggregateQueryResponse :=
  {| agg_Results :=
       [ aggOf "Q1" "voice" [ [ countOnly "nOffered" 4 ] ];
         aggOf "Q1" "chat"
           [ [ countOnly "nOffered" 1; countOnly "nFlowOut" 2 ];
             [ countOnly "nBlindTransferred" 3 ] ] ] |}.

Definition unseenObs : ObservationQueryResponse :=
  {| obs_Results := [ obsOf "Q1" "chat" [ countOnly "oOnQueueUsers" 5 ] ] |}.

(** Three ticks ten seconds apart: the first cycle is answered with
    recognized metrics only, the second meets unseen metrics at (Q1, chat),
    the third would have been fine again. *)
Definition fineThenUnseen : list Tick :=
  [ tickAt (5000 * Second) (envOf offeredAgg noObs);
    tickAt (5010 * Second) (envOf twoUnseenAgg unseenObs);
    tickAt (5020 * Second) (envOf offeredAgg noObs) ].

(** A start-up whose listing names the queue Q1 twice, with two names. *)
Definition relistedQueues : Startup :=
  {| os_Args := [ "purecloud2odbc"; "config.json" ];
     ReadFile := fun _ => inl "{}";
     Decode := fun _ => (configQ1, None);
     sql_Open := fun _ => None;
     db_Ping := None;
     LoginWithClientCredentials := fun _ _ _ => None;
     GetListOfQueues :=
       inl [ ("Q1", "Sales"); ("Q2", "Support"); ("Q1", "Sales EMEA") ];
     startupExec := fun _ => None |}.

(** * Properties *)

(** Case analysis along a chain of comparisons of [name] with string
    literals, as the switches and the map lookups unfold to: [tac] closes the
    case of each literal, and the goal that remains is the default case. *)
Ltac each_name name tac :=
  repeat match goal with
         | |- context [if String.eqb ?x ?literal then _ else _] =>
             constr_eq x name; destruct (String.eqb x literal); [tac|]
         end.

(** ** The interval clock *)

Lemma supportedGranularity_values (g : string) (d : Duration) :
  lookup g supportedGranularity = Some d ->
  d = 30 * Minute \/ d = 60 * Minute.
Proof.
  unfold supportedGranularity; cbn [lookup].
  each_name g ltac:(intros [= <-]; auto).
  discriminate.
Qed.

Lemma Truncate_spec (t : Time) (d : Duration) :
  0 < d ->
  Truncate t d = d * (t / d) /\ Truncate t d <= t < Truncate t d + d.
Proof.
  intros Hd. unfold Truncate.
  destruct (Z.leb_spec d 0) as [Hle|_]; [lia|].
  pose proof (Z.div_mod t d ltac:(lia)) as Hdm.
  pose proof (Z.mod_pos_bound t d Hd) as Hb.
  split; lia.
Qed.

(** C4: for every instant [now] and every supported granularity (the
    duration [g] of a token of [supportedGranularity], which is 30 or 60
    minutes), the interval of the tick starts at [now] rounded down to a
    multiple of [g] counted from the zero time, contains [now], and ends
    exactly [g] later. *)
Theorem C4_interval_aligned (cfg : AppConfig) (now : Time) (g : Duration) :
  lookup (cfg_Granularity cfg) supportedGranularity = Some g ->
  let (startInterval, endInterval) := currentInterval cfg now in
  (g = 30 * Minute \/ g = 60 * Minute) /\
  startInterval = g * (now / g) /\
  startInterval mod g = 0 /\
  startInterval <= now < startInterval + g /\
  endInterval = startInterval + g /\
  endInterval - startInterval = g.
Proof.
  intros Hg. unfold currentInterval, granularityDuration. rewrite Hg.
  pose proof (supportedGranularity_values _ _ Hg) as Hv.
  assert (Hpos : 0 < g) by (destruct Hv; subst g; reflexivity).
  destruct (Truncate_spec now g Hpos) as [Heq Hb].
  repeat split; try assumption; try (unfold Add; lia).
  - rewrite Heq, Z.mul_comm. apply Z.mod_mul. lia.
Qed.

Lemma C4_interval_aligned_witness :
  let (startInterval, endInterval) := currentInterval configQ1 (5000 * Second) in
  (30 * Minute = 30 * Minute \/ 30 * Minute = 60 * Minute) /\
  startInterval = 30 * Minute * (5000 * Second / (30 * Minute)) /\
  startInterval mod (30 * Minute) = 0 /\
  startInterval <= 5000 * Second < startInterval + 30 * Minute /\
  endInterval = startInterval + 30 * Minute /\
  endInterval - startInterval = 30 * Minute.
Proof.
  apply (C4_interval_aligned configQ1 (5000 * Second) (30 * Minute)).
  reflexivity.
Defined.

(** ** The switches against the registry *)

Lemma aggMetric_registry (metric : MetricData) (l : Locals) :
  aggMetric metric l = dispatchBy aggRegistry metric l.
Proof.
  unfold aggMetric, dispatchBy, aggRegistry. cbn [lookup].
  each_name (Metric metric) ltac:(reflexivity).
  reflexivity.
Qed.

Lemma obsMetric_registry (metric : MetricData) (l : Locals) :
  obsMetric metric l = dispatchBy obsRegistry metric l.
Proof.
  unfold obsMetric, dispatchBy, obsRegistry. cbn [lookup].
  each_name (Metric metric) ltac:(reflexivity).
  reflexivity.
Qed.

(** ** The loops over metrics, buckets and results *)

Lemma forMetrics_app dispatch (ms1 ms2 : list MetricData) (l : Locals) :
  forMetrics dispatch (ms1 ++ ms2) l =
  bind (forMetrics dispatch ms1 l) (forMetrics dispatch ms2).
Proof.
  revert l. induction ms1 as [|m ms1 IH]; intros l; cbn [forMetrics app bind].
  - reflexivity.
  - destruct (dispatch m l) as [l'|msg]; cbn [bind]; [apply IH|reflexivity].
Qed.

Lemma forData_concat (data : list AggregateData) (l : Locals) :
  forData data l = forMetrics aggMetric (List.concat (map Metrics data)) l.
Proof.
  revert l. induction data as [|d data IH]; intros l; cbn [forData map List.concat].
  - reflexivity.
  - rewrite forMetrics_app.
    destruct (forMetrics aggMetric (Metrics d) l); cbn [bind]; [apply IH|reflexivity].
Qed.

Lemma forData_app (data1 data2 : list AggregateData) (l : Locals) :
  forData (data1 ++ data2) l = bind (forData data1 l) (forData data2).
Proof.
  rewrite !forData_concat, map_app, concat_app, forMetrics_app.
  destruct (forMetrics aggMetric (List.concat (map Metrics data1)) l);
    cbn [bind]; [symmetry; apply forData_concat|reflexivity].
Qed.

Lemma scanAggResults_used (aggResp : AggregateQueryResponse)
    (queueID mediaType : string) (l : Locals) :
  scanAggResults (agg_Results aggResp) queueID mediaType l =
  forMetrics aggMetric (usedAggMetrics aggResp queueID mediaType) l.
Proof.
  unfold usedAggMetrics, firstAgg.
  induction (agg_Results aggResp) as [|result rest IH]; cbn [scanAggResults find].
  - reflexivity.
  - destruct (groupIs (agg_Group result) queueID mediaType);
      [apply forData_concat|exact IH].
Qed.

Lemma scanObsResults_used (obsResp : ObservationQueryResponse)
    (queueID mediaType : string) (l : Locals) :
  scanObsResults (obs_Results obsResp) queueID mediaType l =
  forMetrics obsMetric (usedObsMetrics obsResp queueID mediaType) l.
Proof.
  unfold usedObsMetrics, firstObs.
  induction (obs_Results obsResp) as [|result rest IH]; cbn [scanObsResults find].
  - reflexivity.
  - destruct (groupIs (obs_Group result) queueID mediaType);
      [reflexivity|exact IH].
Qed.

Lemma reconcileKey_used aggResp obsResp (queueID mediaType : string) :
  reconcileKey aggResp obsResp queueID mediaType =
  bind (forMetrics aggMetric (usedAggMetrics aggResp queueID mediaType) zeroLocals)
       (forMetrics obsMetric (usedObsMetrics obsResp queueID mediaType)).
Proof.
  unfold reconcileKey. rewrite scanAggResults_used.
  destruct (forMetrics aggMetric _ zeroLocals); cbn [bind];
    [apply scanObsResults_used|reflexivity].
Qed.

(** ** Recognized and unrecognized metrics *)

Section Dispatch.

Variable registry : list (string * Rule).
Variable dispatch : MetricData -> Locals -> Res Locals.
Hypothesis dispatch_registry :
  forall metric l, dispatch metric l = dispatchBy registry metric l.

Lemma forMetrics_known (ms : list MetricData) (l : Locals) :
  Forall (known registry) ms ->
  forMetrics dispatch ms l = Ok (fold_left (applyKnown registry) ms l).
Proof.
  intros H. revert l. induction H as [|m ms Hm _ IH]; intros l;
    cbn [forMetrics fold_left].
  - reflexivity.
  - rewrite dispatch_registry. unfold dispatchBy, applyKnown, known in *.
    destruct (lookup (Metric m) registry); [cbn [bind]; apply IH|congruence].
Qed.

Lemma forMetrics_unknown (before after : list MetricData) (m : MetricData)
    (l : Locals) :
  Forall (known registry) before ->
  lookup (Metric m) registry = None ->
  forMetrics dispatch (before ++ m :: after) l =
  Panic ("Unrecognized metric " ++ Metric m)%string.
Proof.
  intros Hb Hm. rewrite forMetrics_app, (forMetrics_known _ _ Hb).
  cbn [bind forMetrics]. rewrite dispatch_registry. unfold dispatchBy.
  rewrite Hm. reflexivity.
Qed.

(** The metrics are all known, or there is a first unknown one. *)
Lemma known_or_first_unknown (ms : list MetricData) :
  Forall (known registry) ms \/
  exists before m after,
    ms = before ++ m :: after /\ Forall (known registry) before /\
    lookup (Metric m) registry = None.
Proof.
  induction ms as [|m ms IH].
  - left. constructor.
  - destruct (lookup (Metric m) registry) as [r|] eqn:Hm.
    + destruct IH as [IH|(before & x & after & -> & Hb & Hx)].
      * left. constructor; [unfold known; congruence|exact IH].
      * right. exists (m :: before), x, after. repeat split; [|exact Hx].
        constructor; [unfold known; congruence|exact Hb].
    + right. exists [], m, ms. repeat split; [constructor|exact Hm].
Qed.

Lemma forMetrics_Ok_known (ms : list MetricData) (l l' : Locals) :
  forMetrics dispatch ms l = Ok l' -> Forall (known registry) ms.
Proof.
  intros H. destruct (known_or_first_unknown ms)
    as [Hk|(before & m & after & -> & Hb & Hm)]; [exact Hk|].
  rewrite (forMetrics_unknown _ _ _ _ Hb Hm) in H. discriminate.
Qed.

End Dispatch.

Lemma reconcileKey_recognized aggResp obsResp (key : string * string) :
  Recognized aggResp obsResp key ->
  reconcileKey aggResp obsResp (fst key) (snd key) =
  Ok (fold_left (applyKnown obsRegistry)
        (usedObsMetrics obsResp (fst key) (snd key))
        (fold_left (applyKnown aggRegistry)
           (usedAggMetrics aggResp (fst key) (snd key)) zeroLocals)).
Proof.
  intros [Ha Ho]. rewrite reconcileKey_used.
  rewrite (forMetrics_known _ _ aggMetric_registry _ _ Ha). cbn [bind].
  apply (forMetrics_known _ _ obsMetric_registry _ _ Ho).
Qed.

Lemma reconcileKey_rowOf aggResp obsResp (key : string * string) :
  Recognized aggResp obsResp key ->
  reconcileKey aggResp obsResp (fst key) (snd key) =
  Ok (rowOf aggResp obsResp key).
Proof.
  intros H. unfold rowOf. rewrite (reconcileKey_recognized _ _ _ H). reflexivity.
Qed.

Lemma reconcileKey_Ok_recognized aggResp obsResp (key : string * string) l :
  reconcileKey aggResp obsResp (fst key) (snd key) = Ok l ->
  Recognized aggResp obsResp key.
Proof.
  rewrite reconcileKey_used. intros H.
  destruct (forMetrics aggMetric _ zeroLocals) as [la|] eqn:Ha; [|discriminate].
  cbn [bind] in H. split.
  - exact (forMetrics_Ok_known _ _ aggMetric_registry _ _ _ Ha).
  - exact (forMetrics_Ok_known _ _ obsMetric_registry _ _ _ H).
Qed.

(** ** Where the value of a variable comes from *)

Lemma setInts_ints (ws : list (IntVar * Z)) (l : Locals) (v : IntVar) :
  let l' := fold_left (fun l w => setInt (fst w) (snd w) l) ws l in
  ints l' v = ints l v \/ In (v, ints l' v) ws.
Proof.
  revert l. induction ws as [|[v0 x0] ws IH]; intros l; cbv zeta;
    cbn [fold_left fst snd].
  - left. reflexivity.
  - specialize (IH (setInt v0 x0 l)). cbv zeta in IH.
    destruct IH as [H|H]; [|right; right; exact H].
    rewrite H. cbn [setInt ints].
    destruct (IntVar_eq_dec v v0) as [->|_]; [right; left|left]; reflexivity.
Qed.

Lemma setInts_floats (ws : list (IntVar * Z)) (l : Locals) :
  floats (fold_left (fun l w => setInt (fst w) (snd w) l) ws l) = floats l.
Proof.
  revert l. induction ws as [|w ws IH]; intros l; cbn [fold_left];
    [reflexivity|rewrite IH; reflexivity].
Qed.

Lemma setFloats_floats (ws : list (FloatVar * float)) (l : Locals) (v : FloatVar) :
  let l' := fold_left (fun l w => setFloat (fst w) (snd w) l) ws l in
  floats l' v = floats l v \/ In (v, floats l' v) ws.
Proof.
  revert l. induction ws as [|[v0 x0] ws IH]; intros l; cbv zeta;
    cbn [fold_left fst snd].
  - left. reflexivity.
  - specialize (IH (setFloat v0 x0 l)). cbv zeta in IH.
    destruct IH as [H|H]; [|right; right; exact H].
    rewrite H. cbn [setFloat floats].
    destruct (FloatVar_eq_dec v v0) as [->|_]; [right; left|left]; reflexivity.
Qed.

Lemma setFloats_ints (ws : list (FloatVar * float)) (l : Locals) :
  ints (fold_left (fun l w => setFloat (fst w) (snd w) l) ws l) = ints l.
Proof.
  revert l. induction ws as [|w ws IH]; intros l; cbn [fold_left];
    [reflexivity|rewrite IH; reflexivity].
Qed.

Lemma applyRule_ints (r : Rule) (s : StatisticalSummary) (l : Locals) (v : IntVar) :
  ints (applyRule r s l) v = ints l v \/
  In (v, ints (applyRule r s l) v) (intWrites r s).
Proof.
  unfold applyRule.
  destruct (setInts_ints (intWrites r s)
              (fold_left (fun l w => setFloat (fst w) (snd w) l) (floatWrites r s) l) v)
    as [H|H]; [left|right; exact H].
  rewrite H, setFloats_ints. reflexivity.
Qed.

Lemma applyRule_floats (r : Rule) (s : StatisticalSummary) (l : Locals)
    (v : FloatVar) :
  floats (applyRule r s l) v = floats l v \/
  In (v, floats (applyRule r s l) v) (floatWrites r s).
Proof.
  unfold applyRule. rewrite setInts_floats. apply setFloats_floats.
Qed.

Lemma applyKnown_ints registry (ms : list MetricData) (l : Locals) (v : IntVar) :
  let l' := fold_left (applyKnown registry) ms l in
  ints l' v = ints l v \/ IntFrom registry ms v (ints l' v).
Proof.
  revert l. induction ms as [|m ms IH]; intros l; cbv zeta; cbn [fold_left].
  - left. reflexivity.
  - specialize (IH (applyKnown registry l m)). cbv zeta in IH.
    destruct IH as [H|(m' & r & Hin & Hr & Hw)].
    + rewrite H. unfold applyKnown.
      destruct (lookup (Metric m) registry) as [r|] eqn:Hr; [|left; reflexivity].
      destruct (applyRule_ints r (Stats m) l v) as [H'|H']; [left; exact H'|].
      right. exists m, r. repeat split; [left; reflexivity|exact Hr|exact H'].
    + right. exists m', r. repeat split; [right; exact Hin|exact Hr|exact Hw].
Qed.

Lemma applyKnown_floats registry (ms : list MetricData) (l : Locals)
    (v : FloatVar) :
  let l' := fold_left (applyKnown registry) ms l in
  floats l' v = floats l v \/ FloatFrom registry ms v (floats l' v).
Proof.
  revert l. induction ms as [|m ms IH]; intros l; cbv zeta; cbn [fold_left].
  - left. reflexivity.
  - specialize (IH (applyKnown registry l m)). cbv zeta in IH.
    destruct IH as [H|(m' & r & Hin & Hr & Hw)].
    + rewrite H. unfold applyKnown.
      destruct (lookup (Metric m) registry) as [r|] eqn:Hr; [|left; reflexivity].
      destruct (applyRule_floats r (Stats m) l v) as [H'|H']; [left; exact H'|].
      right. exists m, r. repeat split; [left; reflexivity|exact Hr|exact H'].
    + right. exists m', r. repeat split; [right; exact Hin|exact Hr|exact Hw].
Qed.

(** The observation registry writes [oInteracting] and [oWaiting] only. *)
Lemma obsRegistry_writes (name : string) (r : Rule) (s : StatisticalSummary) :
  lookup name obsRegistry = Some r ->
  floatWrites r s = [] /\
  forall v x, In (v, x) (intWrites r s) -> v = oInteracting \/ v = oWaiting.
Proof.
  unfold obsRegistry. cbn [lookup].
  each_name name
    ltac:(intros [= <-]; split; [reflexivity|];
          intros v x [[= <- _]|[]]; auto).
  discriminate.
Qed.

(** The aggregate registry never writes [oInteracting] or [oWaiting]. *)
Lemma aggRegistry_writes (name : string) (r : Rule) (s : StatisticalSummary) :
  lookup name aggRegistry = Some r ->
  forall v x, In (v, x) (intWrites r s) -> v <> oInteracting /\ v <> oWaiting.
Proof.
  unfold aggRegistry. cbn [lookup].
  each_name name
    ltac:(intros [= <-] v x Hin; cbn in Hin;
          repeat (destruct Hin as [[= <- _]|Hin]); try contradiction;
          split; discriminate).
  discriminate.
Qed.

(** ** The update loop *)

Lemma forRange_app {A : Type} (body : A -> list SqlStmt -> list Event * Flow)
    (xs ys : list A) (done : list SqlStmt) :
  forRange body (xs ++ ys) done =
  match forRange body xs done with
  | (tr, Next done') =>
      let (tr', f) := forRange body ys done' in (tr ++ tr', f)
  | (tr, Leave x) => (tr, Leave x)
  end.
Proof.
  revert done. induction xs as [|x xs IH]; intros done; cbn [forRange app].
  - destruct (forRange body ys done). reflexivity.
  - destruct (body x done) as [tr [d|e]]; [|reflexivity].
    rewrite IH. destruct (forRange body xs d) as [tr1 [d1|e1]]; [|reflexivity].
    destruct (forRange body ys d1) as [tr2 f]. rewrite app_assoc. reflexivity.
Qed.

Lemma forRange_map {A B : Type} (f : A -> B)
    (body : B -> list SqlStmt -> list Event * Flow) (xs : list A)
    (done : list SqlStmt) :
  forRange body (map f xs) done = forRange (fun x => body (f x)) xs done.
Proof.
  revert done. induction xs as [|x xs IH]; intros done; cbn [forRange map].
  - reflexivity.
  - destruct (body (f x) done) as [tr [d|e]]; [rewrite IH|]; reflexivity.
Qed.

(** The two nested loops visit the pairs of [trackedKeys] in order. *)
Lemma forRange_nested (body : string -> string -> list SqlStmt -> list Event * Flow)
    (queues mediaTypes : list string) (done : list SqlStmt) :
  forRange (fun queueID => forRange (body queueID) mediaTypes) queues done =
  forRange (fun key => body (fst key) (snd key))
    (flat_map (fun queueID => map (pair queueID) mediaTypes) queues) done.
Proof.
  revert done. induction queues as [|q queues IH]; intros done;
    cbn [forRange flat_map].
  - reflexivity.
  - rewrite forRange_app, forRange_map. cbn [fst snd].
    change (fun x : string => body q x) with (body q).
    destruct (forRange (body q) mediaTypes done) as [tr [d|e]];
      [rewrite IH|]; reflexivity.
Qed.

Section Cycle.

Variable env : Env.
Variable aggResp : AggregateQueryResponse.
Variable obsResp : ObservationQueryResponse.

Let body (key : string * string) : list SqlStmt -> list Event * Flow :=
  updateKey env aggResp obsResp (fst key) (snd key).

Lemma updateKey_ok (key : string * string) (done : list SqlStmt) :
  Recognized aggResp obsResp key ->
  Exec env done (updateOf aggResp obsResp key) = None ->
  body key done =
  (updateEvents aggResp obsResp key, Next (done ++ [ updateOf aggResp obsResp key ])).
Proof.
  intros Hr He. unfold body, updateKey.
  rewrite (reconcileKey_rowOf _ _ _ Hr).
  fold (updateOf aggResp obsResp key). rewrite He. reflexivity.
Qed.

Lemma updateKey_fails (key : string * string) (done : list SqlStmt) (err : string) :
  Recognized aggResp obsResp key ->
  Exec env done (updateOf aggResp obsResp key) = Some err ->
  body key done =
  (updateEvents aggResp obsResp key ++ [ Printed (OutError err) ],
   Leave (Returned (Some err))).
Proof.
  intros Hr He. unfold body, updateKey.
  rewrite (reconcileKey_rowOf _ _ _ Hr).
  fold (updateOf aggResp obsResp key). rewrite He. reflexivity.
Qed.

Lemma updateKey_panics (key : string * string) (done : list SqlStmt) (msg : string) :
  reconcileKey aggResp obsResp (fst key) (snd key) = Panic msg ->
  body key done = ([], Leave (Panicked msg)).
Proof.
  intros Hp. unfold body, updateKey. rewrite Hp. reflexivity.
Qed.

Lemma WritesSucceed_cons (done : list SqlStmt) key keys :
  WritesSucceed env aggResp obsResp done (key :: keys) ->
  Exec env done (updateOf aggResp obsResp key) = None /\
  WritesSucceed env aggResp obsResp (done ++ [ updateOf aggResp obsResp key ]) keys.
Proof.
  intros H. split.
  - specialize (H [] key keys eq_refl). cbn [map] in H.
    rewrite app_nil_r in H. exact H.
  - intros before k after ->.
    specialize (H (key :: before) k after eq_refl). cbn [map] in H.
    rewrite <- app_assoc. exact H.
Qed.

(** All pairs recognized and no UPDATE failing: every pair is updated. *)
Lemma loop_ok (keys : list (string * string)) (done : list SqlStmt) :
  Forall (Recognized aggResp obsResp) keys ->
  WritesSucceed env aggResp obsResp done keys ->
  forRange body keys done =
  (flat_map (updateEvents aggResp obsResp) keys,
   Next (done ++ map (updateOf aggResp obsResp) keys)).
Proof.
  intros Hr. revert done. induction Hr as [|key keys Hk _ IH]; intros done Hw;
    cbn [forRange flat_map map].
  - rewrite app_nil_r. reflexivity.
  - destruct (WritesSucceed_cons _ _ _ Hw) as [He Hw'].
    rewrite (updateKey_ok _ _ Hk He), (IH _ Hw'), <- app_assoc. reflexivity.
Qed.

(** The loop up to a pair at which the body leaves the function. *)
Lemma loop_leaves (before after : list (string * string)) (key : string * string)
    (tr : list Event) (x : Exit) :
  Forall (Recognized aggResp obsResp) before ->
  WritesSucceed env aggResp obsResp [] before ->
  body key (map (updateOf aggResp obsResp) before) = (tr, Leave x) ->
  forRange body (before ++ key :: after) [] =
  (flat_map (updateEvents aggResp obsResp) before ++ tr, Leave x).
Proof.
  intros Hr Hw Hb. rewrite forRange_app, (loop_ok _ _ Hr Hw).
  cbn [app forRange]. rewrite Hb. reflexivity.
Qed.

End Cycle.

Lemma execsOf_app (tr1 tr2 : list Event) :
  execsOf (tr1 ++ tr2) = execsOf tr1 ++ execsOf tr2.
Proof. apply flat_map_app. Qed.

Lemma execsOf_updateEvents aggResp obsResp (keys : list (string * string)) :
  execsOf (flat_map (updateEvents aggResp obsResp) keys) =
  map (updateOf aggResp obsResp) keys.
Proof.
  induction keys as [|key keys IH]; cbn [flat_map map]; [reflexivity|].
  rewrite execsOf_app, IH. reflexivity.
Qed.

Lemma cycle_answered cfg env startInterval endInterval aggResp obsResp :
  Answered cfg env startInterval endInterval aggResp obsResp ->
  queryAndWriteQueueStatsToDb cfg env startInterval endInterval =
  match
    forRange (fun key => updateKey env aggResp obsResp (fst key) (snd key))
      (trackedKeys cfg) []
  with
  | (tr, Next _) =>
      (queryEvents cfg env startInterval endInterval ++ tr, Returned None)
  | (tr, Leave x) => (queryEvents cfg env startInterval endInterval ++ tr, x)
  end.
Proof.
  intros [Ha Ho]. unfold queryAndWriteQueueStatsToDb, queryQueueIntervalStats.
  cbv zeta. rewrite Ha, Ho. rewrite forRange_nested. fold (trackedKeys cfg).
  reflexivity.
Qed.

(** ** The poll cycle *)

Lemma execsOf_queryEvents cfg env startInterval endInterval (tr : list Event) :
  execsOf (queryEvents cfg env startInterval endInterval ++ tr) = execsOf tr.
Proof. reflexivity. Qed.

Lemma reconcileKey_first_unrecognized aggResp obsResp (key : string * string) :
  ~ Recognized aggResp obsResp key ->
  exists m,
    FirstUnrecognized aggResp obsResp key m /\
    reconcileKey aggResp obsResp (fst key) (snd key) =
    Panic ("Unrecognized metric " ++ Metric m)%string.
Proof.
  intros Hn. rewrite reconcileKey_used. unfold FirstUnrecognized.
  destruct (known_or_first_unknown aggRegistry
              (usedAggMetrics aggResp (fst key) (snd key)))
    as [Ha|(b & m & a & Heq & Hb & Hm)].
  - destruct (known_or_first_unknown obsRegistry
                (usedObsMetrics obsResp (fst key) (snd key)))
      as [Ho|(b & m & a & Heq & Hb & Hm)].
    + exfalso. apply Hn. split; assumption.
    + exists m. split.
      * right. split; [exact Ha|]. exists b, a. repeat split; assumption.
      * rewrite (forMetrics_known _ _ aggMetric_registry _ _ Ha). cbn [bind].
        rewrite Heq. apply (forMetrics_unknown _ _ obsMetric_registry _ _ _ _ Hb Hm).
  - exists m. split.
    + left. exists b, a. repeat split; assumption.
    + rewrite Heq, (forMetrics_unknown _ _ aggMetric_registry _ _ _ _ Hb Hm).
      reflexivity.
Qed.

(** C1 (amended): when both queries of a tick are answered and the cycle
    reaches a tracked pair for which a dispatched metric is outside the
    switch of its response, the cycle panics with the name of the first such
    metric (the pair's aggregate metrics in response order, then its
    observation metrics; all metrics dispatched before it are recognized):
    the pairs before it have been updated, no later pair is, and the panic
    ends the process, so that no later tick is polled. *)
Theorem C1_unrecognized_metric_ends_process
    (cfg : AppConfig) (tk : Tick) (rest : list Tick)
    (aggResp : AggregateQueryResponse) (obsResp : ObservationQueryResponse)
    (before after : list (string * string)) (key : string * string) :
  let env := tickEnv tk in
  let startInterval := fst (currentInterval cfg (Now tk)) in
  let endInterval := snd (currentInterval cfg (Now tk)) in
  Answered cfg env startInterval endInterval aggResp obsResp ->
  trackedKeys cfg = before ++ key :: after ->
  Forall (Recognized aggResp obsResp) before ->
  WritesSucceed env aggResp obsResp [] before ->
  ~ Recognized aggResp obsResp key ->
  exists m,
    FirstUnrecognized aggResp obsResp key m /\
    let trace :=
      queryEvents cfg env startInterval endInterval
        ++ flat_map (updateEvents aggResp obsResp) before in
    let msg := ("Unrecognized metric " ++ Metric m)%string in
    queryAndWriteQueueStatsToDb cfg env startInterval endInterval
      = (trace, Panicked msg) /\
    execsOf trace = map (updateOf aggResp obsResp) before /\
    pollLoop cfg (tk :: rest) = (trace, Some msg).
Proof.
  intros env startInterval endInterval Hans Hkeys Hrec Hw Hn.
  destruct (reconcileKey_first_unrecognized _ _ _ Hn) as (m & Hm & Hp).
  exists m. split; [exact Hm|]. cbv zeta.
  assert (Hcycle :
    queryAndWriteQueueStatsToDb cfg env startInterval endInterval =
    (queryEvents cfg env startInterval endInterval
       ++ flat_map (updateEvents aggResp obsResp) before,
     Panicked ("Unrecognized metric " ++ Metric m)%string)).
  { rewrite (cycle_answered _ _ _ _ _ _ Hans), Hkeys.
    rewrite (loop_leaves env aggResp obsResp before after key [] _ Hrec Hw
               (updateKey_panics env aggResp obsResp key _ _ Hp)).
    rewrite app_nil_r. reflexivity. }
  repeat split.
  - exact Hcycle.
  - rewrite execsOf_queryEvents. apply execsOf_updateEvents.
  - cbn [pollLoop]. unfold currentInterval in *. cbn [fst snd] in *.
    subst env startInterval endInterval. rewrite Hcycle. reflexivity.
Qed.

Lemma C1_unrecognized_metric_ends_process_witness :
  let env := envOf twoUnseenAgg unseenObs in
  exists m,
    FirstUnrecognized twoUnseenAgg unseenObs ("Q1", "chat") m /\
    let trace :=
      queryEvents configQ1 env (3600 * Second) (5400 * Second)
        ++ flat_map (updateEvents twoUnseenAgg unseenObs) [ ("Q1", "voice") ] in
    let msg := ("Unrecognized metric " ++ Metric m)%string in
    queryAndWriteQueueStatsToDb configQ1 env (3600 * Second) (5400 * Second)
      = (trace, Panicked msg) /\
    execsOf trace = map (updateOf twoUnseenAgg unseenObs) [ ("Q1", "voice") ] /\
    pollLoop configQ1
      [ tickAt (5000 * Second) env;
        tickAt (5010 * Second) (envOf offeredAgg noObs) ]
      = (trace, Some msg).
Proof.
  apply (C1_unrecognized_metric_ends_process configQ1
           (tickAt (5000 * Second) (envOf twoUnseenAgg unseenObs))
           [ tickAt (5010 * Second) (envOf offeredAgg noObs) ]
           twoUnseenAgg unseenObs [ ("Q1", "voice") ] [ ("Q1", "email") ]
           ("Q1", "chat")).
  - split; reflexivity.
  - reflexivity.
  - constructor; [|constructor].
    eapply reconcileKey_Ok_recognized. vm_compute. reflexivity.
  - intros b key after _. reflexivity.
  - intros H. apply reconcileKey_rowOf in H. vm_compute in H. discriminate H.
Defined.

(** C1 (as stated, refuted): the first of two ticks is answered with a
    metric name outside the switch.  The loop does not go on to the second
    tick: nothing after the two queries of the first tick happens, and the
    process ends with the panic. *)
Lemma C1_counterexample_process_ends :
  pollLoop configQ1 unseenThenFine =
    (queryEvents configQ1 (envOf unseenAgg noObs) (3600 * Second) (5400 * Second),
     Some "Unrecognized metric nBlindTransferred") /\
  snd (main (startupOf configQ1) unseenThenFine) =
    Crashed "Unrecognized metric nBlindTransferred" /\
  snd (pollLoop configQ1 [ tickAt (5010 * Second) (envOf offeredAgg noObs) ]) = None.
Proof. repeat split; vm_compute; reflexivity. Qed.

(** C2 (amended): when the UPDATE of a tracked pair fails, the error is
    printed and returned at once: the UPDATEs executed in the cycle are those
    of the pairs up to and including the failing one, none of the remaining
    pairs is attempted, and the ticker loop prints the error and goes on to
    the next tick. *)
Theorem C2_failed_update_ends_cycle
    (cfg : AppConfig) (tk : Tick) (rest : list Tick)
    (aggResp : AggregateQueryResponse) (obsResp : ObservationQueryResponse)
    (before after : list (string * string)) (key : string * string)
    (err : string) :
  let env := tickEnv tk in
  let startInterval := fst (currentInterval cfg (Now tk)) in
  let endInterval := snd (currentInterval cfg (Now tk)) in
  Answered cfg env startInterval endInterval aggResp obsResp ->
  trackedKeys cfg = before ++ key :: after ->
  Forall (Recognized aggResp obsResp) (before ++ [ key ]) ->
  WritesSucceed env aggResp obsResp [] before ->
  Exec env (map (updateOf aggResp obsResp) before) (updateOf aggResp obsResp key)
    = Some err ->
  let trace :=
    queryEvents cfg env startInterval endInterval
      ++ flat_map (updateEvents aggResp obsResp) (before ++ [ key ])
      ++ [ Printed (OutError err) ] in
  queryAndWriteQueueStatsToDb cfg env startInterval endInterval
    = (trace, Returned (Some err)) /\
  execsOf trace = map (updateOf aggResp obsResp) (before ++ [ key ]) /\
  pollLoop cfg (tk :: rest) =
    (trace ++ Printed (OutTickError (Format env (t tk)) err)
           :: fst (pollLoop cfg rest),
     snd (pollLoop cfg rest)).
Proof.
  intros env startInterval endInterval Hans Hkeys Hrec Hw Hfail.
  apply Forall_app in Hrec. destruct Hrec as [Hrec Hkey].
  inversion_clear Hkey as [|? ? Hk _]. cbv zeta.
  assert (Hcycle :
    queryAndWriteQueueStatsToDb cfg env startInterval endInterval =
    (queryEvents cfg env startInterval endInterval
       ++ flat_map (updateEvents aggResp obsResp) (before ++ [ key ])
       ++ [ Printed (OutError err) ],
     Returned (Some err))).
  { rewrite (cycle_answered _ _ _ _ _ _ Hans), Hkeys.
    rewrite (loop_leaves env aggResp obsResp before after key _ _ Hrec Hw
               (updateKey_fails env aggResp obsResp key _ _ Hk Hfail)).
    rewrite flat_map_app. cbn [flat_map]. rewrite app_nil_r, <- app_assoc.
    reflexivity. }
  repeat split.
  - exact Hcycle.
  - rewrite execsOf_queryEvents, execsOf_app, execsOf_updateEvents.
    apply app_nil_r.
  - cbn [pollLoop]. unfold currentInterval in *. cbn [fst snd] in *.
    subst env startInterval endInterval. rewrite Hcycle.
    destruct (pollLoop cfg rest). reflexivity.
Qed.

Lemma C2_failed_update_ends_cycle_witness :
  let env := voiceFails noAgg noObs in
  let trace :=
    queryEvents configQ1 env (3600 * Second) (5400 * Second)
      ++ flat_map (updateEvents noAgg noObs) ([] ++ [ ("Q1", "voice") ])
      ++ [ Printed (OutError "write failed") ] in
  queryAndWriteQueueStatsToDb configQ1 env (3600 * Second) (5400 * Second)
    = (trace, Returned (Some "write failed")) /\
  execsOf trace = map (updateOf noAgg noObs) ([] ++ [ ("Q1", "voice") ]) /\
  pollLoop configQ1 [ tickAt (5000 * Second) env ] =
    (trace ++ Printed (OutTickError (formatNanoseconds (5000 * Second)) "write failed")
           :: fst (pollLoop configQ1 []),
     snd (pollLoop configQ1 [])).
Proof.
  apply (C2_failed_update_ends_cycle configQ1
           (tickAt (5000 * Second) (voiceFails noAgg noObs)) []
           noAgg noObs [] [ ("Q1", "chat"); ("Q1", "email") ] ("Q1", "voice")
           "write failed").
  - split; reflexivity.
  - reflexivity.
  - constructor; [|constructor].
    apply (reconcileKey_Ok_recognized noAgg noObs ("Q1", "voice") zeroLocals).
    reflexivity.
  - intros b key after H. destruct b; discriminate H.
  - reflexivity.
Defined.

(** C2 (as stated, refuted): one queue, no grouping in either response, and
    a database on which the UPDATE of the voice row fails while those of the
    chat and email rows would succeed.  Only the voice UPDATE is executed. *)
Lemma C2_counterexample_remaining_keys_skipped :
  let env := voiceFails noAgg noObs in
  let cycle :=
    queryAndWriteQueueStatsToDb configQ1 env (3600 * Second) (5400 * Second) in
  trackedKeys configQ1 = [ ("Q1", "voice"); ("Q1", "chat"); ("Q1", "email") ] /\
  map keyOf (execsOf (fst cycle)) = [ Some ("Q1", "voice") ] /\
  snd cycle = Returned (Some "write failed") /\
  Exec env [] (updateOf noAgg noObs ("Q1", "chat")) = None /\
  Exec env [] (updateOf noAgg noObs ("Q1", "email")) = None.
Proof. repeat split; vm_compute; reflexivity. Qed.

(** ** One row per tracked pair *)

Lemma trackedKeys_length (cfg : AppConfig) :
  List.length (trackedKeys cfg) = (3 * List.length (Queues cfg))%nat.
Proof.
  unfold trackedKeys. induction (Queues cfg) as [|q qs IH]; [reflexivity|].
  cbn [flat_map]. rewrite length_app, IH. cbn. lia.
Qed.

Lemma keyOf_updateOf aggResp obsResp (keys : list (string * string)) :
  map keyOf (map (updateOf aggResp obsResp) keys) = map Some keys.
Proof.
  induction keys as [|[q m] keys IH]; [reflexivity|].
  cbn [map]. rewrite IH. reflexivity.
Qed.

(** The variables of a recognized pair: each is zero or was written by the
    rule of a dispatched metric; without a grouping in a response, the
    variables written from that response are zero. *)
Lemma rowOf_provenance aggResp obsResp (key : string * string) :
  Recognized aggResp obsResp key ->
  let l := rowOf aggResp obsResp key in
  let aggMs := usedAggMetrics aggResp (fst key) (snd key) in
  let obsMs := usedObsMetrics obsResp (fst key) (snd key) in
  (forall v,
     ints l v = 0 \/ IntFrom aggRegistry aggMs v (ints l v)
     \/ IntFrom obsRegistry obsMs v (ints l v)) /\
  (forall v,
     floats l v = 0%float \/ FloatFrom aggRegistry aggMs v (floats l v)) /\
  (firstAgg aggResp (fst key) (snd key) = None ->
     (forall v, floats l v = 0%float) /\
     (forall v, v <> oInteracting -> v <> oWaiting -> ints l v = 0)) /\
  (firstObs obsResp (fst key) (snd key) = None ->
     ints l oInteracting = 0 /\ ints l oWaiting = 0).
Proof.
  intros Hrec. cbv zeta. unfold rowOf.
  rewrite (reconcileKey_recognized _ _ _ Hrec).
  set (aggMs := usedAggMetrics aggResp (fst key) (snd key)).
  set (obsMs := usedObsMetrics obsResp (fst key) (snd key)).
  set (la := fold_left (applyKnown aggRegistry) aggMs zeroLocals).
  set (l := fold_left (applyKnown obsRegistry) obsMs la).
  assert (Hi : forall v,
    ints l v = 0 \/ IntFrom aggRegistry aggMs v (ints l v)
    \/ IntFrom obsRegistry obsMs v (ints l v)).
  { intros v. destruct (applyKnown_ints obsRegistry obsMs la v) as [H|H];
      [|right; right; exact H].
    fold l in H. rewrite H.
    destruct (applyKnown_ints aggRegistry aggMs zeroLocals v) as [H'|H'];
      [left; exact H'|right; left; exact H']. }
  assert (Hf : forall v,
    floats l v = 0%float \/ FloatFrom aggRegistry aggMs v (floats l v)).
  { intros v. destruct (applyKnown_floats obsRegistry obsMs la v)
      as [H|(m & r & _ & Hr & Hin)].
    - fold l in H. rewrite H. apply (applyKnown_floats aggRegistry aggMs zeroLocals v).
    - destruct (obsRegistry_writes _ _ (Stats m) Hr) as [Hnil _].
      rewrite Hnil in Hin. destruct Hin. }
  assert (Hagg : aggMs = [] ->
    (forall v, floats l v = 0%float) /\
    (forall v, v <> oInteracting -> v <> oWaiting -> ints l v = 0)).
  { intros Hnil. split.
    - intros v. destruct (Hf v) as [H|(m & _ & Hin & _)]; [exact H|].
      rewrite Hnil in Hin. destruct Hin.
    - intros v H1 H2. destruct (Hi v) as [H|[(m & _ & Hin & _)|(m & r & _ & Hr & Hin)]].
      + exact H.
      + rewrite Hnil in Hin. destruct Hin.
      + destruct (obsRegistry_writes _ _ (Stats m) Hr) as [_ Hv].
        destruct (Hv _ _ Hin); contradiction. }
  assert (Hobs : obsMs = [] -> ints l oInteracting = 0 /\ ints l oWaiting = 0).
  { intros Hnil. split.
    - destruct (Hi oInteracting) as [H|[(m & r & _ & Hr & Hin)|(m & _ & Hin & _)]].
      + exact H.
      + destruct (aggRegistry_writes _ _ (Stats m) Hr _ _ Hin) as [H _].
        contradiction H; reflexivity.
      + rewrite Hnil in Hin. destruct Hin.
    - destruct (Hi oWaiting) as [H|[(m & r & _ & Hr & Hin)|(m & _ & Hin & _)]].
      + exact H.
      + destruct (aggRegistry_writes _ _ (Stats m) Hr _ _ Hin) as [_ H].
        contradiction H; reflexivity.
      + rewrite Hnil in Hin. destruct Hin. }
  repeat split; try apply Hi; try apply Hf.
  - apply Hagg. unfold aggMs, usedAggMetrics. rewrite H. reflexivity.
  - apply Hagg. unfold aggMs, usedAggMetrics. rewrite H. reflexivity.
  - apply Hobs. unfold obsMs, usedObsMetrics. rewrite H. reflexivity.
  - apply Hobs. unfold obsMs, usedObsMetrics. rewrite H. reflexivity.
Qed.

(** C3 (amended): when both queries are answered, every metric dispatched
    for a tracked pair is in the switch of its response and no UPDATE fails,
    the cycle returns no error and executes exactly one UPDATE per tracked
    pair, in the order of the cross-product of the queues and the three media
    types; in each, every variable is zero or a statistic of one of the pair's
    dispatched metrics, and a pair without a grouping in a response has the
    variables written from that response at zero. *)
Theorem C3_one_update_per_tracked_key
    (cfg : AppConfig) (env : Env) (startInterval endInterval : Time)
    (aggResp : AggregateQueryResponse) (obsResp : ObservationQueryResponse) :
  Answered cfg env startInterval endInterval aggResp obsResp ->
  Forall (Recognized aggResp obsResp) (trackedKeys cfg) ->
  WritesSucceed env aggResp obsResp [] (trackedKeys cfg) ->
  let cycle := queryAndWriteQueueStatsToDb cfg env startInterval endInterval in
  snd cycle = Returned None /\
  execsOf (fst cycle) = map (updateOf aggResp obsResp) (trackedKeys cfg) /\
  map keyOf (execsOf (fst cycle)) = map Some (trackedKeys cfg) /\
  List.length (execsOf (fst cycle)) = (3 * List.length (Queues cfg))%nat /\
  forall key, In key (trackedKeys cfg) ->
    reconcileKey aggResp obsResp (fst key) (snd key)
      = Ok (rowOf aggResp obsResp key) /\
    let l := rowOf aggResp obsResp key in
    let aggMs := usedAggMetrics aggResp (fst key) (snd key) in
    let obsMs := usedObsMetrics obsResp (fst key) (snd key) in
    (forall v,
       ints l v = 0 \/ IntFrom aggRegistry aggMs v (ints l v)
       \/ IntFrom obsRegistry obsMs v (ints l v)) /\
    (forall v,
       floats l v = 0%float \/ FloatFrom aggRegistry aggMs v (floats l v)) /\
    (firstAgg aggResp (fst key) (snd key) = None ->
       (forall v, floats l v = 0%float) /\
       (forall v, v <> oInteracting -> v <> oWaiting -> ints l v = 0)) /\
    (firstObs obsResp (fst key) (snd key) = None ->
       ints l oInteracting = 0 /\ ints l oWaiting = 0).
Proof.
  intros Hans Hrec Hw. cbv zeta.
  rewrite (cycle_answered _ _ _ _ _ _ Hans).
  rewrite (loop_ok env aggResp obsResp _ _ Hrec Hw). cbn [fst snd].
  rewrite execsOf_queryEvents, execsOf_updateEvents.
  repeat apply conj.
  - reflexivity.
  - reflexivity.
  - apply keyOf_updateOf.
  - rewrite length_map. apply trackedKeys_length.
  - intros key Hin. rewrite Forall_forall in Hrec. split.
    + apply reconcileKey_rowOf, Hrec, Hin.
    + apply rowOf_provenance, Hrec, Hin.
Qed.

Lemma C3_one_update_per_tracked_key_witness :
  let cycle :=
    queryAndWriteQueueStatsToDb configQ1 (envOf offeredAgg waitingObs)
      (3600 * Second) (5400 * Second) in
  snd cycle = Returned None /\
  map keyOf (execsOf (fst cycle)) =
    [ Some ("Q1", "voice"); Some ("Q1", "chat"); Some ("Q1", "email") ] /\
  List.length (execsOf (fst cycle)) = 3%nat.
Proof.
  assert (Hrec : Forall (Recognized offeredAgg waitingObs) (trackedKeys configQ1)).
  { change (trackedKeys configQ1)
      with [ ("Q1", "voice"); ("Q1", "chat"); ("Q1", "email") ].
    repeat (apply Forall_cons;
            [eapply reconcileKey_Ok_recognized; vm_compute; reflexivity|]).
    apply Forall_nil. }
  destruct (C3_one_update_per_tracked_key configQ1 (envOf offeredAgg waitingObs)
              (3600 * Second) (5400 * Second) offeredAgg waitingObs
              (conj eq_refl eq_refl) Hrec (fun _ _ _ _ => eq_refl))
    as (Hret & _ & Hkeys & Hlen & _).
  repeat split; assumption.
Defined.

(** C3 (as stated, refuted): both responses contain only tracked pairs, but
    the observation response names [nOffered] for (Q1, chat).  The cycle
    executes one UPDATE, not three, and ends in a panic. *)
Lemma C3_counterexample_fewer_rows :
  let cycle :=
    queryAndWriteQueueStatsToDb configQ1 (envOf offeredAgg offeredObs)
      (3600 * Second) (5400 * Second) in
  trackedKeys configQ1 = [ ("Q1", "voice"); ("Q1", "chat"); ("Q1", "email") ] /\
  map (fun r => (QueueID (agg_Group r), MediaType (agg_Group r)))
      (agg_Results offeredAgg) = [ ("Q1", "voice") ] /\
  map (fun r => (QueueID (obs_Group r), MediaType (obs_Group r)))
      (obs_Results offeredObs) = [ ("Q1", "chat") ] /\
  map keyOf (execsOf (fst cycle)) = [ Some ("Q1", "voice") ] /\
  snd cycle = Panicked "Unrecognized metric nOffered".
Proof. repeat split; vm_compute; reflexivity. Qed.

(** ** Duration triplets *)

(** C5: when the first grouping of a pair in the aggregate response holds a
    single metric, a duration triplet, and the observation response is empty,
    the pair's variables are the triplet's sum, max and count in its three
    mapped variables and zero everywhere else. *)
Theorem C5_single_triplet_metric
    (aggResp : AggregateQueryResponse) (obsResp : ObservationQueryResponse)
    (queueID mediaType : string) (result : AggregateResult) (name : string)
    (total max : FloatVar) (n : IntVar) (s : StatisticalSummary) :
  firstAgg aggResp queueID mediaType = Some result ->
  agg_Data result = [ {| Metrics := [ {| Metric := name; Stats := s |} ] |} ] ->
  obs_Results obsResp = [] ->
  lookup name aggRegistry = Some (Triplet total max n) ->
  exists l,
    reconcileKey aggResp obsResp queueID mediaType = Ok l /\
    floats l total = Sum s /\ floats l max = Max s /\ ints l n = Count s /\
    (forall v, v <> n -> ints l v = 0) /\
    (forall v, v <> total -> v <> max -> floats l v = 0%float).
Proof.
  intros Hfirst Hdata Hobs Hname. rewrite reconcileKey_used.
  unfold usedAggMetrics, usedObsMetrics, firstObs. rewrite Hfirst, Hdata, Hobs.
  cbn [map List.concat app find forMetrics bind Metrics].
  rewrite aggMetric_registry. unfold dispatchBy. cbn [Metric Stats].
  rewrite Hname. cbn [bind]. eexists. split; [reflexivity|].
  revert Hname. unfold aggRegistry. cbn [lookup].
  each_name name
    ltac:(intros Hr;
          first [discriminate Hr
                |injection Hr as <- <- <-;
                 repeat split; try reflexivity;
                 intros v; destruct v; intros; try reflexivity; congruence]).
  discriminate.
Qed.

Lemma C5_single_triplet_metric_witness :
  exists l,
    reconcileKey answeredAgg noObs "Q1" "voice" = Ok l /\
    floats l tAnswered = 300%float /\ floats l mtAnswered = 120%float /\
    ints l nAnswered = 5 /\
    (forall v, v <> nAnswered -> ints l v = 0) /\
    (forall v, v <> tAnswered -> v <> mtAnswered -> floats l v = 0%float).
Proof.
  apply (C5_single_triplet_metric answeredAgg noObs "Q1" "voice"
           (aggOf "Q1" "voice" [ [ {| Metric := "tAnswered"; Stats := answeredStats |} ] ])
           "tAnswered" tAnswered mtAnswered nAnswered answeredStats);
    reflexivity.
Defined.

(** ** Configuration validation *)

Lemma supportedGranularity_tokens (g : string) :
  lookup g supportedGranularity <> None <-> In g [ "PT30M"; "PT60M"; "PT1H" ].
Proof.
  unfold supportedGranularity. cbn [lookup In].
  destruct (String.eqb_spec g "PT30M") as [->|H1]; [split; [auto|discriminate]|].
  destruct (String.eqb_spec g "PT60M") as [->|H2]; [split; [auto|discriminate]|].
  destruct (String.eqb_spec g "PT1H") as [->|H3]; [split; [auto|discriminate]|].
  split; [congruence|].
  intros [H|[H|[H|[]]]]; symmetry in H; contradiction.
Qed.

Lemma int_of_float32_range (x : Q) :
  1 <= int_of_float32 x <= 60 <-> (1 <= x)%Q /\ (x < 61)%Q.
Proof.
  destruct x as [n d]. unfold int_of_float32, Qle, Qlt. cbn [Qnum Qden].
  change (2 ^ 63) with 9223372036854775808.
  destruct (Z.lt_ge_cases n 0) as [Hneg|Hpos].
  - assert (Hq : Z.quot n (Zpos d) <= 0).
    { rewrite <- (Z.opp_involutive n), Z.quot_opp_l by lia.
      pose proof (Z.quot_pos (- n) (Zpos d) ltac:(lia) ltac:(lia)). lia. }
    match goal with |- context [if ?b then _ else _] => destruct b end; lia.
  - rewrite Z.quot_div_nonneg by lia.
    pose proof (Z.mul_div_le n (Zpos d) ltac:(lia)) as Hlo.
    pose proof (Z.mul_succ_div_gt n (Zpos d) ltac:(lia)) as Hhi.
    pose proof (Z.div_pos n (Zpos d) Hpos ltac:(lia)) as Hk.
    set (k := n / Zpos d) in *.
    match goal with |- context [if ?b then _ else _] => destruct b eqn:Hb end;
      [nia|].
    apply andb_false_iff in Hb. rewrite Z.leb_gt, Z.ltb_ge in Hb. nia.
Qed.

Lemma validate_None (cfg : AppConfig) :
  validate cfg = None <->
  In (cfg_Granularity cfg) [ "PT30M"; "PT60M"; "PT1H" ] /\
  1 <= int_of_float32 (PollFrequencySeconds cfg) <= 60.
Proof.
  rewrite <- supportedGranularity_tokens. unfold validate.
  destruct (lookup (cfg_Granularity cfg) supportedGranularity) as [d|].
  - destruct (Z.leb_spec (int_of_float32 (PollFrequencySeconds cfg)) 0);
      destruct (Z.ltb_spec 60 (int_of_float32 (PollFrequencySeconds cfg)));
      cbn [orb]; split; try discriminate; try (intros [_ ?]; lia);
      intros _; split; [discriminate|lia].
  - split; [discriminate|intros [H _]; contradiction H; reflexivity].
Qed.

(** C6 (amended): for a configuration file that is read and decoded,
    [loadAppConfig] returns no error exactly when the granularity is one of
    the three tokens and the poll frequency, cut down to whole seconds, is
    between 1 and 60, that is, when the frequency is at least 1 and below 61;
    when it returns an error, [main] prints it and returns without starting
    the ticker loop. *)
Theorem C6_config_validation (st : Startup) (prog path : string)
    (more : list string) (bytes : string) (cfg : AppConfig) :
  os_Args st = prog :: path :: more ->
  ReadFile st path = inl bytes ->
  Decode st bytes = (cfg, None) ->
  fst (loadAppConfig st configFile) = cfg /\
  (snd (loadAppConfig st configFile) = None <->
     In (cfg_Granularity cfg) [ "PT30M"; "PT60M"; "PT1H" ] /\
     1 <= int_of_float32 (PollFrequencySeconds cfg) <= 60) /\
  (1 <= int_of_float32 (PollFrequencySeconds cfg) <= 60 <->
     (1 <= PollFrequencySeconds cfg)%Q /\ (PollFrequencySeconds cfg < 61)%Q) /\
  (forall err, snd (loadAppConfig st configFile) = Some err ->
     forall ticks,
       main st ticks = ([ Printed (OutError err) ], Exited) /\
       loopStarted (fst (main st ticks)) = false).
Proof.
  intros Hargs Hread Hdec.
  assert (Hload : loadAppConfig st configFile = (cfg, validate cfg)).
  { unfold loadAppConfig, configFile. cbn [String.eqb].
    rewrite Hargs, Hread, Hdec. reflexivity. }
  rewrite Hload. cbn [fst snd].
  split; [reflexivity|]. split; [apply validate_None|].
  split; [apply int_of_float32_range|].
  intros err Herr ticks. unfold main. rewrite Hload, Herr.
  split; reflexivity.
Qed.

Lemma C6_config_validation_witness :
  fst (loadAppConfig (startupOf configQ1) configFile) = configQ1 /\
  snd (loadAppConfig (startupOf configQ1) configFile) = None.
Proof.
  destruct (C6_config_validation (startupOf configQ1)
              "purecloud2odbc" "config.json" [] "{}" configQ1
              eq_refl eq_refl eq_refl) as (Hcfg & Hok & _).
  split; [exact Hcfg|]. apply Hok. split; [left; reflexivity|].
  vm_compute. split; discriminate.
Defined.

(** C6 (as stated, refuted): a poll frequency of 60.5 seconds lies outside
    the range 1 to 60, yet the configuration is accepted and the ticker is
    started, with a period of 60 seconds. *)
Lemma C6_counterexample_fraction_accepted :
  (60 < PollFrequencySeconds config60_5)%Q /\
  loadAppConfig (startupOf config60_5) configFile = (config60_5, None) /\
  loopStarted (fst (main (startupOf config60_5) [])) = true /\
  startGrabbingPureCloudStats config60_5 =
    [ Printed (OutTicker (60 * Second)); TickerStarted (60 * Second) ].
Proof. repeat split; vm_compute; reflexivity. Qed.

(** ** Data buckets and duplicate groupings *)

Lemma aggRegistry_written (name : string) (r : Rule) (s : StatisticalSummary)
    (l : Locals) :
  lookup name aggRegistry = Some r ->
  (forall v y, In (v, y) (intWrites r s) -> ints (applyRule r s l) v = y) /\
  (forall v y, In (v, y) (floatWrites r s) -> floats (applyRule r s l) v = y).
Proof.
  unfold aggRegistry. cbn [lookup].
  each_name name
    ltac:(intros [= <-]; split; intros v y Hin; cbn in Hin;
          repeat (destruct Hin as [[= <- <-]|Hin]); try contradiction;
          reflexivity).
  discriminate.
Qed.

(** C7 (amended): every data bucket of the first grouping of a pair is
    dispatched, in response order, onto the same variables; the last metric
    of the last bucket therefore decides the variables its rule writes,
    whatever the earlier buckets held. *)
Theorem C7_every_bucket_is_dispatched
    (aggResp : AggregateQueryResponse) (queueID mediaType : string)
    (result : AggregateResult) :
  firstAgg aggResp queueID mediaType = Some result ->
  (forall l,
     scanAggResults (agg_Results aggResp) queueID mediaType l =
     forMetrics aggMetric (List.concat (map Metrics (agg_Data result))) l) /\
  (forall data ms x r l l',
     agg_Data result = data ++ [ {| Metrics := ms ++ [ x ] |} ] ->
     lookup (Metric x) aggRegistry = Some r ->
     scanAggResults (agg_Results aggResp) queueID mediaType l = Ok l' ->
     (forall v y, In (v, y) (intWrites r (Stats x)) -> ints l' v = y) /\
     (forall v y, In (v, y) (floatWrites r (Stats x)) -> floats l' v = y)).
Proof.
  intros Hfirst.
  assert (Hscan : forall l,
    scanAggResults (agg_Results aggResp) queueID mediaType l =
    forMetrics aggMetric (List.concat (map Metrics (agg_Data result))) l).
  { intros l. rewrite scanAggResults_used. unfold usedAggMetrics.
    rewrite Hfirst. reflexivity. }
  split; [exact Hscan|].
  intros data ms x r l l' Hdata Hr Hok.
  rewrite Hscan, Hdata, map_app, concat_app in Hok.
  cbn [map List.concat Metrics] in Hok.
  rewrite app_nil_r, app_assoc, forMetrics_app in Hok.
  destruct (forMetrics aggMetric (List.concat (map Metrics data) ++ ms) l)
    as [l1|]; [|discriminate Hok].
  cbn [bind forMetrics] in Hok. rewrite aggMetric_registry in Hok.
  unfold dispatchBy in Hok. rewrite Hr in Hok. cbn [bind] in Hok.
  injection Hok as <-. apply (aggRegistry_written _ _ _ _ Hr).
Qed.

Lemma C7_every_bucket_is_dispatched_witness :
  reconcileKey twoBuckets noObs "Q1" "voice"
    = Ok (rowOf twoBuckets noObs ("Q1", "voice")) /\
  ints (rowOf twoBuckets noObs ("Q1", "voice")) nOffered = 2.
Proof.
  split; [reflexivity|].
  destruct (C7_every_bucket_is_dispatched twoBuckets "Q1" "voice"
              (aggOf "Q1" "voice"
                 [ [ countOnly "nOffered" 1 ]; [ countOnly "nOffered" 2 ] ])
              eq_refl) as [_ Hlast].
  destruct (Hlast [ {| Metrics := [ countOnly "nOffered" 1 ] |} ] []
              (countOnly "nOffered" 2) (Counter nOffered) zeroLocals
              (rowOf twoBuckets noObs ("Q1", "voice"))
              eq_refl eq_refl eq_refl) as [Hint _].
  apply Hint. left. reflexivity.
Defined.

(** C7 (as stated, refuted): the grouping of (Q1, voice) has two buckets,
    [nOffered] counting 1 in the first and 2 in the second.  The row holds 2;
    from the first bucket alone it would hold 1. *)
Lemma C7_counterexample_later_bucket_counts :
  reconcileKey twoBuckets noObs "Q1" "voice"
    = Ok (rowOf twoBuckets noObs ("Q1", "voice")) /\
  ints (rowOf twoBuckets noObs ("Q1", "voice")) nOffered = 2 /\
  reconcileKey firstBucketOnly noObs "Q1" "voice"
    = Ok (rowOf firstBucketOnly noObs ("Q1", "voice")) /\
  ints (rowOf firstBucketOnly noObs ("Q1", "voice")) nOffered = 1.
Proof. repeat split; vm_compute; reflexivity. Qed.

Lemma scanAggResults_first (before after : list AggregateResult)
    (result : AggregateResult) (queueID mediaType : string) (l : Locals) :
  Forall (fun r => groupIs (agg_Group r) queueID mediaType = false) before ->
  groupIs (agg_Group result) queueID mediaType = true ->
  scanAggResults (before ++ result :: after) queueID mediaType l =
  forData (agg_Data result) l.
Proof.
  intros Hb Hr. induction Hb as [|r before Hno _ IH]; cbn [app scanAggResults].
  - rewrite Hr. reflexivity.
  - rewrite Hno. exact IH.
Qed.

Lemma scanObsResults_first (before after : list ObservationResult)
    (result : ObservationResult) (queueID mediaType : string) (l : Locals) :
  Forall (fun r => groupIs (obs_Group r) queueID mediaType = false) before ->
  groupIs (obs_Group result) queueID mediaType = true ->
  scanObsResults (before ++ result :: after) queueID mediaType l =
  forMetrics obsMetric (obs_Data result) l.
Proof.
  intros Hb Hr. induction Hb as [|r before Hno _ IH]; cbn [app scanObsResults].
  - rewrite Hr. reflexivity.
  - rewrite Hno. exact IH.
Qed.

(** C8: in either response, only the first grouping of a pair is
    dispatched; the groupings after it, of the same pair or not, recognized or
    not, leave the pair's variables as the first grouping alone gives them. *)
Theorem C8_first_matching_grouping_wins (queueID mediaType : string) :
  (forall aggBefore aggResult aggAfter,
     Forall (fun r => groupIs (agg_Group r) queueID mediaType = false) aggBefore ->
     groupIs (agg_Group aggResult) queueID mediaType = true ->
     (forall l,
        scanAggResults (aggBefore ++ aggResult :: aggAfter) queueID mediaType l =
        forData (agg_Data aggResult) l) /\
     (forall obsResp,
        reconcileKey {| agg_Results := aggBefore ++ aggResult :: aggAfter |}
                     obsResp queueID mediaType =
        reconcileKey {| agg_Results := [ aggResult ] |} obsResp queueID mediaType)) /\
  (forall obsBefore obsResult obsAfter,
     Forall (fun r => groupIs (obs_Group r) queueID mediaType = false) obsBefore ->
     groupIs (obs_Group obsResult) queueID mediaType = true ->
     (forall l,
        scanObsResults (obsBefore ++ obsResult :: obsAfter) queueID mediaType l =
        forMetrics obsMetric (obs_Data obsResult) l) /\
     (forall aggResp,
        reconcileKey aggResp {| obs_Results := obsBefore ++ obsResult :: obsAfter |}
                     queueID mediaType =
        reconcileKey aggResp {| obs_Results := [ obsResult ] |} queueID mediaType)).
Proof.
  split.
  - intros aggBefore aggResult aggAfter Hab Ha.
    pose proof (fun l => scanAggResults_first aggBefore aggAfter aggResult
                           queueID mediaType l Hab Ha) as Hagg.
    split; [exact Hagg|]. intros obsResp.
    unfold reconcileKey. cbn [agg_Results].
    rewrite Hagg. cbn [scanAggResults]. rewrite Ha. reflexivity.
  - intros obsBefore obsResult obsAfter Hob Ho.
    pose proof (fun l => scanObsResults_first obsBefore obsAfter obsResult
                           queueID mediaType l Hob Ho) as Hobs.
    split; [exact Hobs|]. intros aggResp.
    unfold reconcileKey. cbn [obs_Results].
    destruct (scanAggResults (agg_Results aggResp) queueID mediaType zeroLocals)
      as [l|]; cbn [bind]; [|reflexivity].
    rewrite Hobs. cbn [scanObsResults]. rewrite Ho. reflexivity.
Qed.

Lemma C8_first_matching_grouping_wins_witness :
  reconcileKey {| agg_Results := duplicateAgg |} {| obs_Results := duplicateObs |}
               "Q1" "voice" =
  reconcileKey {| agg_Results := [ aggOf "Q1" "voice" [ [ countOnly "nOffered" 1 ] ] ] |}
               {| obs_Results := [ obsOf "Q1" "voice" [ countOnly "oWaiting" 1 ] ] |}
               "Q1" "voice".
Proof.
  destruct (C8_first_matching_grouping_wins "Q1" "voice") as [Hagg Hobs].
  destruct (Hagg [ aggOf "Q1" "chat" [ [ countOnly "nOffered" 9 ] ] ]
              (aggOf "Q1" "voice" [ [ countOnly "nOffered" 1 ] ])
              [ aggOf "Q1" "voice" [ [ countOnly "nOffered" 2; countOnly "nUnknown" 3 ] ] ]
              ltac:(constructor; [reflexivity|constructor]) eq_refl) as [_ Ha].
  destruct (Hobs [] (obsOf "Q1" "voice" [ countOnly "oWaiting" 1 ])
              [ obsOf "Q1" "voice" [ countOnly "oWaiting" 2 ] ]
              ltac:(constructor) eq_refl) as [_ Ho].
  exact (eq_trans (Ha {| obs_Results := duplicateObs |}) (Ho _)).
Defined.

(** ** Query building *)

Lemma appendPredicates_map (dimension : string) (values : list string) :
  appendPredicates dimension values =
  map (fun v => {| Dimension := dimension; Value := v |}) values.
Proof.
  unfold appendPredicates.
  enough (H : forall acc,
    fold_left
      (fun predicates v => predicates ++ [ {| Dimension := dimension; Value := v |} ])
      values acc
    = acc ++ map (fun v => {| Dimension := dimension; Value := v |}) values)
    by apply (H []).
  induction values as [|v values IH]; intros acc; cbn [fold_left map].
  - symmetry. apply app_nil_r.
  - rewrite IH, <- app_assoc. reflexivity.
Qed.

(** C9 (amended): query building has no limit on the number of queue IDs
    and never fails: for a queue list of any length the aggregate query is
    built and sent with a queue clause of one predicate per configured queue
    ID, in order, none left out; the only errors of
    [queryQueueIntervalStats] are those the provider returns. *)
Theorem C9_filter_names_every_queue
    (cfg : AppConfig) (env : Env) (startInterval endInterval : Time) :
  let q := aggQuery cfg env startInterval endInterval in
  (exists mediaTypeClause queueIDClause,
     Clauses (agg_Filter q) = [ mediaTypeClause; queueIDClause ] /\
     clause_Type queueIDClause = "or" /\
     map Dimension (Predicates queueIDClause)
       = map (fun _ => "queueId") (Queues cfg) /\
     map Value (Predicates queueIDClause) = Queues cfg /\
     List.length (Predicates queueIDClause) = List.length (Queues cfg)) /\
  (exists tr,
     fst (queryQueueIntervalStats cfg env startInterval endInterval)
       = AggregateQuerySent q :: tr) /\
  (forall err,
     snd (queryQueueIntervalStats cfg env startInterval endInterval) = inr err ->
     QueryConversationAggregates env q = inr err \/
     QueryQueueObservations env (obsQuery q) = inr err).
Proof.
  cbv zeta. split; [|split].
  - eexists. eexists. unfold aggQuery. cbn [agg_Filter Clauses app].
    split; [reflexivity|]. cbn [clause_Type Predicates].
    rewrite appendPredicates_map, !map_map, length_map. cbn [Dimension Value].
    repeat split. apply map_id.
  - unfold queryQueueIntervalStats. cbv zeta.
    destruct (QueryConversationAggregates env _) as [aggResp|err];
      [|eexists; reflexivity].
    destruct (QueryQueueObservations env _) as [obsResp|err];
      eexists; reflexivity.
  - intros err. unfold queryQueueIntervalStats. cbv zeta.
    destruct (QueryConversationAggregates env _) as [aggResp|err1].
    + destruct (QueryQueueObservations env _) as [obsResp|err2]; cbn [snd].
      * discriminate.
      * intros [= <-]. right. reflexivity.
    + cbn [snd]. intros [= <-]. left. reflexivity.
Qed.

(** C9 (as stated, refuted): three tracked queue IDs, more than a limit of
    one or two predicates would allow; nothing in query building compares the
    list with a limit, and the query is built and sent with all three, without
    an error. *)
Lemma C9_counterexample_no_limit_check :
  let r :=
    queryQueueIntervalStats configQ123 (envOf noAgg noObs)
      (3600 * Second) (5400 * Second) in
  let q := aggQuery configQ123 (envOf noAgg noObs) (3600 * Second) (5400 * Second) in
  (2 < List.length (Queues configQ123))%nat /\
  r = ([ AggregateQuerySent q; ObservationQuerySent (obsQuery q) ],
       inl (noAgg, noObs)) /\
  map (fun c => map Value (Predicates c)) (Clauses (agg_Filter q))
    = [ [ "voice"; "chat"; "email" ]; [ "Q1"; "Q2"; "Q3" ] ].
Proof. repeat split; vm_compute; reflexivity. Qed.

(** ** The two spellings of sixty minutes *)

(** C10 (amended): with "PT60M" or "PT1H" as the granularity of otherwise
    equal configurations, both tokens stand for 60 minutes, validation gives
    the same result and every tick has the same interval; the aggregate query
    carries the token as written, so the two queries differ in their
    granularity field and in nothing else, and the observation queries are
    equal; when the provider answers both aggregate queries alike, the two
    cycles end alike and their events differ in that query alone. *)
Theorem C10_PT60M_and_PT1H (cfg : AppConfig) :
  let a := withGranularity "PT60M" cfg in
  let b := withGranularity "PT1H" cfg in
  granularityDuration "PT60M" = 60 * Minute /\
  granularityDuration "PT1H" = 60 * Minute /\
  validate a = validate b /\
  (forall now, currentInterval a now = currentInterval b now) /\
  (forall env startInterval endInterval,
     let qa := aggQuery a env startInterval endInterval in
     let qb := aggQuery b env startInterval endInterval in
     qb = setGranularity "PT1H" qa /\ Granularity qa = "PT60M" /\
     obsQuery qb = obsQuery qa /\
     (QueryConversationAggregates env qa = QueryConversationAggregates env qb ->
      exists first rest,
        queryAndWriteQueueStatsToDb a env startInterval endInterval
          = (first :: AggregateQuerySent qa :: rest,
             snd (queryAndWriteQueueStatsToDb b env startInterval endInterval)) /\
        queryAndWriteQueueStatsToDb b env startInterval endInterval
          = (first :: AggregateQuerySent qb :: rest,
             snd (queryAndWriteQueueStatsToDb a env startInterval endInterval)))).
Proof.
  cbv zeta. repeat apply conj; try reflexivity.
  intros env startInterval endInterval.
  repeat apply conj; try reflexivity.
  intros Hsame.
  unfold queryAndWriteQueueStatsToDb, queryQueueIntervalStats. cbv zeta.
  rewrite <- Hsame.
  change (obsQuery (aggQuery (withGranularity "PT1H" cfg) env startInterval
                      endInterval))
    with (obsQuery (aggQuery (withGranularity "PT60M" cfg) env startInterval
                      endInterval)).
  cbn [Queues withGranularity].
  destruct (QueryConversationAggregates env _) as [aggResp|err];
    [|eexists; eexists; split; reflexivity].
  destruct (QueryQueueObservations env _) as [obsResp|err];
    [|eexists; eexists; split; reflexivity].
  destruct (forRange _ (Queues cfg) []) as [tr [d|x]];
    eexists; eexists; split; reflexivity.
Qed.

(** C10 (as stated, refuted): the rest of the cycle is not the same for the
    two tokens.  The aggregate queries sent differ, and with a provider that
    knows the granularity as "PT60M" only, the cycle of one configuration
    updates its three rows while that of the other returns the provider's
    error without an UPDATE. *)
Lemma C10_counterexample_query_carries_token :
  let cycle60M :=
    queryAndWriteQueueStatsToDb config60M envPT60MOnly (3600 * Second) (7200 * Second) in
  let cycle1H :=
    queryAndWriteQueueStatsToDb config1H envPT60MOnly (3600 * Second) (7200 * Second) in
  Granularity (aggQuery config60M envPT60MOnly (3600 * Second) (7200 * Second))
    = "PT60M" /\
  Granularity (aggQuery config1H envPT60MOnly (3600 * Second) (7200 * Second))
    = "PT1H" /\
  snd cycle60M = Returned None /\
  List.length (execsOf (fst cycle60M)) = 3%nat /\
  snd cycle1H = Returned (Some "unsupported granularity") /\
  execsOf (fst cycle1H) = [].
Proof. repeat split; vm_compute; reflexivity. Qed.

(** ** Further properties of the cycle and of start-up *)

(** X1: when the provider returns an error for either query, the cycle
    prints exactly the interval line and that error twice (once in
    [queryQueueIntervalStats], once in [queryAndWriteQueueStatsToDb]), sends
    the aggregate query and, only when that one was answered, the observation
    query, executes no statement and returns the error; the ticker loop then
    prints the error once more with the time of the tick and goes on to the
    next tick. *)
Theorem X1_query_error_abandons_cycle
    (cfg : AppConfig) (tk : Tick) (rest : list Tick) (err : string) :
  let env := tickEnv tk in
  let startInterval := fst (currentInterval cfg (Now tk)) in
  let endInterval := snd (currentInterval cfg (Now tk)) in
  let q := aggQuery cfg env startInterval endInterval in
  let cycle := queryAndWriteQueueStatsToDb cfg env startInterval endInterval in
  QueryConversationAggregates env q = inr err \/
  (exists aggResp,
     QueryConversationAggregates env q = inl aggResp /\
     QueryQueueObservations env (obsQuery q) = inr err) ->
  fst cycle =
    Printed (OutQuerying (Format env startInterval))
      :: AggregateQuerySent q
      :: match QueryConversationAggregates env q with
         | inr _ => []
         | inl _ => [ ObservationQuerySent (obsQuery q) ]
         end
      ++ [ Printed (OutError err); Printed (OutError err) ] /\
  snd cycle = Returned (Some err) /\
  execsOf (fst cycle) = [] /\
  pollLoop cfg (tk :: rest) =
    (fst cycle ++ Printed (OutTickError (Format env (t tk)) err)
               :: fst (pollLoop cfg rest),
     snd (pollLoop cfg rest)).
Proof.
  cbv zeta. intros Herr. cbn [pollLoop]. unfold currentInterval in *.
  cbn [fst snd] in *.
  unfold queryAndWriteQueueStatsToDb, queryQueueIntervalStats. cbv zeta.
  destruct Herr as [Ha|(aggResp & Ha & Ho)].
  - rewrite Ha. cbn [fst snd app]. destruct (pollLoop cfg rest).
    repeat split.
  - rewrite Ha, Ho. cbn [fst snd app]. destruct (pollLoop cfg rest).
    repeat split.
Qed.

Lemma X1_query_error_abandons_cycle_witness :
  let q := aggQuery configQ1 providerDown (3600 * Second) (5400 * Second) in
  fst (queryAndWriteQueueStatsToDb configQ1 providerDown
         (3600 * Second) (5400 * Second))
    = [ Printed (OutQuerying (Format providerDown (3600 * Second)));
        AggregateQuerySent q;
        Printed (OutError "503 Service Unavailable");
        Printed (OutError "503 Service Unavailable") ] /\
  snd (queryAndWriteQueueStatsToDb configQ1 providerDown
         (3600 * Second) (5400 * Second))
    = Returned (Some "503 Service Unavailable") /\
  snd (pollLoop configQ1
         [ tickAt (5000 * Second) providerDown;
           tickAt (5010 * Second) (envOf offeredAgg noObs) ]) = None.
Proof.
  destruct (X1_query_error_abandons_cycle configQ1
              (tickAt (5000 * Second) providerDown)
              [ tickAt (5010 * Second) (envOf offeredAgg noObs) ]
              "503 Service Unavailable" (or_introl eq_refl))
    as (Htr & Hret & _ & Hloop).
  split; [exact Htr|]. split; [exact Hret|]. rewrite Hloop. reflexivity.
Defined.

(** X2: a validated configuration starts the ticker with a period of a
    whole number of seconds between 1 and 60, the poll frequency cut down to
    whole seconds. *)
Theorem X2_ticker_period_bounds (cfg : AppConfig) :
  validate cfg = None ->
  exists tick,
    startGrabbingPureCloudStats cfg =
      [ Printed (OutTicker tick); TickerStarted tick ] /\
    tick = Second * int_of_float32 (PollFrequencySeconds cfg) /\
    1 * Second <= tick <= 60 * Second.
Proof.
  intros Hv. apply validate_None in Hv. destruct Hv as [_ Hr].
  eexists. split; [reflexivity|]. split; [reflexivity|].
  unfold Second, Nanosecond. lia.
Qed.

Lemma X2_ticker_period_bounds_witness :
  exists tick,
    startGrabbingPureCloudStats configQ1 =
      [ Printed (OutTicker tick); TickerStarted tick ] /\
    tick = Second * int_of_float32 10 /\
    1 * Second <= tick <= 60 * Second.
Proof. exact (X2_ticker_period_bounds configQ1 eq_refl). Defined.

Lemma insertRows_ok (st : Startup) (queueNames : list (string * string))
    (keys : list (string * string)) :
  (forall stmt, startupExec st stmt = None) ->
  insertRows st queueNames keys =
  (map (fun key =>
          DbExec (InsertRow queueStatsTable (fst key)
                    match lookup (fst key) queueNames with
                    | Some n => n
                    | None => EmptyString
                    end (snd key))) keys,
   None).
Proof.
  intros Hok. induction keys as [|[q m] keys IH]; cbn [insertRows map fst snd].
  - reflexivity.
  - rewrite Hok, IH. reflexivity.
Qed.

(** X3: when the queue listing is answered and no statement fails, start-up
    drops and creates the table and inserts one row per tracked pair, named
    after the last listed queue of that ID, in the order in which every later
    cycle updates them. *)
Theorem X3_table_seeded_with_tracked_keys
    (st : Startup) (cfg : AppConfig) (entities : list (string * string)) :
  GetListOfQueues st = inl entities ->
  (forall stmt, startupExec st stmt = None) ->
  snd (prepareDbTables st cfg) = None /\
  execsOf (fst (prepareDbTables st cfg)) =
    DropTable queueStatsTable :: CreateTable queueStatsTable
      :: map (fun key =>
                InsertRow queueStatsTable (fst key)
                  (queueName entities (fst key)) (snd key))
             (trackedKeys cfg).
Proof.
  intros Hq Hok. unfold prepareDbTables, getPureCloudQueues.
  rewrite Hq, Hok, (insertRows_ok _ _ _ Hok). cbn [fst snd]. split; [reflexivity|].
  cbn [app execsOf flat_map]. f_equal. f_equal.
  induction (trackedKeys cfg) as [|key keys IH]; [reflexivity|].
  cbn [map flat_map app]. f_equal. exact IH.
Qed.

Lemma X3_table_seeded_with_tracked_keys_witness :
  snd (prepareDbTables (startupOf configQ1) configQ1) = None /\
  execsOf (fst (prepareDbTables (startupOf configQ1) configQ1)) =
  [ DropTable "QueueStats"; CreateTable "QueueStats";
    InsertRow "QueueStats" "Q1" "Sales" "voice";
    InsertRow "QueueStats" "Q1" "Sales" "chat";
    InsertRow "QueueStats" "Q1" "Sales" "email" ].
Proof.
  exact (X3_table_seeded_with_tracked_keys (startupOf configQ1) configQ1
           [ ("Q1", "Sales") ] eq_refl (fun _ => eq_refl)).
Defined.

(** ** What a cycle sends and executes, whatever happens *)

Lemma updateOf_Ok aggResp obsResp (key : string * string) (l : Locals) :
  reconcileKey aggResp obsResp (fst key) (snd key) = Ok l ->
  UpdateRow queueStatsTable l (fst key) (snd key) = updateOf aggResp obsResp key.
Proof. intros H. unfold updateOf, rowOf. rewrite H. reflexivity. Qed.

(** The update loop, however it ends: the UPDATEs of the first [n] pairs, in
    order, and lines of output. *)
Lemma forRange_updateKey_shape env aggResp obsResp
    (keys : list (string * string)) (done : list SqlStmt) :
  let loop :=
    forRange (fun key => updateKey env aggResp obsResp (fst key) (snd key))
      keys done in
  exists n,
    (n <= List.length keys)%nat /\
    execsOf (fst loop) = map (updateOf aggResp obsResp) (firstn n keys) /\
    forallb isUpdateEvent (fst loop) = true /\
    (forall done', snd loop = Next done' -> n = List.length keys) /\
    snd loop <> Leave (Returned None).
Proof.
  cbv zeta. revert done. induction keys as [|key keys IH]; intros done.
  - exists 0%nat. cbn. repeat split; auto. discriminate.
  - cbn [forRange]. unfold updateKey at 1 3 5 7.
    destruct (reconcileKey aggResp obsResp (fst key) (snd key)) as [l|msg] eqn:Hk.
    + rewrite (updateOf_Ok _ _ _ _ Hk).
      destruct (Exec env done (updateOf aggResp obsResp key)) as [err|].
      * exists 1%nat. cbn. repeat split; [lia|discriminate|discriminate].
      * destruct (IH (done ++ [ updateOf aggResp obsResp key ]))
          as (n & Hn & Hex & Hall & Hnext & Hleave).
        destruct (forRange _ keys _) as [tr f]. cbn [fst snd] in *.
        exists (S n). cbn [List.length firstn map app execsOf flat_map].
        repeat split.
        -- lia.
        -- fold (execsOf tr). rewrite Hex. reflexivity.
        -- cbn. exact Hall.
        -- intros done' Hd. rewrite (Hnext _ Hd). reflexivity.
        -- exact Hleave.
    + exists 0%nat. cbn. repeat split; [lia|discriminate|discriminate].
Qed.

Lemma filter_isQuery_updates (tr : list Event) :
  forallb isUpdateEvent tr = true -> filter isQuery tr = [].
Proof.
  induction tr as [|ev tr IH]; [reflexivity|]. cbn [forallb filter].
  intros H. apply andb_true_iff in H. destruct H as [Hev Htr].
  destruct ev as [o|q|q|stmt|tick]; try discriminate Hev; cbn; auto.
Qed.

(** X4: whatever the provider answers and whatever the database does, and
    however the cycle ends, the statements a cycle executes are UPDATEs of the
    rows of the first [n] tracked pairs, one each and in loop order; a cycle
    that returns no error has updated every tracked pair. *)
Theorem X4_cycle_updates_a_prefix
    (cfg : AppConfig) (env : Env) (startInterval endInterval : Time) :
  let cycle := queryAndWriteQueueStatsToDb cfg env startInterval endInterval in
  exists n,
    (n <= List.length (trackedKeys cfg))%nat /\
    map keyOf (execsOf (fst cycle)) = map Some (firstn n (trackedKeys cfg)) /\
    (forall stmt, In stmt (execsOf (fst cycle)) ->
       exists l queueID mediaType,
         stmt = UpdateRow queueStatsTable l queueID mediaType) /\
    (snd cycle = Returned None -> n = List.length (trackedKeys cfg)).
Proof.
  cbv zeta. unfold queryAndWriteQueueStatsToDb, queryQueueIntervalStats. cbv zeta.
  destruct (QueryConversationAggregates env _) as [aggResp|err].
  2:{ exists 0%nat. cbn. repeat split; [lia|contradiction|discriminate]. }
  destruct (QueryQueueObservations env _) as [obsResp|err].
  2:{ exists 0%nat. cbn. repeat split; [lia|contradiction|discriminate]. }
  rewrite forRange_nested. fold (trackedKeys cfg).
  destruct (forRange_updateKey_shape env aggResp obsResp (trackedKeys cfg) [])
    as (n & Hn & Hex & _ & Hnext & Hleave).
  assert (Hupd : forall stmt,
    In stmt (map (updateOf aggResp obsResp) (firstn n (trackedKeys cfg))) ->
    exists l queueID mediaType,
      stmt = UpdateRow queueStatsTable l queueID mediaType).
  { intros stmt Hin. apply in_map_iff in Hin. destruct Hin as (key & <- & _).
    eexists. eexists. eexists. reflexivity. }
  exists n.
  destruct (forRange _ (trackedKeys cfg) []) as [tr [d|x]]; cbn [fst snd] in *;
    rewrite execsOf_app, Hex; cbn [execsOf flat_map app];
    (split; [exact Hn|]); (split; [apply keyOf_updateOf|]);
    (split; [exact Hupd|]).
  - intros _. apply (Hnext d). reflexivity.
  - intros ->. contradiction Hleave. reflexivity.
Qed.

(** X5: every cycle sends the aggregate query first and exactly once; it
    sends the observation query, with the filter of the aggregate query, once
    and only when the aggregate query was answered; it sends nothing else. *)
Theorem X5_cycle_sends_its_two_queries
    (cfg : AppConfig) (env : Env) (startInterval endInterval : Time) :
  let q := aggQuery cfg env startInterval endInterval in
  filter isQuery
    (fst (queryAndWriteQueueStatsToDb cfg env startInterval endInterval)) =
  match QueryConversationAggregates env q with
  | inr _ => [ AggregateQuerySent q ]
  | inl _ =>
      [ AggregateQuerySent q;
        ObservationQuerySent {| obs_Filter := agg_Filter q |} ]
  end.
Proof.
  cbv zeta. unfold queryAndWriteQueueStatsToDb, queryQueueIntervalStats. cbv zeta.
  destruct (QueryConversationAggregates env _) as [aggResp|err]; [|reflexivity].
  destruct (QueryQueueObservations env _) as [obsResp|err]; [|reflexivity].
  rewrite forRange_nested. fold (trackedKeys cfg).
  destruct (forRange_updateKey_shape env aggResp obsResp (trackedKeys cfg) [])
    as (n & _ & _ & Hall & _).
  destruct (forRange _ (trackedKeys cfg) []) as [tr [d|x]]; cbn [fst snd] in *;
    rewrite filter_app, (filter_isQuery_updates _ Hall); reflexivity.
Qed.

(** ** The ticker loop over many ticks *)

Lemma pollLoop_cons (cfg : AppConfig) (tk : Tick) (rest : list Tick) :
  pollLoop cfg (tk :: rest) =
  match
    queryAndWriteQueueStatsToDb cfg (tickEnv tk)
      (fst (currentInterval cfg (Now tk))) (snd (currentInterval cfg (Now tk)))
  with
  | (tr, Panicked msg) => (tr, Some msg)
  | (tr, Returned (Some err)) =>
      (tr ++ Printed (OutTickError (Format (tickEnv tk) (t tk)) err)
          :: fst (pollLoop cfg rest),
       snd (pollLoop cfg rest))
  | (tr, Returned None) =>
      (tr ++ fst (pollLoop cfg rest), snd (pollLoop cfg rest))
  end.
Proof.
  cbn [pollLoop]. unfold currentInterval. cbn [fst snd].
  destruct (queryAndWriteQueueStatsToDb _ _ _ _) as [tr [[err|]|msg]];
    destruct (pollLoop cfg rest); reflexivity.
Qed.

(** X6: the ticks are handled one after the other and independently: the
    loop over two runs of ticks is the loop over the first followed by the
    loop over the second, unless the first ends in a panic, after which
    nothing of the second happens. *)
Theorem X6_pollLoop_composes (cfg : AppConfig) (ticks1 ticks2 : list Tick) :
  pollLoop cfg (ticks1 ++ ticks2) =
  match pollLoop cfg ticks1 with
  | (tr, Some msg) => (tr, Some msg)
  | (tr, None) =>
      (tr ++ fst (pollLoop cfg ticks2), snd (pollLoop cfg ticks2))
  end.
Proof.
  induction ticks1 as [|tk ticks1 IH].
  - cbn [app pollLoop]. destruct (pollLoop cfg ticks2). reflexivity.
  - rewrite <- app_comm_cons, !pollLoop_cons, IH.
    destruct (queryAndWriteQueueStatsToDb _ _ _ _) as [tr [[err|]|msg]];
      [| |reflexivity];
      destruct (pollLoop cfg ticks1) as [tr1 [msg1|]]; cbn [fst snd];
      try reflexivity; rewrite <- ?app_assoc, <- ?app_comm_cons; reflexivity.
Qed.

Lemma cycle_one_aggregate_query
    (cfg : AppConfig) (env : Env) (startInterval endInterval : Time) :
  List.length
    (filter isAggregateQuery
       (fst (queryAndWriteQueueStatsToDb cfg env startInterval endInterval)))
  = 1%nat.
Proof.
  unfold queryAndWriteQueueStatsToDb, queryQueueIntervalStats. cbv zeta.
  destruct (QueryConversationAggregates env _) as [aggResp|err]; [|reflexivity].
  destruct (QueryQueueObservations env _) as [obsResp|err]; [|reflexivity].
  rewrite forRange_nested. fold (trackedKeys cfg).
  destruct (forRange_updateKey_shape env aggResp obsResp (trackedKeys cfg) [])
    as (n & _ & _ & Hall & _).
  assert (Hnone : forall tr,
    forallb isUpdateEvent tr = true -> filter isAggregateQuery tr = []).
  { induction tr as [|ev tr IH]; [reflexivity|]. cbn [forallb filter].
    intros H. apply andb_true_iff in H. destruct H as [Hev Htr].
    destruct ev as [o|q|q|stmt|tick]; try discriminate Hev; cbn; auto. }
  destruct (forRange _ (trackedKeys cfg) []) as [tr [d|x]]; cbn [fst snd] in *;
    rewrite filter_app, (Hnone _ Hall); reflexivity.
Qed.

(** X7: the loop polls at most once per tick, and exactly once per tick
    when no cycle panics: the number of aggregate queries sent is then the
    number of ticks, whatever errors the cycles return. *)
Theorem X7_one_poll_per_tick (cfg : AppConfig) (ticks : list Tick) :
  let sent :=
    List.length (filter isAggregateQuery (fst (pollLoop cfg ticks))) in
  (sent <= List.length ticks)%nat /\
  (snd (pollLoop cfg ticks) = None -> sent = List.length ticks).
Proof.
  cbv zeta. induction ticks as [|tk ticks [IHle IHeq]]; [split; reflexivity|].
  rewrite pollLoop_cons.
  pose proof (cycle_one_aggregate_query cfg (tickEnv tk)
                (fst (currentInterval cfg (Now tk)))
                (snd (currentInterval cfg (Now tk)))) as Hone.
  destruct (queryAndWriteQueueStatsToDb _ _ _ _) as [tr [[err|]|msg]];
    cbn [fst snd List.length] in *.
  - rewrite filter_app, length_app, Hone. cbn [filter isAggregateQuery].
    split; [lia|]. intros H. rewrite (IHeq H). reflexivity.
  - rewrite filter_app, length_app, Hone.
    split; [lia|]. intros H. rewrite (IHeq H). reflexivity.
  - rewrite Hone. split; [lia|discriminate].
Qed.

Lemma WritesSucceed_cons_intro env aggResp obsResp (done : list SqlStmt) key keys :
  Exec env done (updateOf aggResp obsResp key) = None ->
  WritesSucceed env aggResp obsResp (done ++ [ updateOf aggResp obsResp key ]) keys ->
  WritesSucceed env aggResp obsResp done (key :: keys).
Proof.
  intros He Hw before k after Heq. destruct before as [|k0 before].
  - injection Heq as <- _. cbn [map]. rewrite app_nil_r. exact He.
  - injection Heq as <- ->. cbn [map].
    specialize (Hw before k after eq_refl). rewrite <- app_assoc in Hw. exact Hw.
Qed.

(** A loop that panics does so at the first pair that is not recognized,
    after the UPDATE of every pair before it has succeeded. *)
Lemma forRange_updateKey_Panicked env aggResp obsResp
    (keys : list (string * string)) (done : list SqlStmt) (msg : string) :
  snd (forRange (fun key => updateKey env aggResp obsResp (fst key) (snd key))
         keys done) = Leave (Panicked msg) ->
  exists before key after,
    keys = before ++ key :: after /\
    Forall (Recognized aggResp obsResp) before /\
    WritesSucceed env aggResp obsResp done before /\
    reconcileKey aggResp obsResp (fst key) (snd key) = Panic msg.
Proof.
  revert done. induction keys as [|key keys IH]; intros done; cbn [forRange].
  - discriminate.
  - unfold updateKey at 1.
    destruct (reconcileKey aggResp obsResp (fst key) (snd key)) as [l|m] eqn:Hk.
    + pose proof (reconcileKey_Ok_recognized _ _ _ _ Hk) as Hr.
      rewrite (reconcileKey_rowOf _ _ _ Hr) in Hk. injection Hk as <-.
      fold (updateOf aggResp obsResp key).
      destruct (Exec env done _) eqn:He; [discriminate|].
      specialize (IH (done ++ [ updateOf aggResp obsResp key ])).
      destruct (forRange _ keys _) as [tr [d|x]]; cbn [snd] in *; [discriminate|].
      intros H. destruct (IH H) as (before & k & after & -> & Hb & Hw & Hp).
      exists (key :: before), k, after. repeat split.
      * constructor; assumption.
      * apply WritesSucceed_cons_intro; assumption.
      * exact Hp.
    + cbn [snd]. intros [= ->]. exists [], key, keys. repeat split.
      * constructor.
      * intros before k after Heq. destruct before; discriminate Heq.
      * exact Hk.
Qed.

(** A cycle panics only after both queries have been answered. *)
Lemma cycle_Panicked (cfg : AppConfig) (env : Env)
    (startInterval endInterval : Time) (msg : string) :
  snd (queryAndWriteQueueStatsToDb cfg env startInterval endInterval)
    = Panicked msg ->
  exists aggResp obsResp,
    Answered cfg env startInterval endInterval aggResp obsResp /\
    snd (forRange (fun key => updateKey env aggResp obsResp (fst key) (snd key))
           (trackedKeys cfg) []) = Leave (Panicked msg).
Proof.
  intros H.
  destruct (QueryConversationAggregates env
              (aggQuery cfg env startInterval endInterval))
    as [aggResp|err] eqn:Ha.
  - destruct (QueryQueueObservations env
                (obsQuery (aggQuery cfg env startInterval endInterval)))
      as [obsResp|err] eqn:Ho.
    + exists aggResp, obsResp.
      assert (Hans : Answered cfg env startInterval endInterval aggResp obsResp)
        by (split; assumption).
      split; [exact Hans|].
      rewrite (cycle_answered _ _ _ _ _ _ Hans) in H.
      destruct (forRange _ (trackedKeys cfg) []) as [tr [d|x]]; cbn [snd] in *;
        [discriminate|congruence].
    + exfalso. revert H.
      unfold queryAndWriteQueueStatsToDb, queryQueueIntervalStats. cbv zeta.
      rewrite Ha, Ho. discriminate.
  - exfalso. revert H.
    unfold queryAndWriteQueueStatsToDb, queryQueueIntervalStats. cbv zeta.
    rewrite Ha. discriminate.
Qed.

(** A ticker loop that ends in a panic does so in the cycle of one tick,
    every tick before it having been handled without one. *)
Lemma pollLoop_Some (cfg : AppConfig) (ticks : list Tick) (msg : string) :
  snd (pollLoop cfg ticks) = Some msg ->
  exists handled tk later,
    ticks = handled ++ tk :: later /\
    snd (pollLoop cfg handled) = None /\
    snd (queryAndWriteQueueStatsToDb cfg (tickEnv tk)
           (fst (currentInterval cfg (Now tk)))
           (snd (currentInterval cfg (Now tk)))) = Panicked msg.
Proof.
  induction ticks as [|tk ticks IH]; [discriminate|].
  rewrite pollLoop_cons.
  destruct (queryAndWriteQueueStatsToDb cfg (tickEnv tk) _ _)
    as [tr [[err|]|m]] eqn:Hc; cbn [snd].
  - intros H. destruct (IH H) as (handled & tk' & later & -> & Hh & Hp).
    exists (tk :: handled), tk', later. repeat split; [|exact Hp].
    rewrite pollLoop_cons, Hc. exact Hh.
  - intros H. destruct (IH H) as (handled & tk' & later & -> & Hh & Hp).
    exists (tk :: handled), tk', later. repeat split; [|exact Hp].
    rewrite pollLoop_cons, Hc. exact Hh.
  - intros [= ->]. exists [], tk, ticks. repeat split. rewrite Hc. reflexivity.
Qed.

(** X8: a panic raised by the program traces back to a response.  When
    [main] ends in a panic, the configuration had been loaded without an
    error, some tick was reached with no panic in the ticks before it, both
    queries of that tick were answered, and the message is [Unrecognized
    metric] followed by the name of the first unrecognized metric of the
    first tracked pair that has one in those responses, the rows of all
    pairs before it having been updated. *)
Theorem X8_crash_names_first_unrecognized_metric
    (st : Startup) (ticks : list Tick) (msg : string) :
  snd (main st ticks) = Crashed msg ->
  exists cfg handled tk later aggResp obsResp before key after m,
    loadAppConfig st configFile = (cfg, None) /\
    ticks = handled ++ tk :: later /\
    snd (pollLoop cfg handled) = None /\
    Answered cfg (tickEnv tk) (fst (currentInterval cfg (Now tk)))
      (snd (currentInterval cfg (Now tk))) aggResp obsResp /\
    trackedKeys cfg = before ++ key :: after /\
    Forall (Recognized aggResp obsResp) before /\
    WritesSucceed (tickEnv tk) aggResp obsResp [] before /\
    FirstUnrecognized aggResp obsResp key m /\
    msg = ("Unrecognized metric " ++ Metric m)%string.
Proof.
  unfold main.
  destruct (loadAppConfig st configFile) as [cfg [err|]] eqn:Hload;
    [discriminate|].
  destruct (sql_Open st (OdbcDsn cfg)); [discriminate|].
  destruct (db_Ping st); [discriminate|].
  destruct (loginToPureCloud st cfg) as [tr1 [err|]]; [discriminate|].
  destruct (prepareDbTables st cfg) as [tr2 [err|]]; [discriminate|].
  cbv zeta.
  pose proof (pollLoop_Some cfg ticks) as Hloop.
  destruct (pollLoop cfg ticks) as [tr3 [m0|]]; cbn [fst snd] in *;
    [|discriminate].
  intros [= <-].
  destruct (Hloop m0 eq_refl) as (handled & tk & later & Hticks & Hh & Hc).
  destruct (cycle_Panicked _ _ _ _ _ Hc) as (aggResp & obsResp & Hans & Hf).
  destruct (forRange_updateKey_Panicked _ _ _ _ _ _ Hf)
    as (before & key & after & Hkeys & Hb & Hw & Hp).
  assert (Hn : ~ Recognized aggResp obsResp key).
  { intros Hr. rewrite (reconcileKey_rowOf _ _ _ Hr) in Hp. discriminate Hp. }
  destruct (reconcileKey_first_unrecognized _ _ _ Hn) as (m & Hm & Hpanic).
  rewrite Hp in Hpanic. injection Hpanic as ->.
  exists cfg, handled, tk, later, aggResp, obsResp, before, key, after, m.
  split; [reflexivity|]. split; [exact Hticks|]. split; [exact Hh|].
  split; [exact Hans|]. split; [exact Hkeys|]. split; [exact Hb|].
  split; [exact Hw|]. split; [exact Hm|]. reflexivity.
Qed.

Lemma X8_crash_names_first_unrecognized_metric_witness :
  exists cfg handled tk later aggResp obsResp before key after m,
    loadAppConfig (startupOf configQ1) configFile = (cfg, None) /\
    fineThenUnseen = handled ++ tk :: later /\
    snd (pollLoop cfg handled) = None /\
    Answered cfg (tickEnv tk) (fst (currentInterval cfg (Now tk)))
      (snd (currentInterval cfg (Now tk))) aggResp obsResp /\
    trackedKeys cfg = before ++ key :: after /\
    Forall (Recognized aggResp obsResp) before /\
    WritesSucceed (tickEnv tk) aggResp obsResp [] before /\
    FirstUnrecognized aggResp obsResp key m /\
    "Unrecognized metric nFlowOut" = ("Unrecognized metric " ++ Metric m)%string.
Proof.
  exact (X8_crash_names_first_unrecognized_metric (startupOf configQ1)
           fineThenUnseen "Unrecognized metric nFlowOut" eq_refl).
Defined.

(** ** Intervals over time *)

Lemma Truncate_within (now now' : Time) (d : Duration) :
  0 < d ->
  Truncate now d <= now' < Truncate now d + d ->
  Truncate now' d = Truncate now d.
Proof.
  intros Hd Hin.
  destruct (Truncate_spec now d Hd) as [Hs _].
  destruct (Truncate_spec now' d Hd) as [Hs' Hb'].
  rewrite Hs in *. rewrite Hs' in *.
  assert (now' / d = now / d) by nia. congruence.
Qed.

(** X9: with a supported granularity the intervals tile the time line:
    every instant of an interval has that same interval, the instant at which
    an interval ends starts the next one, and a later instant never has an
    earlier interval. *)
Theorem X9_intervals_tile (cfg : AppConfig) (g : Duration) (now now' : Time) :
  lookup (cfg_Granularity cfg) supportedGranularity = Some g ->
  let startInterval := fst (currentInterval cfg now) in
  let endInterval := snd (currentInterval cfg now) in
  (startInterval <= now' < endInterval ->
     currentInterval cfg now' = (startInterval, endInterval)) /\
  currentInterval cfg endInterval = (endInterval, endInterval + g) /\
  (now <= now' -> startInterval <= fst (currentInterval cfg now')) /\
  (endInterval <= now' -> endInterval <= fst (currentInterval cfg now')).
Proof.
  intros Hg. unfold currentInterval, granularityDuration. rewrite Hg.
  cbn [fst snd]. unfold Add.
  pose proof (supportedGranularity_values _ _ Hg) as Hv.
  assert (Hpos : 0 < g) by (destruct Hv; subst g; reflexivity).
  destruct (Truncate_spec now g Hpos) as [Hs Hb].
  destruct (Truncate_spec now' g Hpos) as [Hs' Hb'].
  repeat apply conj.
  - intros Hin. rewrite (Truncate_within now now' g Hpos Hin). reflexivity.
  - assert (He : Truncate (Truncate now g + g) g = Truncate now g + g).
    { destruct (Truncate_spec (Truncate now g + g) g Hpos) as [He _].
      rewrite He, Hs.
      replace (g * (now / g) + g) with ((now / g + 1) * g) by nia.
      rewrite Z.div_mul by lia. nia. }
    rewrite He. reflexivity.
  - intros Hle. rewrite Hs, Hs'.
    apply Z.mul_le_mono_nonneg_l; [lia|]. apply Z.div_le_mono; lia.
  - intros Hle. rewrite Hs' in *. rewrite Hs in *.
    assert (now / g + 1 <= now' / g).
    { apply Z.div_le_lower_bound; [lia|]. lia. }
    nia.
Qed.

Lemma X9_intervals_tile_witness :
  (3600 * Second <= 5399 * Second < 5400 * Second ->
     currentInterval configQ1 (5399 * Second) = (3600 * Second, 5400 * Second)) /\
  currentInterval configQ1 (5400 * Second) = (5400 * Second, 7200 * Second).
Proof.
  destruct (X9_intervals_tile configQ1 (30 * Minute) (5000 * Second)
              (5399 * Second) eq_refl) as (Hin & Hnext & _).
  split; [exact Hin|exact Hnext].
Defined.

(** X10: the interval of a granularity token outside the map is empty: the
    lookup gives the zero duration, [Truncate] leaves the instant as it is and
    the end is the start. *)
Theorem X10_unsupported_granularity_empty_interval
    (cfg : AppConfig) (now : Time) :
  ~ In (cfg_Granularity cfg) [ "PT30M"; "PT60M"; "PT1H" ] ->
  granularityDuration (cfg_Granularity cfg) = 0 /\
  currentInterval cfg now = (now, now).
Proof.
  intros Hno. rewrite <- supportedGranularity_tokens in Hno.
  unfold currentInterval, granularityDuration.
  destruct (lookup (cfg_Granularity cfg) supportedGranularity) as [d|].
  - contradiction Hno. discriminate.
  - split; [reflexivity|]. unfold Truncate, Add. cbn. rewrite Z.add_0_r.
    reflexivity.
Qed.

Lemma X10_unsupported_granularity_empty_interval_witness :
  granularityDuration "PT15M" = 0 /\
  currentInterval (configOf "PT15M" 10 [ "Q1" ]) (5000 * Second)
    = (5000 * Second, 5000 * Second).
Proof.
  apply (X10_unsupported_granularity_empty_interval
           (configOf "PT15M" 10 [ "Q1" ]) (5000 * Second)).
  cbn. intros [H|[H|[H|[]]]]; discriminate H.
Defined.

(** ** The last metric written to a variable *)

Lemma obsRegistry_written (name : string) (r : Rule) (s : StatisticalSummary)
    (l : Locals) :
  lookup name obsRegistry = Some r ->
  (forall v y, In (v, y) (intWrites r s) -> ints (applyRule r s l) v = y) /\
  (forall v y, In (v, y) (floatWrites r s) -> floats (applyRule r s l) v = y).
Proof.
  unfold obsRegistry. cbn [lookup].
  each_name name
    ltac:(intros [= <-]; split; intros v y Hin; cbn in Hin;
          repeat (destruct Hin as [[= <- <-]|Hin]); try contradiction;
          reflexivity).
  discriminate.
Qed.

Section LastWriter.

Variable registry : list (string * Rule).
Hypothesis registry_written :
  forall name r s l,
    lookup name registry = Some r ->
    (forall v y, In (v, y) (intWrites r s) -> ints (applyRule r s l) v = y) /\
    (forall v y, In (v, y) (floatWrites r s) -> floats (applyRule r s l) v = y).

Let intStep (v : IntVar) (acc : option Z) (m : MetricData) : option Z :=
  match lookup (Metric m) registry with
  | Some r =>
      match find (fun w => if IntVar_eq_dec (fst w) v then true else false)
                 (intWrites r (Stats m)) with
      | Some w => Some (snd w)
      | None => acc
      end
  | None => acc
  end.

Let floatStep (v : FloatVar) (acc : option float) (m : MetricData)
    : option float :=
  match lookup (Metric m) registry with
  | Some r =>
      match find (fun w => if FloatVar_eq_dec (fst w) v then true else false)
                 (floatWrites r (Stats m)) with
      | Some w => Some (snd w)
      | None => acc
      end
  | None => acc
  end.

Lemma applyKnown_int_step (m : MetricData) (l : Locals) (v : IntVar) :
  ints (applyKnown registry l m) v =
  match intStep v None m with Some x => x | None => ints l v end.
Proof.
  unfold applyKnown, intStep.
  destruct (lookup (Metric m) registry) as [r|] eqn:Hr; [|reflexivity].
  destruct (registry_written _ _ (Stats m) l Hr) as [Hw _].
  destruct (find _ (intWrites r (Stats m))) as [[v' y]|] eqn:Hf.
  - apply find_some in Hf. destruct Hf as [Hin Hv]. cbn [fst snd] in *.
    destruct (IntVar_eq_dec v' v) as [->|]; [|discriminate]. apply Hw, Hin.
  - destruct (applyRule_ints r (Stats m) l v) as [H|H]; [exact H|].
    apply (find_none _ _ Hf) in H. cbn [fst] in H.
    destruct (IntVar_eq_dec v v); [discriminate|contradiction].
Qed.

Lemma applyKnown_float_step (m : MetricData) (l : Locals) (v : FloatVar) :
  floats (applyKnown registry l m) v =
  match floatStep v None m with Some x => x | None => floats l v end.
Proof.
  unfold applyKnown, floatStep.
  destruct (lookup (Metric m) registry) as [r|] eqn:Hr; [|reflexivity].
  destruct (registry_written _ _ (Stats m) l Hr) as [_ Hw].
  destruct (find _ (floatWrites r (Stats m))) as [[v' y]|] eqn:Hf.
  - apply find_some in Hf. destruct Hf as [Hin Hv]. cbn [fst snd] in *.
    destruct (FloatVar_eq_dec v' v) as [->|]; [|discriminate]. apply Hw, Hin.
  - destruct (applyRule_floats r (Stats m) l v) as [H|H]; [exact H|].
    apply (find_none _ _ Hf) in H. cbn [fst] in H.
    destruct (FloatVar_eq_dec v v); [discriminate|contradiction].
Qed.

Lemma intStep_acc (v : IntVar) (ms : list MetricData) (acc : option Z) :
  fold_left (intStep v) ms acc =
  match fold_left (intStep v) ms None with Some x => Some x | None => acc end.
Proof.
  revert acc. induction ms as [|m ms IH]; intros acc; cbn [fold_left].
  - reflexivity.
  - rewrite (IH (intStep v acc m)), (IH (intStep v None m)).
    destruct (fold_left (intStep v) ms None); [reflexivity|].
    unfold intStep. destruct (lookup (Metric m) registry); [|reflexivity].
    destruct (find _ _); reflexivity.
Qed.

Lemma floatStep_acc (v : FloatVar) (ms : list MetricData) (acc : option float) :
  fold_left (floatStep v) ms acc =
  match fold_left (floatStep v) ms None with Some x => Some x | None => acc end.
Proof.
  revert acc. induction ms as [|m ms IH]; intros acc; cbn [fold_left].
  - reflexivity.
  - rewrite (IH (floatStep v acc m)), (IH (floatStep v None m)).
    destruct (fold_left (floatStep v) ms None); [reflexivity|].
    unfold floatStep. destruct (lookup (Metric m) registry); [|reflexivity].
    destruct (find _ _); reflexivity.
Qed.

Lemma lastInt_spec (ms : list MetricData) (l : Locals) (v : IntVar) :
  ints (fold_left (applyKnown registry) ms l) v =
  match lastInt registry ms v with Some x => x | None => ints l v end.
Proof.
  unfold lastInt. change (fun acc m => _) with (intStep v).
  revert l. induction ms as [|m ms IH]; intros l; cbn [fold_left].
  - reflexivity.
  - rewrite IH, (intStep_acc v ms (intStep v None m)).
    destruct (fold_left (intStep v) ms None); [reflexivity|].
    apply applyKnown_int_step.
Qed.

Lemma lastFloat_spec (ms : list MetricData) (l : Locals) (v : FloatVar) :
  floats (fold_left (applyKnown registry) ms l) v =
  match lastFloat registry ms v with Some x => x | None => floats l v end.
Proof.
  unfold lastFloat. change (fun acc m => _) with (floatStep v).
  revert l. induction ms as [|m ms IH]; intros l; cbn [fold_left].
  - reflexivity.
  - rewrite IH, (floatStep_acc v ms (floatStep v None m)).
    destruct (fold_left (floatStep v) ms None); [reflexivity|].
    apply applyKnown_float_step.
Qed.

(** What [lastInt] finds was written by the rule of one of the metrics. *)
Lemma lastInt_from (ms : list MetricData) (v : IntVar) (x : Z) :
  lastInt registry ms v = Some x -> IntFrom registry ms v x.
Proof.
  unfold lastInt. change (fun acc m => _) with (intStep v).
  induction ms as [|m ms IH] using rev_ind; [discriminate|].
  rewrite fold_left_app. cbn [fold_left]. unfold intStep at 1.
  destruct (lookup (Metric m) registry) as [r|] eqn:Hr.
  - destruct (find _ (intWrites r (Stats m))) as [[v' y]|] eqn:Hf.
    + intros [= <-]. apply find_some in Hf. destruct Hf as [Hin Hv].
      cbn [fst snd] in *. destruct (IntVar_eq_dec v' v) as [->|]; [|discriminate].
      exists m, r. repeat split; [apply in_elt|exact Hr|exact Hin].
    + intros H. destruct (IH H) as (m' & r' & Hin & Hr' & Hw).
      exists m', r'. repeat split; [apply in_or_app; left; exact Hin|exact Hr'|exact Hw].
  - intros H. destruct (IH H) as (m' & r' & Hin & Hr' & Hw).
    exists m', r'. repeat split; [apply in_or_app; left; exact Hin|exact Hr'|exact Hw].
Qed.

Lemma lastFloat_from (ms : list MetricData) (v : FloatVar) (x : float) :
  lastFloat registry ms v = Some x -> FloatFrom registry ms v x.
Proof.
  unfold lastFloat. change (fun acc m => _) with (floatStep v).
  induction ms as [|m ms IH] using rev_ind; [discriminate|].
  rewrite fold_left_app. cbn [fold_left]. unfold floatStep at 1.
  destruct (lookup (Metric m) registry) as [r|] eqn:Hr.
  - destruct (find _ (floatWrites r (Stats m))) as [[v' y]|] eqn:Hf.
    + intros [= <-]. apply find_some in Hf. destruct Hf as [Hin Hv].
      cbn [fst snd] in *.
      destruct (FloatVar_eq_dec v' v) as [->|]; [|discriminate].
      exists m, r. repeat split; [apply in_elt|exact Hr|exact Hin].
    + intros H. destruct (IH H) as (m' & r' & Hin & Hr' & Hw).
      exists m', r'. repeat split; [apply in_or_app; left; exact Hin|exact Hr'|exact Hw].
  - intros H. destruct (IH H) as (m' & r' & Hin & Hr' & Hw).
    exists m', r'. repeat split; [apply in_or_app; left; exact Hin|exact Hr'|exact Hw].
Qed.

End LastWriter.

Lemma lastFloat_obs_None (ms : list MetricData) (v : FloatVar) :
  lastFloat obsRegistry ms v = None.
Proof.
  destruct (lastFloat obsRegistry ms v) as [x|] eqn:H; [|reflexivity].
  apply lastFloat_from in H. destruct H as (m & r & _ & Hr & Hin).
  destruct (obsRegistry_writes _ _ (Stats m) Hr) as [Hnil _].
  rewrite Hnil in Hin. destruct Hin.
Qed.

Lemma lastInt_obs_None (ms : list MetricData) (v : IntVar) :
  v <> oInteracting -> v <> oWaiting -> lastInt obsRegistry ms v = None.
Proof.
  intros H1 H2. destruct (lastInt obsRegistry ms v) as [x|] eqn:H; [|reflexivity].
  apply lastInt_from in H. destruct H as (m & r & _ & Hr & Hin).
  destruct (obsRegistry_writes _ _ (Stats m) Hr) as [_ Hv].
  destruct (Hv _ _ Hin); contradiction.
Qed.

Lemma lastInt_agg_None (ms : list MetricData) (v : IntVar) :
  v = oInteracting \/ v = oWaiting -> lastInt aggRegistry ms v = None.
Proof.
  intros Hv. destruct (lastInt aggRegistry ms v) as [x|] eqn:H; [|reflexivity].
  apply lastInt_from in H. destruct H as (m & r & _ & Hr & Hin).
  destruct (aggRegistry_writes _ _ (Stats m) Hr _ _ Hin) as [H1 H2].
  destruct Hv; contradiction.
Qed.

(** X11: in the row of a pair whose dispatched metrics are all recognized,
    every variable holds the statistic written by the last dispatched metric
    that is mapped to it, and zero when none is: the observation metrics come
    after the aggregate ones, and within the aggregate grouping the metrics
    follow response order across all data buckets. *)
Theorem X11_row_is_last_writer aggResp obsResp (key : string * string) :
  Recognized aggResp obsResp key ->
  let l := rowOf aggResp obsResp key in
  let aggMs := usedAggMetrics aggResp (fst key) (snd key) in
  let obsMs := usedObsMetrics obsResp (fst key) (snd key) in
  (forall v,
     ints l v =
     match lastInt obsRegistry obsMs v with
     | Some x => x
     | None =>
         match lastInt aggRegistry aggMs v with
         | Some x => x
         | None => 0
         end
     end) /\
  (forall v,
     floats l v =
     match lastFloat aggRegistry aggMs v with
     | Some x => x
     | None => 0%float
     end).
Proof.
  intros Hrec. cbv zeta. unfold rowOf.
  rewrite (reconcileKey_recognized _ _ _ Hrec). split; intros v.
  - rewrite (lastInt_spec obsRegistry obsRegistry_written).
    rewrite (lastInt_spec aggRegistry aggRegistry_written). reflexivity.
  - rewrite (lastFloat_spec obsRegistry obsRegistry_written).
    rewrite lastFloat_obs_None.
    rewrite (lastFloat_spec aggRegistry aggRegistry_written). reflexivity.
Qed.

Lemma X11_row_is_last_writer_witness :
  ints (rowOf twoBuckets waitingObs ("Q1", "voice")) nOffered = 2 /\
  ints (rowOf twoBuckets waitingObs ("Q1", "voice")) oWaiting = 2 /\
  floats (rowOf twoBuckets waitingObs ("Q1", "voice")) tAnswered = 0%float.
Proof.
  assert (Hrec : Recognized twoBuckets waitingObs ("Q1", "voice")).
  { eapply reconcileKey_Ok_recognized. vm_compute. reflexivity. }
  destruct (X11_row_is_last_writer twoBuckets waitingObs ("Q1", "voice") Hrec)
    as [Hi Hf].
  split; [rewrite Hi; reflexivity|].
  split; [rewrite Hi; reflexivity|rewrite Hf; reflexivity].
Defined.

(** X12: the two responses fill disjoint parts of a row.  The interacting
    and waiting counts are decided by the observation metrics of the pair
    alone, whatever the aggregate response holds for them, and every other
    variable by the aggregate metrics alone. *)
Theorem X12_responses_fill_disjoint_columns
    aggResp aggResp' obsResp obsResp' (key : string * string) :
  Recognized aggResp obsResp key ->
  Recognized aggResp' obsResp' key ->
  let l := rowOf aggResp obsResp key in
  let l' := rowOf aggResp' obsResp' key in
  (usedObsMetrics obsResp (fst key) (snd key)
     = usedObsMetrics obsResp' (fst key) (snd key) ->
   ints l oInteracting = ints l' oInteracting /\
   ints l oWaiting = ints l' oWaiting) /\
  (usedAggMetrics aggResp (fst key) (snd key)
     = usedAggMetrics aggResp' (fst key) (snd key) ->
   (forall v, v <> oInteracting -> v <> oWaiting -> ints l v = ints l' v) /\
   (forall v, floats l v = floats l' v)).
Proof.
  intros Hrec Hrec'. cbv zeta. unfold rowOf.
  rewrite (reconcileKey_recognized _ _ _ Hrec).
  rewrite (reconcileKey_recognized _ _ _ Hrec').
  assert (Hint : forall agg obs v,
    ints (fold_left (applyKnown obsRegistry) obs
            (fold_left (applyKnown aggRegistry) agg zeroLocals)) v =
    match lastInt obsRegistry obs v with
    | Some x => x
    | None => match lastInt aggRegistry agg v with Some x => x | None => 0 end
    end).
  { intros agg obs v.
    rewrite (lastInt_spec obsRegistry obsRegistry_written).
    rewrite (lastInt_spec aggRegistry aggRegistry_written). reflexivity. }
  assert (Hfloat : forall agg obs v,
    floats (fold_left (applyKnown obsRegistry) obs
              (fold_left (applyKnown aggRegistry) agg zeroLocals)) v =
    match lastFloat aggRegistry agg v with Some x => x | None => 0%float end).
  { intros agg obs v.
    rewrite (lastFloat_spec obsRegistry obsRegistry_written), lastFloat_obs_None.
    rewrite (lastFloat_spec aggRegistry aggRegistry_written). reflexivity. }
  split.
  - intros Hobs. rewrite !Hint, Hobs.
    rewrite !(lastInt_agg_None _ oInteracting), !(lastInt_agg_None _ oWaiting)
      by auto.
    split; reflexivity.
  - intros Hagg. split; intros v.
    + intros H1 H2. rewrite !Hint, !(lastInt_obs_None _ v H1 H2), Hagg.
      reflexivity.
    + rewrite !Hfloat, Hagg. reflexivity.
Qed.

Lemma X12_responses_fill_disjoint_columns_witness :
  ints (rowOf offeredAgg waitingObs ("Q1", "voice")) oWaiting
    = ints (rowOf twoBuckets waitingObs ("Q1", "voice")) oWaiting /\
  ints (rowOf offeredAgg waitingObs ("Q1", "voice")) nOffered
    = ints (rowOf offeredAgg noObs ("Q1", "voice")) nOffered.
Proof.
  assert (H1 : Recognized offeredAgg waitingObs ("Q1", "voice"))
    by (eapply reconcileKey_Ok_recognized; vm_compute; reflexivity).
  assert (H2 : Recognized twoBuckets waitingObs ("Q1", "voice"))
    by (eapply reconcileKey_Ok_recognized; vm_compute; reflexivity).
  assert (H3 : Recognized offeredAgg noObs ("Q1", "voice"))
    by (eapply reconcileKey_Ok_recognized; vm_compute; reflexivity).
  destruct (X12_responses_fill_disjoint_columns _ _ _ _ _ H1 H2) as [Hobs _].
  destruct (X12_responses_fill_disjoint_columns _ _ _ _ _ H1 H3) as [_ Hagg].
  split.
  - apply (Hobs eq_refl).
  - apply (Hagg eq_refl); discriminate.
Defined.

(** ** Groupings of other pairs *)

Lemma scanAggResults_filter (results : list AggregateResult)
    (queueID mediaType : string) (l : Locals) :
  scanAggResults
    (filter (fun r => groupIs (agg_Group r) queueID mediaType) results)
    queueID mediaType l
  = scanAggResults results queueID mediaType l.
Proof.
  induction results as [|r results IH]; [reflexivity|].
  cbn [filter scanAggResults].
  destruct (groupIs (agg_Group r) queueID mediaType) eqn:Hg;
    [cbn [scanAggResults]; rewrite Hg; reflexivity|exact IH].
Qed.

Lemma scanObsResults_filter (results : list ObservationResult)
    (queueID mediaType : string) (l : Locals) :
  scanObsResults
    (filter (fun r => groupIs (obs_Group r) queueID mediaType) results)
    queueID mediaType l
  = scanObsResults results queueID mediaType l.
Proof.
  induction results as [|r results IH]; [reflexivity|].
  cbn [filter scanObsResults].
  destruct (groupIs (obs_Group r) queueID mediaType) eqn:Hg;
    [cbn [scanObsResults]; rewrite Hg; reflexivity|exact IH].
Qed.

(** X13: the groupings of other queues or media types never reach a pair:
    its variables, or its panic, are those of the two responses cut down to the
    pair's own groupings, so that a metric name outside the switches is
    harmless in a grouping of a pair that is not tracked. *)
Theorem X13_other_groupings_are_ignored
    aggResp obsResp (queueID mediaType : string) :
  reconcileKey aggResp obsResp queueID mediaType =
  reconcileKey (aggOnly aggResp queueID mediaType)
               (obsOnly obsResp queueID mediaType) queueID mediaType.
Proof.
  unfold reconcileKey, aggOnly, obsOnly. cbn [agg_Results obs_Results].
  rewrite scanAggResults_filter.
  destruct (scanAggResults (agg_Results aggResp) queueID mediaType zeroLocals);
    cbn [bind]; [|reflexivity].
  symmetry. apply scanObsResults_filter.
Qed.

(** ** Start-up and the ticker *)

Lemma startup_events (tr : list Event) :
  forallb isStartupEvent tr = true ->
  loopStarted tr = false /\ filter isQuery tr = [] /\
  (forall stmt, In stmt (execsOf tr) -> keyOf stmt = None).
Proof.
  induction tr as [|ev tr IH]; [intros _; repeat split; intros ? []|].
  cbn [forallb]. intros H. apply andb_true_iff in H. destruct H as [Hev Htr].
  destruct (IH Htr) as (Hl & Hq & Hk).
  destruct ev as [o|q|q|stmt|tick]; try discriminate Hev;
    cbn [loopStarted existsb filter isQuery execsOf flat_map app orb];
    repeat split; try assumption.
  intros s [<-|Hin]; [destruct stmt; try reflexivity; discriminate Hev|].
  apply Hk, Hin.
Qed.

Lemma loginToPureCloud_events (st : Startup) (cfg : AppConfig) :
  forallb isStartupEvent (fst (loginToPureCloud st cfg)) = true.
Proof.
  unfold loginToPureCloud.
  destruct (LoginWithClientCredentials st _ _ _); reflexivity.
Qed.

Lemma insertRows_events (st : Startup) (queueNames : list (string * string))
    (keys : list (string * string)) :
  forallb isStartupEvent (fst (insertRows st queueNames keys)) = true.
Proof.
  induction keys as [|[q m] keys IH]; [reflexivity|]. cbn [insertRows].
  destruct (startupExec st _); [reflexivity|].
  destruct (insertRows st queueNames keys). cbn [fst] in *. exact IH.
Qed.

Lemma prepareDbTables_events (st : Startup) (cfg : AppConfig) :
  forallb isStartupEvent (fst (prepareDbTables st cfg)) = true.
Proof.
  unfold prepareDbTables, getPureCloudQueues.
  destruct (GetListOfQueues st) as [entities|err]; [|reflexivity].
  destruct (startupExec st (CreateTable queueStatsTable)); [reflexivity|].
  pose proof (insertRows_events st (rev entities) (trackedKeys cfg)) as H.
  destruct (insertRows st (rev entities) (trackedKeys cfg)). cbn [fst] in *.
  cbn. exact H.
Qed.

(** X14: the ticker is started exactly when the configuration loads and
    validates, the database opens and answers the ping, the login succeeds and
    the table is prepared; when any of these fails the process returns
    without having sent a query or executed an UPDATE. *)
Theorem X14_ticker_starts_iff_startup_succeeds
    (st : Startup) (ticks : list Tick) :
  (loopStarted (fst (main st ticks)) = true <->
     exists cfg,
       loadAppConfig st configFile = (cfg, None) /\
       sql_Open st (OdbcDsn cfg) = None /\
       db_Ping st = None /\
       snd (loginToPureCloud st cfg) = None /\
       snd (prepareDbTables st cfg) = None) /\
  (loopStarted (fst (main st ticks)) = false ->
     snd (main st ticks) = Exited /\
     filter isQuery (fst (main st ticks)) = [] /\
     (forall stmt, In stmt (execsOf (fst (main st ticks))) ->
        keyOf stmt = None)).
Proof.
  unfold main.
  destruct (loadAppConfig st configFile) as [cfg [err|]].
  { split; [split; [discriminate|intros (c & [= ] & _)]|].
    intros _. repeat split. intros stmt []. }
  destruct (sql_Open st (OdbcDsn cfg)) as [err|] eqn:Hopen.
  { split; [split; [discriminate|]|].
    - intros (c & [= <-] & H & _). congruence.
    - intros _. repeat split. intros stmt []. }
  destruct (db_Ping st) as [err|] eqn:Hping.
  { split; [split; [discriminate|]|].
    - intros (c & _ & _ & H & _). discriminate H.
    - intros _. repeat split. intros stmt []. }
  pose proof (loginToPureCloud_events st cfg) as Hlogin.
  destruct (loginToPureCloud st cfg) as [tr1 [err|]] eqn:Hl; cbn [fst] in Hlogin.
  { assert (Hall : forallb isStartupEvent (tr1 ++ [ Printed (OutError err) ]) = true)
      by (rewrite forallb_app, Hlogin; reflexivity).
    destruct (startup_events _ Hall) as (Hs & Hq & Hk). cbn [fst snd].
    split; [split; [congruence|]|].
    - intros (c & [= <-] & _ & _ & H & _). rewrite Hl in H. discriminate H.
    - intros _. repeat split; assumption. }
  pose proof (prepareDbTables_events st cfg) as Hprep.
  destruct (prepareDbTables st cfg) as [tr2 [err|]] eqn:Hp; cbn [fst] in Hprep.
  { assert (Hall : forallb isStartupEvent
                     (tr1 ++ tr2 ++ [ Printed (OutError err) ]) = true)
      by (rewrite !forallb_app, Hlogin, Hprep; reflexivity).
    destruct (startup_events _ Hall) as (Hs & Hq & Hk). cbn [fst snd].
    split; [split; [congruence|]|].
    - intros (c & [= <-] & _ & _ & _ & H). rewrite Hp in H. discriminate H.
    - intros _. repeat split; assumption. }
  cbv zeta.
  assert (Hstarted : forall tr,
    loopStarted ((tr1 ++ tr2 ++ startGrabbingPureCloudStats cfg
                    ++ [ Printed (OutText "Press ENTER to STOP") ]) ++ tr) = true).
  { intros tr. unfold loopStarted, startGrabbingPureCloudStats.
    rewrite !existsb_app. cbn. rewrite !orb_true_r. reflexivity. }
  destruct (pollLoop cfg ticks) as [tr3 [msg|]]; cbn [fst snd]; rewrite Hstarted;
    (split; [split; [intros _|reflexivity]|discriminate]);
    exists cfg; rewrite Hl, Hp; repeat split; assumption.
Qed.

(** ** Preparing the table *)

Lemma insertRows_ext (st st' : Startup) (queueNames : list (string * string))
    (keys : list (string * string)) :
  (forall t q n m, startupExec st' (InsertRow t q n m)
                   = startupExec st (InsertRow t q n m)) ->
  insertRows st' queueNames keys = insertRows st queueNames keys.
Proof.
  intros Hext. induction keys as [|[q m] keys IH]; [reflexivity|].
  cbn [insertRows]. rewrite Hext, IH. reflexivity.
Qed.

(** X15: the outcome of DROP TABLE is ignored: whether it fails (as it does
    when the table does not exist yet) or not, the table is created and seeded
    in the same way and the same result is returned. *)
Theorem X15_drop_outcome_is_ignored
    (st : Startup) (cfg : AppConfig) (outcome : option string) :
  prepareDbTables (withDropOutcome outcome st) cfg = prepareDbTables st cfg /\
  (forall err, snd (prepareDbTables st cfg) = Some err ->
     GetListOfQueues st = inr err \/
     exists stmt, stmt <> DropTable queueStatsTable /\
                  startupExec st stmt = Some err).
Proof.
  split.
  - unfold prepareDbTables, getPureCloudQueues. cbn [withDropOutcome GetListOfQueues
      startupExec].
    destruct (GetListOfQueues st) as [entities|err]; [|reflexivity].
    destruct (startupExec st (CreateTable queueStatsTable)); [reflexivity|].
    rewrite (insertRows_ext st (withDropOutcome outcome st)); reflexivity.
  - intros err. unfold prepareDbTables, getPureCloudQueues.
    destruct (GetListOfQueues st) as [entities|e]; cbn [snd].
    2:{ intros [= ->]. left. reflexivity. }
    destruct (startupExec st (CreateTable queueStatsTable)) as [e|] eqn:Hc;
      cbn [snd].
    { intros [= ->]. right. exists (CreateTable queueStatsTable).
      split; [discriminate|exact Hc]. }
    assert (Hins : forall keys,
      snd (insertRows st (rev entities) keys) = Some err ->
      exists stmt, stmt <> DropTable queueStatsTable /\
                   startupExec st stmt = Some err).
    { induction keys as [|[q m] keys IH]; [discriminate|]. cbn [insertRows].
      destruct (startupExec st (InsertRow _ _ _ _)) as [e|] eqn:Hi; cbn [snd].
      - intros [= ->]. eexists. split; [|exact Hi]. discriminate.
      - destruct (insertRows st (rev entities) keys). exact IH. }
    destruct (insertRows st (rev entities) (trackedKeys cfg)) eqn:Hr.
    cbn [snd]. intros H. right. apply (Hins (trackedKeys cfg)). rewrite Hr.
    exact H.
Qed.

Lemma insertRows_fails (st : Startup) (entities : list (string * string))
    (before after : list (string * string)) (key : string * string)
    (err : string) :
  (forall k, In k before -> startupExec st (insertOf entities k) = None) ->
  startupExec st (insertOf entities key) = Some err ->
  insertRows st (rev entities) (before ++ key :: after) =
  (map (fun k => DbExec (insertOf entities k)) (before ++ [ key ]), Some err).
Proof.
  intros Hb Hk. induction before as [|[q m] before IH]; cbn [app insertRows map].
  - destruct key as [q m]. unfold insertOf, queueName in Hk. cbn [fst snd] in Hk.
    rewrite Hk. reflexivity.
  - pose proof (Hb (q, m) (or_introl eq_refl)) as Hq.
    unfold insertOf, queueName in Hq. cbn [fst snd] in Hq. rewrite Hq.
    rewrite IH by (intros k Hin; apply Hb; right; exact Hin). reflexivity.
Qed.

(** X16: seeding stops at the first INSERT that fails: the rows of the pairs
    before it are inserted, its own INSERT is the last statement executed, the
    rows of the pairs after it are left out, and the error is returned, so
    that [main] returns without starting the ticker. *)
Theorem X16_first_failed_insert_stops_seeding
    (st : Startup) (cfg : AppConfig) (entities : list (string * string))
    (before after : list (string * string)) (key : string * string)
    (err : string) :
  GetListOfQueues st = inl entities ->
  startupExec st (CreateTable queueStatsTable) = None ->
  trackedKeys cfg = before ++ key :: after ->
  (forall k, In k before -> startupExec st (insertOf entities k) = None) ->
  startupExec st (insertOf entities key) = Some err ->
  snd (prepareDbTables st cfg) = Some err /\
  execsOf (fst (prepareDbTables st cfg)) =
    DropTable queueStatsTable :: CreateTable queueStatsTable
      :: map (insertOf entities) (before ++ [ key ]).
Proof.
  intros Hq Hc Hkeys Hb Hk. unfold prepareDbTables, getPureCloudQueues.
  rewrite Hq, Hc, Hkeys, (insertRows_fails _ _ _ _ _ _ Hb Hk). cbn [fst snd].
  split; [reflexivity|]. cbn [app execsOf flat_map]. f_equal. f_equal.
  induction (before ++ [ key ]) as [|k ks IH]; [reflexivity|].
  cbn [map flat_map app]. f_equal. exact IH.
Qed.

(** X17: when the queue listing fails, its error is returned and no
    statement is issued at all, not even DROP TABLE.  When CREATE TABLE fails,
    its error is returned and the statements issued are exactly DROP TABLE,
    whose outcome the code ignores, and the failed CREATE TABLE: no row is
    inserted. *)
Theorem X17_failed_listing_or_create (st : Startup) (cfg : AppConfig) :
  (forall err,
     GetListOfQueues st = inr err ->
     snd (prepareDbTables st cfg) = Some err /\
     execsOf (fst (prepareDbTables st cfg)) = []) /\
  (forall entities err,
     GetListOfQueues st = inl entities ->
     startupExec st (CreateTable queueStatsTable) = Some err ->
     snd (prepareDbTables st cfg) = Some err /\
     execsOf (fst (prepareDbTables st cfg))
       = [ DropTable queueStatsTable; CreateTable queueStatsTable ]).
Proof.
  unfold prepareDbTables, getPureCloudQueues. split.
  - intros err ->. split; reflexivity.
  - intros entities err -> ->. split; reflexivity.
Qed.

Lemma X16_first_failed_insert_stops_seeding_witness :
  snd (prepareDbTables chatInsertFails configQ1) = Some "disk full" /\
  execsOf (fst (prepareDbTables chatInsertFails configQ1)) =
    [ DropTable "QueueStats"; CreateTable "QueueStats";
      InsertRow "QueueStats" "Q1" "Sales" "voice";
      InsertRow "QueueStats" "Q1" "Sales" "chat" ].
Proof.
  apply (X16_first_failed_insert_stops_seeding chatInsertFails configQ1
           [ ("Q1", "Sales") ] [ ("Q1", "voice") ] [ ("Q1", "email") ]
           ("Q1", "chat") "disk full"); try reflexivity.
  intros k [<-|[]]. reflexivity.
Defined.

(** ** The map of queue names *)

Lemma lookup_app {A : Type} (key : string) (m1 m2 : list (string * A)) :
  lookup key (m1 ++ m2) =
  match lookup key m1 with Some v => Some v | None => lookup key m2 end.
Proof.
  induction m1 as [|[k v] m1 IH]; [reflexivity|]. cbn [app lookup].
  destruct (key =? k)%string; [reflexivity|exact IH].
Qed.

Lemma lookup_not_In {A : Type} (key : string) (m : list (string * A)) :
  ~ In key (map fst m) -> lookup key m = None.
Proof.
  induction m as [|[k v] m IH]; [reflexivity|]. cbn [map fst In lookup].
  intros Hn. destruct (String.eqb_spec key k) as [->|_].
  - contradiction Hn. left. reflexivity.
  - apply IH. intros H. apply Hn. right. exact H.
Qed.

Lemma lookup_keys {A : Type} (key : string) (m : list (string * A)) :
  In key (map fst m) <-> exists v, lookup key m = Some v.
Proof.
  induction m as [|[k x] m IH]; cbn [map fst In lookup].
  - split; [intros []|intros [v H]; discriminate H].
  - destruct (String.eqb_spec key k) as [->|Hne].
    + split; [intros _; exists x; reflexivity|intros _; left; reflexivity].
    + rewrite <- IH. split; [intros [H|H]; [congruence|exact H]|intros H; right; exact H].
Qed.

(** X18: when the listing succeeds, [getPureCloudQueues] returns the map
    that the assignments [queues[queue.ID] = queue.Name] build in listing
    order, and prints its size: the name under a queue ID is that of the last
    entity listed with that ID, an ID that is not listed is absent, the keys
    are the listed IDs, and the count printed after [Mapped] is the number
    of distinct listed IDs. *)
Theorem X18_queue_map_last_listing_wins
    (st : Startup) (entities : list (string * string)) :
  GetListOfQueues st = inl entities ->
  exists queues ids,
    getPureCloudQueues st =
      ([ Printed (OutText "Retrieving list of configured queues...");
         Printed (OutMapped (List.length ids)) ], inl queues) /\
    NoDup ids /\
    (forall queueID, In queueID ids <-> In queueID (map fst entities)) /\
    (forall queueID,
       In queueID ids <-> exists name, lookup queueID queues = Some name) /\
    (forall before queueID name after,
       entities = before ++ (queueID, name) :: after ->
       ~ In queueID (map fst after) ->
       lookup queueID queues = Some name) /\
    (forall queueID,
       ~ In queueID (map fst entities) -> lookup queueID queues = None).
Proof.
  intros Hq. exists (rev entities), (nodup string_dec (map fst entities)).
  split; [unfold getPureCloudQueues; rewrite Hq; reflexivity|].
  split; [apply NoDup_nodup|].
  split; [intros queueID; apply nodup_In|].
  split; [|split].
  - intros queueID. rewrite nodup_In, <- lookup_keys, map_rev, <- in_rev.
    reflexivity.
  - intros before queueID name after -> Hlast.
    rewrite rev_app_distr. cbn [rev]. rewrite <- app_assoc, lookup_app.
    rewrite lookup_not_In by (rewrite map_rev, <- in_rev; exact Hlast).
    cbn [app lookup]. rewrite String.eqb_refl. reflexivity.
  - intros queueID Hno. apply lookup_not_In.
    rewrite map_rev, <- in_rev. exact Hno.
Qed.

Lemma X18_queue_map_last_listing_wins_witness :
  exists queues ids,
    getPureCloudQueues relistedQueues =
      ([ Printed (OutText "Retrieving list of configured queues...");
         Printed (OutMapped (List.length ids)) ], inl queues) /\
    NoDup ids /\
    (forall queueID,
       In queueID ids <->
       In queueID (map fst [ ("Q1", "Sales"); ("Q2", "Support"); ("Q1", "Sales EMEA") ])) /\
    (forall queueID,
       In queueID ids <-> exists name, lookup queueID queues = Some name) /\
    (forall before queueID name after,
       [ ("Q1", "Sales"); ("Q2", "Support"); ("Q1", "Sales EMEA") ]
         = before ++ (queueID, name) :: after ->
       ~ In queueID (map fst after) ->
       lookup queueID queues = Some name) /\
    (forall queueID,
       ~ In queueID (map fst [ ("Q1", "Sales"); ("Q2", "Support"); ("Q1", "Sales EMEA") ]) ->
       lookup queueID queues = None).
Proof.
  exact (X18_queue_map_last_listing_wins relistedQueues
           [ ("Q1", "Sales"); ("Q2", "Support"); ("Q1", "Sales EMEA") ] eq_refl).
Defined.

(** ** Validation messages *)

(** X19: validation tests the granularity first and the poll frequency only
    for a supported granularity: a configuration wrong in both is rejected for
    its granularity, and these two messages are the only ones. *)
Theorem X19_validation_order (cfg : AppConfig) :
  (validate cfg = Some "Invalid granularity. Use PT30M, PT60M or PT1H" <->
     ~ In (cfg_Granularity cfg) [ "PT30M"; "PT60M"; "PT1H" ]) /\
  (validate cfg = Some "Invalid frequency. Keep it within 60 seconds" <->
     In (cfg_Granularity cfg) [ "PT30M"; "PT60M"; "PT1H" ] /\
     ~ (1 <= PollFrequencySeconds cfg)%Q \/
     In (cfg_Granularity cfg) [ "PT30M"; "PT60M"; "PT1H" ] /\
     (61 <= PollFrequencySeconds cfg)%Q) /\
  (forall err,
     validate cfg = Some err ->
     err = "Invalid granularity. Use PT30M, PT60M or PT1H" \/
     err = "Invalid frequency. Keep it within 60 seconds").
Proof.
  pose proof (supportedGranularity_tokens (cfg_Granularity cfg)) as Htok.
  pose proof (int_of_float32_range (PollFrequencySeconds cfg)) as Hrange.
  unfold validate.
  destruct (lookup (cfg_Granularity cfg) supportedGranularity) as [d|].
  - assert (Hin : In (cfg_Granularity cfg) [ "PT30M"; "PT60M"; "PT1H" ])
      by (apply Htok; discriminate).
    destruct ((int_of_float32 (PollFrequencySeconds cfg) <=? 0)
              || (60 <? int_of_float32 (PollFrequencySeconds cfg))) eqn:Hb.
    + assert (Hout : ~ (1 <= int_of_float32 (PollFrequencySeconds cfg) <= 60)).
      { apply orb_true_iff in Hb. rewrite Z.leb_le, Z.ltb_lt in Hb. lia. }
      repeat apply conj.
      * discriminate.
      * intros H. contradiction.
      * intros _.
        destruct (Qlt_le_dec (PollFrequencySeconds cfg) 1) as [Hlt|Hge].
        -- left. split; [exact Hin|]. apply Qlt_not_le, Hlt.
        -- right. split; [exact Hin|].
           destruct (Qlt_le_dec (PollFrequencySeconds cfg) 61) as [Hlt|Hge'];
             [|exact Hge'].
           contradiction Hout. apply Hrange. split; assumption.
      * reflexivity.
      * intros err [= <-]. right. reflexivity.
    + assert (Hok : 1 <= int_of_float32 (PollFrequencySeconds cfg) <= 60).
      { apply orb_false_iff in Hb. rewrite Z.leb_gt, Z.ltb_ge in Hb. lia. }
      apply Hrange in Hok. destruct Hok as [H1 H61].
      repeat apply conj; try discriminate.
      * intros H. contradiction.
      * intros [[_ H]|[_ H]]; [contradiction|].
        apply Qle_not_lt in H. contradiction.
  - assert (Hno : ~ In (cfg_Granularity cfg) [ "PT30M"; "PT60M"; "PT1H" ])
      by (intros H; apply Htok in H; contradiction H; reflexivity).
    repeat apply conj.
    + intros _. exact Hno.
    + reflexivity.
    + discriminate.
    + intros [[H _]|[H _]]; contradiction.
    + intros err [= <-]. left. reflexivity.
Qed.

(** ** The UPDATE against the table and the switches *)

Lemma inclb_incl {A : Type} (dec : forall x y : A, {x = y} + {x <> y})
    (l1 l2 : list A) :
  inclb dec l1 l2 = true -> incl l1 l2.
Proof.
  unfold inclb. rewrite forallb_forall. intros H x Hx.
  specialize (H x Hx). destruct (in_dec dec x l2); [assumption|discriminate].
Qed.

Lemma nodup_NoDup {A : Type} (dec : forall x y : A, {x = y} + {x <> y})
    (l : list A) :
  nodup dec l = l -> NoDup l.
Proof. intros H. rewrite <- H. apply NoDup_nodup. Qed.

(** X20: the UPDATE is well formed for every row: [fmt.Sprintf] receives
    exactly one argument per verb and of the type the verb prints, no column is
    assigned twice, and each of the 50 variables is written to exactly one
    column. *)
Theorem X20_update_statement_well_formed (l : Locals) :
  setClause l =
    map (fun ca => (fst ca, Some (argValue l (snd ca)))) assignments /\
  List.length updateFormat = List.length updateArgs /\
  NoDup (map fst updateFormat) /\
  NoDup updateArgs /\
  (forall v, In (IntArg v) updateArgs) /\
  (forall v, In (FloatArg v) updateArgs).
Proof.
  repeat apply conj.
  - reflexivity.
  - reflexivity.
  - apply (nodup_NoDup string_dec). vm_compute. reflexivity.
  - apply (nodup_NoDup Arg_eq_dec). vm_compute. reflexivity.
  - intros v.
    apply (inclb_incl Arg_eq_dec (map IntArg allIntVars) updateArgs);
      [vm_compute; reflexivity|].
    apply in_map. destruct v; cbn; tauto.
  - intros v.
    apply (inclb_incl Arg_eq_dec (map FloatArg allFloatVars) updateArgs);
      [vm_compute; reflexivity|].
    apply in_map. destruct v; cbn; tauto.
Qed.

(** X21: the UPDATE and the table agree: the columns the UPDATE assigns are
    exactly the columns of CREATE TABLE other than the three the INSERT fills,
    each once, an integer column through [%d] and a float column through
    [%f]; the WHERE clause tests two of the inserted columns. *)
Theorem X21_update_assigns_the_table_columns :
  map fst (firstn 3 createColumns) = insertColumns /\
  incl whereColumns insertColumns /\
  NoDup (map fst createColumns) /\
  Permutation
    (map (fun cv => (fst cv, verbType (snd cv))) updateFormat) statColumns.
Proof.
  repeat apply conj.
  - reflexivity.
  - apply (inclb_incl string_dec). vm_compute. reflexivity.
  - apply (nodup_NoDup string_dec). vm_compute. reflexivity.
  - apply NoDup_Permutation.
    + apply (nodup_NoDup column_eq_dec). vm_compute. reflexivity.
    + apply (nodup_NoDup column_eq_dec). vm_compute. reflexivity.
    + intros x. split; apply (inclb_incl column_eq_dec); vm_compute; reflexivity.
Qed.

Lemma lookup_In {A : Type} (key : string) (m : list (string * A)) (v : A) :
  lookup key m = Some v -> In (key, v) m.
Proof.
  induction m as [|[k x] m IH]; [discriminate|]. cbn [lookup].
  destruct (String.eqb_spec key k) as [->|_].
  - intros [= ->]. left. reflexivity.
  - intros H. right. apply IH, H.
Qed.

(** X22: the switches and the UPDATE agree on where a metric goes: what a
    recognized metric writes is stored under the metric's own name, the max of
    a duration triplet under the name with [m] in front and its count under
    the name with [n] in place of the first letter; and every column of the
    UPDATE is fed in this way by a metric of one of the two switches. *)
Theorem X22_metrics_reach_their_columns :
  (forall name r,
     lookup name aggRegistry = Some r \/ lookup name obsRegistry = Some r ->
     incl (expectedAssignments name r) assignments) /\
  (forall ca, In ca assignments ->
     exists name r,
       In (name, r) (aggRegistry ++ obsRegistry) /\
       In ca (expectedAssignments name r)).
Proof.
  split.
  - intros name r Hr.
    assert (Hin : In (name, r) (aggRegistry ++ obsRegistry)).
    { apply in_or_app. destruct Hr as [H|H]; [left|right]; apply lookup_In, H. }
    assert (Hall : forallb
              (fun e => inclb assignment_eq_dec
                          (expectedAssignments (fst e) (snd e)) assignments)
              (aggRegistry ++ obsRegistry) = true)
      by (vm_compute; reflexivity).
    rewrite forallb_forall in Hall.
    apply (inclb_incl assignment_eq_dec), (Hall (name, r) Hin).
  - intros ca Hca.
    assert (Hall : inclb assignment_eq_dec assignments
              (flat_map (fun e => expectedAssignments (fst e) (snd e))
                        (aggRegistry ++ obsRegistry)) = true)
      by (vm_compute; reflexivity).
    apply (inclb_incl assignment_eq_dec) in Hall. apply Hall in Hca.
    apply in_flat_map in Hca. destruct Hca as ([name r] & Hin & Hexp).
    exists name, r. split; assumption.
Qed.

(** ** Rows seeded and rows updated *)

Lemma insertRows_None (st : Startup) (queueNames : list (string * string))
    (keys : list (string * string)) :
  snd (insertRows st queueNames keys) = None ->
  forall key, In key keys ->
    exists name,
      In (InsertRow queueStatsTable (fst key) name (snd key))
         (execsOf (fst (insertRows st queueNames keys))).
Proof.
  induction keys as [|[q m] keys IH]; [intros _ key []|]. cbn [insertRows].
  destruct (startupExec st _) as [err|]; [discriminate|].
  destruct (insertRows st queueNames keys) as [tr r]. cbn [fst snd] in *.
  intros Hr key [<-|Hin].
  - eexists. left. reflexivity.
  - destruct (IH Hr key Hin) as (name & Hname). exists name. right. exact Hname.
Qed.

Lemma In_firstn {A : Type} (n : nat) (l : list A) (x : A) :
  In x (firstn n l) -> In x l.
Proof.
  intros H. rewrite <- (firstn_skipn n l). apply in_or_app. left. exact H.
Qed.

(** X23: a cycle only ever updates rows that start-up has inserted: when
    the table was prepared without error, every UPDATE of every later cycle,
    however that cycle ends, names the queue and media type of one of the
    rows inserted. *)
Theorem X23_updates_hit_seeded_rows
    (st : Startup) (cfg : AppConfig) (env : Env)
    (startInterval endInterval : Time) (stmt : SqlStmt) :
  snd (prepareDbTables st cfg) = None ->
  In stmt (execsOf (fst (queryAndWriteQueueStatsToDb cfg env startInterval
                           endInterval))) ->
  exists l queueID mediaType name,
    stmt = UpdateRow queueStatsTable l queueID mediaType /\
    In (InsertRow queueStatsTable queueID name mediaType)
       (execsOf (fst (prepareDbTables st cfg))).
Proof.
  intros Hprep Hin.
  assert (Hkey : exists key,
    In key (trackedKeys cfg) /\
    exists l, stmt = UpdateRow queueStatsTable l (fst key) (snd key)).
  { revert Hin.
    unfold queryAndWriteQueueStatsToDb, queryQueueIntervalStats. cbv zeta.
    destruct (QueryConversationAggregates env _) as [aggResp|err];
      [|intros []].
    destruct (QueryQueueObservations env _) as [obsResp|err]; [|intros []].
    rewrite forRange_nested. fold (trackedKeys cfg).
    destruct (forRange_updateKey_shape env aggResp obsResp (trackedKeys cfg) [])
      as (n & _ & Hex & _).
    destruct (forRange _ (trackedKeys cfg) []) as [tr [d|x]]; cbn [fst snd] in *;
      rewrite execsOf_app, Hex; cbn [execsOf flat_map app];
      intros Hin; apply in_map_iff in Hin; destruct Hin as (key & <- & Hk);
      exists key; (split; [exact (In_firstn _ _ _ Hk)|]);
      eexists; reflexivity. }
  destruct Hkey as (key & Hk & l & ->).
  revert Hprep. unfold prepareDbTables, getPureCloudQueues.
  destruct (GetListOfQueues st) as [entities|err]; [|discriminate].
  destruct (startupExec st (CreateTable queueStatsTable)); [discriminate|].
  pose proof (insertRows_None st (rev entities) (trackedKeys cfg)) as Hins.
  destruct (insertRows st (rev entities) (trackedKeys cfg)) as [tr r].
  cbn [fst snd] in *. intros Hr. destruct (Hins Hr key Hk) as (name & Hname).
  exists l, (fst key), (snd key), name. split; [reflexivity|].
  rewrite !execsOf_app. apply in_or_app. right.
  apply in_or_app. right. exact Hname.
Qed.

Lemma X23_updates_hit_seeded_rows_witness :
  exists l queueID mediaType name,
    updateOf offeredAgg noObs ("Q1", "voice")
      = UpdateRow queueStatsTable l queueID mediaType /\
    In (InsertRow queueStatsTable queueID name mediaType)
       (execsOf (fst (prepareDbTables (startupOf configQ1) configQ1))).
Proof.
  apply (X23_updates_hit_seeded_rows (startupOf configQ1) configQ1
           (envOf offeredAgg noObs) (3600 * Second) (5400 * Second)).
  - reflexivity.
  - left. reflexivity.
Defined.

(** X24: with no queue configured, every cycle still sends its queries and
    then executes no statement; it never panics, whatever the responses hold,
    and returns an error only when the provider does. *)
Theorem X24_no_queues_no_updates
    (cfg : AppConfig) (env : Env) (startInterval endInterval : Time) :
  Queues cfg = [] ->
  let cycle := queryAndWriteQueueStatsToDb cfg env startInterval endInterval in
  execsOf (fst cycle) = [] /\
  List.length (filter isAggregateQuery (fst cycle)) = 1%nat /\
  (forall msg, snd cycle <> Panicked msg) /\
  (forall aggResp obsResp,
     Answered cfg env startInterval endInterval aggResp obsResp ->
     snd cycle = Returned None).
Proof.
  intros Hq. cbv zeta.
  split; [|split; [apply cycle_one_aggregate_query|]].
  - unfold queryAndWriteQueueStatsToDb, queryQueueIntervalStats. cbv zeta.
    rewrite Hq.
    destruct (QueryConversationAggregates env _); [|reflexivity].
    destruct (QueryQueueObservations env _); reflexivity.
  - unfold queryAndWriteQueueStatsToDb, queryQueueIntervalStats, Answered.
    cbv zeta. rewrite Hq. split.
    + intros msg.
      destruct (QueryConversationAggregates env _); [|discriminate].
      destruct (QueryQueueObservations env _); discriminate.
    + intros aggResp obsResp [-> ->]. reflexivity.
Qed.

Lemma X24_no_queues_no_updates_witness :
  execsOf (fst (queryAndWriteQueueStatsToDb (configOf "PT30M" 10 [])
                  (envOf unseenAgg noObs) (3600 * Second) (5400 * Second))) = [] /\
  snd (queryAndWriteQueueStatsToDb (configOf "PT30M" 10 [])
         (envOf unseenAgg noObs) (3600 * Second) (5400 * Second)) = Returned None.
Proof.
  destruct (X24_no_queues_no_updates (configOf "PT30M" 10 [])
              (envOf unseenAgg noObs) (3600 * Second) (5400 * Second) eq_refl)
    as (Hex & _ & _ & Hret).
  split; [exact Hex|]. apply (Hret unseenAgg noObs). split; reflexivity.
Defined.

(** ** Where the configuration comes from *)

(** X25: [loadAppConfig] returns no error only for a configuration that was
    read from a file, decoded without error and validated: the file is the one
    passed as [configFile] when that is not empty and the first command-line
    argument otherwise, and the global configuration is then the decoded
    one. *)
Theorem X25_loaded_configuration_was_validated (st : Startup) (file : string) :
  snd (loadAppConfig st file) = None ->
  exists path bytes,
    (file <> EmptyString -> path = file) /\
    (file = EmptyString ->
       exists prog more, os_Args st = prog :: path :: more) /\
    ReadFile st path = inl bytes /\
    Decode st bytes = (fst (loadAppConfig st file), None) /\
    validate (fst (loadAppConfig st file)) = None.
Proof.
  unfold loadAppConfig.
  destruct (String.eqb_spec file EmptyString) as [->|Hne].
  - destruct (os_Args st) as [|prog [|path more]]; [discriminate|discriminate|].
    destruct (ReadFile st path) as [bytes|err] eqn:Hread; [|discriminate].
    destruct (Decode st bytes) as [cfg [err|]] eqn:Hdec; [discriminate|].
    cbn [fst snd]. intros Hv. exists path, bytes.
    repeat split; try assumption; [intros H; contradiction H; reflexivity|].
    intros _. exists prog, more. reflexivity.
  - destruct (ReadFile st file) as [bytes|err] eqn:Hread; [|discriminate].
    destruct (Decode st bytes) as [cfg [err|]] eqn:Hdec; [discriminate|].
    cbn [fst snd]. intros Hv. exists file, bytes.
    repeat split; try assumption. intros H. contradiction.
Qed.

Lemma X25_loaded_configuration_was_validated_witness :
  exists path bytes,
    (configFile <> EmptyString -> path = configFile) /\
    (configFile = EmptyString ->
       exists prog more, os_Args (startupOf configQ1) = prog :: path :: more) /\
    ReadFile (startupOf configQ1) path = inl bytes /\
    Decode (startupOf configQ1) bytes
      = (fst (loadAppConfig (startupOf configQ1) configFile), None) /\
    validate (fst (loadAppConfig (startupOf configQ1) configFile)) = None.
Proof.
  exact (X25_loaded_configuration_was_validated (startupOf configQ1) configFile
           eq_refl).
Defined.
